(** * osc2: the project working copy (osc/wc/project.py) and RemoteFile
      (osc/remote.py)

    A shallow embedding of the project-level working-copy engine.  Python
    strings are [string], Python lists are [list], an exception is a value
    of [exn] carried by [result], and code that mutates the working copy is
    written in a small state-and-exception monad. *)

From Stdlib Require Import String Ascii List Bool ZArith Permutation Lia.
Import ListNotations.
Local Open Scope string_scope.
Local Open Scope list_scope.

(* ===================================================================== *)
(** ** Python values shared by every module                               *)
(* ===================================================================== *)

Module Py.

(** The exceptions the modelled code raises, or runs into. *)
Inductive exn : Type :=
| ValueError (msg : string)
| NameError (name : string)
| AttributeError (msg : string)
| FileConflictError (conflicts : list string)
| PendingTransactionError (kind : string).

Inductive result (A : Type) : Type :=
| Ok (a : A)
| Raise (e : exn).
Arguments Ok {A} a.
Arguments Raise {A} e.

Definition bind {A B} (r : result A) (k : A -> result B) : result B :=
  match r with
  | Ok a => k a
  | Raise e => Raise e
  end.

(** [x in l] on a list of strings. *)
Fixpoint contains (x : string) (l : list string) : bool :=
  match l with
  | [] => false
  | y :: l' => if String.eqb x y then true else contains x l'
  end.

(** [l.remove(x)]: drops the first occurrence, ValueError when there
    is none. *)
Fixpoint list_remove (x : string) (l : list string) : result (list string) :=
  match l with
  | [] => Raise (ValueError "list.remove(x): x not in list")
  | y :: l' =>
      if String.eqb x y then Ok l'
      else bind (list_remove x l') (fun r => Ok (y :: r))
  end.

Definition startswith_sep (s : string) : bool :=
  match s with
  | String c _ => Ascii.eqb c "/"%char
  | EmptyString => false
  end.

Fixpoint endswith_sep (s : string) : bool :=
  match s with
  | EmptyString => false
  | String c EmptyString => Ascii.eqb c "/"%char
  | String _ s' => endswith_sep s'
  end.

(** [os.path.join(a, b)] of posixpath, for two components. *)
Definition os_path_join (a b : string) : string :=
  if startswith_sep b then b
  else if orb (String.eqb a "") (endswith_sep a) then a ++ b
  else a ++ "/" ++ b.

(** [str.lower()] on ASCII letters. *)
Definition lower_ascii (c : ascii) : ascii :=
  let n := nat_of_ascii c in
  if andb (Nat.leb 65 n) (Nat.leb n 90) then ascii_of_nat (n + 32) else c.

Fixpoint lower (s : string) : string :=
  match s with
  | EmptyString => EmptyString
  | String c s' => String (lower_ascii c) (lower s')
  end.

(** The double quote character, for messages that quote a name. *)
Definition dq : string := String (ascii_of_nat 34) EmptyString.

(** Code that mutates a store [S] and may raise: the store as the
    exception leaves it is part of the outcome. *)
Definition M (S A : Type) : Type := S -> result A * S.

Definition ret {S A} (a : A) : M S A := fun s => (Ok a, s).

Definition raise {S A} (e : exn) : M S A := fun s => (Raise e, s).

Definition lift {S A} (r : result A) : M S A := fun s => (r, s).

Definition gets {S A} (f : S -> A) : M S A := fun s => (Ok (f s), s).

Definition modify {S} (f : S -> S) : M S unit := fun s => (Ok tt, f s).

Definition mbind {S A B} (m : M S A) (k : A -> M S B) : M S B :=
  fun s =>
    match m s with
    | (Ok a, s') => k a s'
    | (Raise e, s') => (Raise e, s')
    end.

End Py.

Notation "x <- c ;; k" := (Py.bind c (fun x => k))
  (at level 61, c at next level, right associativity).
Notation "x <~ c ;; k" := (Py.mbind c (fun x => k))
  (at level 61, c at next level, right associativity).
Notation "c >> k" := (Py.mbind c (fun _ => k))
  (at level 61, right associativity).

(* ===================================================================== *)
(** ** The packages manifest ([self._packages])                           *)
(* ===================================================================== *)

Module Manifest.

(** One [<package name=".." state=".."/>] element. *)
Record entry : Type := Entry { entry_name : string; entry_state : string }.

Definition t : Type := list entry.

(** Modelled from the spec: [find], [add], [remove] and [set] of the
    manifest object returned by [wc_read_packages] (osc/wc/util.py is not
    part of the sources).  The manifest is an ordered collection of
    entries [{name, state}]; [find] yields the entry of a name or None. *)
Fixpoint find (pkg : string) (m : t) : option entry :=
  match m with
  | [] => None
  | e :: m' => if String.eqb (entry_name e) pkg then Some e else find pkg m'
  end.

(** Modelled from the spec: [add(pkg, state=..)] appends an entry. *)
Definition add (pkg state : string) (m : t) : t := m ++ [Entry pkg state].

(** Modelled from the spec: [remove(pkg)] drops the entry of [pkg]
    outright. *)
Fixpoint remove (pkg : string) (m : t) : t :=
  match m with
  | [] => []
  | e :: m' => if String.eqb (entry_name e) pkg then m' else e :: remove pkg m'
  end.

(** Modelled from the spec: [set(pkg, state)] sets the state of the entry
    of [pkg]. *)
Fixpoint set (pkg state : string) (m : t) : t :=
  match m with
  | [] => []
  | e :: m' =>
      if String.eqb (entry_name e) pkg then Entry pkg state :: m'
      else e :: set pkg state m'
  end.

(** The data-model invariant: every entry has a state in [' '], ['A'],
    ['D']. *)
Definition valid_state (s : string) : bool :=
  orb (String.eqb s " ") (orb (String.eqb s "A") (String.eqb s "D")).

Definition well_formed (m : t) : bool :=
  forallb (fun e => valid_state (entry_state e)) m.

End Manifest.

(* ===================================================================== *)
(** ** The transaction record and its rollback                            *)
(* ===================================================================== *)

Module Transaction.
Import Py.

(** The phase tags of [UpdateStateMixin] and [CommitStateMixin]
    (osc/wc/base.py is not part of the sources; only the names of the
    constants are used here). *)
Inductive phase : Type :=
| STATE_PREPARE
| STATE_UPDATING
| STATE_TRANSFER
| STATE_COMMITTING.

Definition phase_eqb (a b : phase) : bool :=
  match a, b with
  | STATE_PREPARE, STATE_PREPARE => true
  | STATE_UPDATING, STATE_UPDATING => true
  | STATE_TRANSFER, STATE_TRANSFER => true
  | STATE_COMMITTING, STATE_COMMITTING => true
  | _, _ => false
  end.

(** The content of a [_transaction] file. *)
Record data : Type := {
  name : string;
  state : phase;
  lists : list (string * list string);
  entrystates : list (string * option string)
}.

(** A transaction state object: the record read at a working copy path. *)
Record state_obj : Type := { wc_path : string; content : data }.

(** The [_transaction] file of every working copy path. *)
Definition Disk : Type := string -> option data.

(** Modelled from the spec: [read_state(path)] returns the current record
    or None ([XMLTransactionState] of osc/wc/util.py is not part of the
    sources). *)
Definition read_state (path : string) (d : Disk) : option state_obj :=
  match d path with
  | Some c => Some {| wc_path := path; content := c |}
  | None => None
  end.

(** Modelled from the spec: [cleanup()] removes the record. *)
Definition cleanup (o : state_obj) : M Disk unit :=
  modify (fun d p => if String.eqb p (wc_path o) then None else d p).

(** Values a name of the two [rollback] bodies can be bound to. *)
Inductive value : Type :=
| VStr (s : string)
| VNone
| VState (o : state_obj)
| VGlobal (name : string).

Definition of_option (o : option state_obj) : value :=
  match o with
  | Some st => VState st
  | None => VNone
  end.

(** The names bound at module level in osc/wc/project.py: its imports and
    its classes.  No builtin of Python is called [ustate] or [cstate]. *)
Definition module_globals : list string :=
  ["os"; "fcntl"; "shutil"; "objectify"; "etree"; "WorkingCopy";
   "UpdateStateMixin"; "CommitStateMixin"; "PendingTransactionError";
   "FileConflictError"; "Package"; "wc_read_project"; "wc_read_apiurl";
   "wc_read_packages"; "wc_init"; "wc_write_apiurl"; "wc_write_project";
   "wc_write_packages"; "missing_storepaths"; "wc_lock";
   "WCInconsistentError"; "wc_is_project"; "wc_is_package";
   "wc_pkg_data_mkdir"; "XMLTransactionState"; "_storedir"; "_STORE";
   "wc_pkg_data_filename"; "SourceProject"; "RemotePackage";
   "PackageUpdateInfo"; "PackageCommitInfo"; "ProjectUpdateState";
   "ProjectCommitState"; "Project"].

Fixpoint lookup_local (x : string) (locals : list (string * value))
  : option value :=
  match locals with
  | [] => None
  | (y, v) :: rest => if String.eqb x y then Some v else lookup_local x rest
  end.

(** Reading a name inside a function body: the local variables, then the
    module's globals, else NameError. *)
Definition load_name (locals : list (string * value)) (x : string)
  : result value :=
  match lookup_local x locals with
  | Some v => Ok v
  | None =>
      if contains x module_globals then Ok (VGlobal x)
      else Raise (NameError x)
  end.

(** The AttributeError of a value that has no attribute [attr]; for an
    object bound at module level only the attribute is kept. *)
Definition no_attribute (v : value) (attr : string) : exn :=
  match v with
  | VNone =>
      AttributeError ("'NoneType' object has no attribute '" ++ attr ++ "'")
  | VStr _ =>
      AttributeError ("'str' object has no attribute '" ++ attr ++ "'")
  | _ => AttributeError attr
  end.

(** [v.name] *)
Definition getattr_name (v : value) : result string :=
  match v with
  | VState o => Ok (name (content o))
  | _ => Raise (no_attribute v "name")
  end.

(** [v.state] *)
Definition getattr_state (v : value) : result phase :=
  match v with
  | VState o => Ok (state (content o))
  | _ => Raise (no_attribute v "state")
  end.

(** [v.cleanup()] *)
Definition call_cleanup (v : value) : M Disk unit :=
  match v with
  | VState o => cleanup o
  | _ => raise (no_attribute v "cleanup")
  end.

End Transaction.

Module ProjectUpdateState.
Import Py Transaction.

(** [ProjectUpdateState.rollback] *)
Definition rollback (path : string) : M Disk bool :=
  st <~ gets (read_state path) ;;
  let locals := [("path", VStr path); ("ustate", of_option st)] in
  u <~ lift (load_name locals "ustate") ;;
  n <~ lift (getattr_name u) ;;
  if negb (String.eqb n "update") then raise (ValueError "no update transaction")
  else
    u <~ lift (load_name locals "ustate") ;;
    s <~ lift (getattr_state u) ;;
    if phase_eqb s STATE_PREPARE then
      u <~ lift (load_name locals "ustate") ;;
      call_cleanup u >> ret true
    else ret false.

End ProjectUpdateState.

Module ProjectCommitState.
Import Py Transaction.

(** [ProjectCommitState.rollback] *)
Definition rollback (path : string) : M Disk bool :=
  st <~ gets (read_state path) ;;
  let locals := [("path", VStr path); ("cstate", of_option st)] in
  c <~ lift (load_name locals "cstate") ;;
  n <~ lift (getattr_name c) ;;
  if negb (String.eqb n "commit") then raise (ValueError "no commit transaction")
  else
    u <~ lift (load_name locals "ustate") ;;
    s <~ lift (getattr_state u) ;;
    if phase_eqb s STATE_TRANSFER then
      u <~ lift (load_name locals "ustate") ;;
      call_cleanup u >> ret true
    else ret false.

End ProjectCommitState.

(* ===================================================================== *)
(** ** The project working copy                                           *)
(* ===================================================================== *)

Module WC.
Import Py.

(** What the modelled code asks the file system, per path. *)
Record FS : Type := {
  exists_ : string -> bool;         (* os.path.exists *)
  isdir : string -> bool;           (* os.path.isdir *)
  wc_is_package : string -> bool;   (* osc.wc.util.wc_is_package *)
  wc_is_project : string -> bool    (* osc.wc.util.wc_is_project *)
}.

(** The attributes of a [Project] object the modelled methods read. *)
Record Project : Type := {
  path : string;
  name : string;
  apiurl : string;
  _packages : Manifest.t
}.

(** The opaque package working copy handle, [Package(path)]. *)
Record Package : Type := { pkg_path : string }.

(** The answers of the package black box, per handle. *)
Record Answers : Type := {
  is_updateable : Package -> bool;
  is_commitable : Package -> bool;
  is_modified : Package -> bool
}.

Record PackageUpdateInfo : Type := {
  candidates : list string;
  added : list string;
  deleted : list string;
  conflicted : list string
}.

Record PackageCommitInfo : Type := {
  c_unchanged : list string;
  c_added : list string;
  c_deleted : list string;
  c_modified : list string;
  c_conflicted : list string
}.

Section Queries.
Variable self : Project.
Variable fs : FS.

(** [Project.packages] *)
Definition packages : list string :=
  map Manifest.entry_name (_packages self).

(** [Project._status] *)
Definition _status (pkg : string) : string :=
  let pkg_dir := os_path_join (path self) pkg in
  let exists' := exists_ fs pkg_dir in
  match Manifest.find pkg (_packages self) with
  | None => "?"
  | Some entry =>
      let st := Manifest.entry_state entry in
      if andb (negb exists') (negb (String.eqb st "D")) then "!"
      else st
  end.

(** [Project.package] *)
Definition package (pkg : string) : option Package :=
  let p := os_path_join (path self) pkg in
  let st := _status pkg in
  if orb (contains st ["!"; "?"])
         (andb (String.eqb st "D") (negb (wc_is_package fs p)))
  then None
  else Some {| pkg_path := p |}.

End Queries.


(* --------------------------------------------------------------------- *)
(** *** The classifier                                                    *)
(* --------------------------------------------------------------------- *)

Section Classifier.
Variable self : Project.
Variable fs : FS.
Variable pkgs : Answers.

(** First loop of [_calculate_updateinfo]: every remote package is a
    candidate when it is a local package, else an added one. *)
Definition sort_remote (local_pkgs : list string)
  (acc : list string * list string) (package : string)
  : list string * list string :=
  let '(candidates, added) := acc in
  if contains package local_pkgs then (candidates ++ [package], added)
  else (candidates, added ++ [package]).

(** [pkg is not None and not pkg.is_updateable()] *)
Definition not_updateable (pkg : option Package) : bool :=
  match pkg with
  | Some p => negb (is_updateable pkgs p)
  | None => false
  end.

(** Second loop: the local packages. *)
Definition scan_local (remote_pkgs : list string)
  (acc : list string * list string) (package : string)
  : list string * list string :=
  let '(deleted, conflicted) := acc in
  let st := _status self fs package in
  let pkg := WC.package self fs package in
  if not_updateable pkg then (deleted, conflicted ++ [package])
  else if andb (negb (String.eqb st "A"))
               (negb (contains package remote_pkgs))
  then (deleted ++ [package], conflicted)
  else (deleted, conflicted).

(** The condition of the third loop,
    [self._status(package) in ('A', '!') or not pkg.is_updateable()]:
    [or] does not evaluate its right operand when the left one holds, and
    the right operand fails on [None]. *)
Definition candidate_conflict (package : string) : result bool :=
  let pkg := WC.package self fs package in
  if contains (_status self fs package) ["A"; "!"] then Ok true
  else
    match pkg with
    | Some p => Ok (negb (is_updateable pkgs p))
    | None =>
        Raise (AttributeError
                 "'NoneType' object has no attribute 'is_updateable'")
    end.

(** The condition of the fourth loop, [st == '?' and os.path.exists(path)]. *)
Definition added_conflict (package : string) : result bool :=
  let path' := os_path_join (path self) package in
  let st := _status self fs package in
  Ok (andb (String.eqb st "?") (exists_ fs path')).

(** The shape of the third and fourth loops,
    [for package in src[:]: if cond: conflicted.append(package);
     src.remove(package)]: the iteration runs over a copy while the list
    itself shrinks. *)
Fixpoint move_conflicts (cond : string -> result bool) (copy : list string)
  (src conflicted : list string) : result (list string * list string) :=
  match copy with
  | [] => Ok (src, conflicted)
  | package :: rest =>
      c <- cond package ;;
      if c then
        let conflicted' := conflicted ++ [package] in
        src' <- list_remove package src ;;
        move_conflicts cond rest src' conflicted'
      else move_conflicts cond rest src conflicted
  end.

(** [[p for p in l if p in packages]] *)
Definition only_selected (selection l : list string) : list string :=
  filter (fun p => contains p selection) l.

(** [Project._calculate_updateinfo]; [remote_pkgs] are the names that
    [SourceProject(self.name).list()] yields and [selection] is
    [*packages]. *)
Definition _calculate_updateinfo (remote_pkgs selection : list string)
  : result PackageUpdateInfo :=
  let local_pkgs := packages self in
  let '(candidates, added) :=
    fold_left (sort_remote local_pkgs) remote_pkgs ([], []) in
  let '(deleted, conflicted) :=
    fold_left (scan_local remote_pkgs) local_pkgs ([], []) in
  r3 <- move_conflicts candidate_conflict candidates candidates conflicted ;;
  let '(candidates, conflicted) := r3 in
  r4 <- move_conflicts added_conflict added added conflicted ;;
  let '(added, conflicted) := r4 in
  match selection with
  | _ :: _ =>
      Ok {| candidates := only_selected selection candidates;
            added := only_selected selection added;
            deleted := only_selected selection deleted;
            conflicted := only_selected selection conflicted |}
  | [] =>
      Ok {| candidates := candidates; added := added;
            deleted := deleted; conflicted := conflicted |}
  end.

(** The body of the loop of [_calculate_commitinfo]. *)
Definition classify_commit (acc : PackageCommitInfo) (package : string)
  : PackageCommitInfo :=
  let st := _status self fs package in
  let pkg := WC.package self fs package in
  let '(Build_PackageCommitInfo unchanged added deleted modified conflicted) :=
    acc in
  if String.eqb st "A" then
    Build_PackageCommitInfo unchanged (added ++ [package]) deleted modified
      conflicted
  else if String.eqb st "D" then
    Build_PackageCommitInfo unchanged added (deleted ++ [package]) modified
      conflicted
  else
    match pkg with
    | None =>
        Build_PackageCommitInfo unchanged added deleted modified
          (conflicted ++ [package])
    | Some p =>
        let commitable := is_commitable pkgs p in
        let mod' := is_modified pkgs p in
        if andb mod' commitable then
          Build_PackageCommitInfo unchanged added deleted
            (modified ++ [package]) conflicted
        else if negb commitable then
          Build_PackageCommitInfo unchanged added deleted modified
            (conflicted ++ [package])
        else
          Build_PackageCommitInfo (unchanged ++ [package]) added deleted
            modified conflicted
    end.

(** [Project._calculate_commitinfo]; [selection] is [*packages]. *)
Definition _calculate_commitinfo (selection : list string)
  : PackageCommitInfo :=
  let packages' :=
    match selection with
    | [] => packages self
    | _ :: _ => selection
    end in
  fold_left classify_commit packages' (Build_PackageCommitInfo [] [] [] [] []).

End Classifier.

(* --------------------------------------------------------------------- *)
(** *** Operations that change the working copy                           *)
(* --------------------------------------------------------------------- *)

(** Modelled from the spec: the package black box exposes
    [init(path, project, name, api_url, external_store)]
    (osc/wc/package.py is not part of the sources); a call binds its
    positional arguments in this order, and the source names the fifth one
    [ext_storedir]. *)
Record InitCall : Type := {
  init_path : string;
  init_project : string;
  init_name : string;
  init_api_url : string;
  init_external_store : string
}.

(** Everything the operations read or change: the [Project] object, the
    file system, the package black box, the [_packages] and [_transaction]
    files, and the calls of [Package.init] made so far. *)
Record World : Type := {
  w_self : Project;
  w_fs : FS;
  w_pkgs : Answers;
  w_stored_packages : Manifest.t;
  w_disk : Transaction.Disk;
  w_init_calls : list InitCall
}.

Definition set_packages (m : Manifest.t) (w : World) : World :=
  {| w_self := {| path := path (w_self w); name := name (w_self w);
                  apiurl := apiurl (w_self w); _packages := m |};
     w_fs := w_fs w; w_pkgs := w_pkgs w;
     w_stored_packages := w_stored_packages w;
     w_disk := w_disk w; w_init_calls := w_init_calls w |}.

Definition set_fs (f : FS) (w : World) : World :=
  {| w_self := w_self w; w_fs := f; w_pkgs := w_pkgs w;
     w_stored_packages := w_stored_packages w;
     w_disk := w_disk w; w_init_calls := w_init_calls w |}.

Definition at_path (p : string) (f : string -> bool) : string -> bool :=
  fun q => if String.eqb q p then true else f q.

(** A directory appears at [p]. *)
Definition fs_mkdir (p : string) (f : FS) : FS :=
  {| exists_ := at_path p (exists_ f); isdir := at_path p (isdir f);
     wc_is_package := wc_is_package f; wc_is_project := wc_is_project f |}.

(** [p] becomes a package working copy. *)
Definition fs_init_package (p : string) (f : FS) : FS :=
  {| exists_ := at_path p (exists_ f); isdir := at_path p (isdir f);
     wc_is_package := at_path p (wc_is_package f);
     wc_is_project := wc_is_project f |}.

(** Modelled from the spec: [wc_pkg_data_filename(path, pkg)] is the
    external store directory [<path>/.osc/data/<pkg>]. *)
Definition wc_pkg_data_filename (path pkg : string) : string :=
  os_path_join (os_path_join (os_path_join path ".osc") "data") pkg.

(** Modelled from the spec: [wc_pkg_data_mkdir(path, pkg)] creates the
    external store directory and returns its name. *)
Definition wc_pkg_data_mkdir (path pkg : string) : M World string :=
  let storedir := wc_pkg_data_filename path pkg in
  modify (fun w => set_fs (fs_mkdir storedir (w_fs w)) w) >> ret storedir.

(** Modelled from the spec: [Package.init] initialises a package working
    copy rooted at [path]; the call is recorded with its arguments. *)
Definition Package_init (path project name api_url external_store : string)
  : M World Package :=
  modify (fun w =>
    {| w_self := w_self w; w_fs := fs_init_package path (w_fs w);
       w_pkgs := w_pkgs w; w_stored_packages := w_stored_packages w;
       w_disk := w_disk w;
       w_init_calls :=
         w_init_calls w ++
         [{| init_path := path; init_project := project; init_name := name;
             init_api_url := api_url;
             init_external_store := external_store |}] |})
  >> ret {| pkg_path := path |}.

(** Modelled from the spec: [self._packages.write()] persists the
    manifest. *)
Definition packages_write : M World unit :=
  modify (fun w =>
    {| w_self := w_self w; w_fs := w_fs w; w_pkgs := w_pkgs w;
       w_stored_packages := _packages (w_self w);
       w_disk := w_disk w; w_init_calls := w_init_calls w |}).

(** [Project.add].  The hook [super(Project, self).add(pkg)] and the lock
    of [wc_lock] are outside the sources and change nothing modelled
    here. *)
Definition add (pkg : string) : M World unit :=
  self <~ gets w_self ;;
  fs <~ gets w_fs ;;
  if negb (String.eqb (_status self fs pkg) "?") then
    raise (ValueError ("package " ++ dq ++ pkg ++ dq ++ " is already tracked"))
  else
    let pkg_path := os_path_join (path self) pkg in
    if negb (isdir fs pkg_path) then
      raise (ValueError ("path " ++ dq ++ pkg_path ++ dq ++ " is no dir"))
    else if orb (wc_is_project fs pkg_path) (wc_is_package fs pkg_path) then
      raise (ValueError ("path " ++ dq ++ pkg_path ++ dq
                         ++ " is already an initializedworking copy"))
    else
      storedir <~ wc_pkg_data_mkdir (path self) pkg ;;
      Package_init pkg_path pkg (name self) (apiurl self) storedir >>
      modify (fun w => set_packages (Manifest.add pkg "A" (_packages (w_self w))) w) >>
      packages_write.

(** [Project.remove] *)
Definition remove (pkg : string) : M World unit :=
  self <~ gets w_self ;;
  fs <~ gets w_fs ;;
  let st := _status self fs pkg in
  if String.eqb st "?" then
    raise (ValueError ("package " ++ dq ++ pkg ++ dq
                       ++ " is not under version control"))
  else
    (if String.eqb st "A" then
       modify (fun w => set_packages (Manifest.remove pkg (_packages (w_self w))) w)
     else
       modify (fun w => set_packages (Manifest.set pkg "D" (_packages (w_self w))) w))
    >> packages_write.

(** The [STATE_PREPARE] branch of the loop body of [_perform_adds], up to
    the call of [Package.init]; [location] is [ustate.location]. *)
Definition _perform_adds_init (location package : string) : M World Package :=
  self <~ gets w_self ;;
  let tmp_dir := os_path_join location package in
  let storedir := wc_pkg_data_filename (path self) package in
  modify (fun w => set_fs (fs_mkdir storedir (w_fs w)) w) >>
  Package_init tmp_dir (name self) package (apiurl self) storedir.


Section Commit.
(** [self.is_commitable(rollback=True)] and [self._transaction_begin] of
    [WorkingCopy] (osc/wc/base.py is not part of the sources). *)
Variable is_commitable_rollback : M World bool.
Variable _transaction_begin : string -> PackageCommitInfo -> M World bool.



End Commit.

End WC.

(* ===================================================================== *)
(** ** RemoteFile (osc/remote.py)                                         *)
(* ===================================================================== *)

Module Remote.
Import Py.

(** One call made through the http request object: the attribute of the
    object that was called, the path and the keyword arguments. *)
Record HttpCall : Type := {
  http_attr : string;
  http_path : string;
  http_kwargs : list (string * string)
}.

(** The request object of [Osc.get_osc().get_reqobj()]: the method
    attributes it has, and the body of the response to a call. *)
Record RequestObj : Type := {
  has_attr : string -> bool;
  body : HttpCall -> string
}.

(** A [RemoteFile] object; [_fobj] holds the unread data of the response. *)
Record RemoteFile : Type := {
  path : string;
  stream_bufsize : Z;
  method : string;
  kwargs : list (string * string);
  _fobj : option string
}.

(** [RemoteFile.__init__] *)
Definition __init__ (path : string) (stream_bufsize : Z) (method : string)
  (kwargs : list (string * string)) : RemoteFile :=
  {| path := path; stream_bufsize := stream_bufsize; method := "GET";
     kwargs := kwargs; _fobj := None |}.

(** [_get_http_method]: the attribute [method.lower()] of the request
    object, ValueError when it has none. *)
Definition _get_http_method (request_obj : RequestObj) (method : string)
  : result string :=
  let meth := lower method in
  if has_attr request_obj meth then Ok meth
  else Raise (ValueError ("http request object doesn't support method: "
                          ++ method)).

(** The object together with the calls made so far. *)
Definition St : Type := (RemoteFile * list HttpCall)%type.

Definition set_fobj (data : string) (s : St) : St :=
  let '(self, calls) := s in
  ({| path := path self; stream_bufsize := stream_bufsize self;
      method := method self; kwargs := kwargs self; _fobj := Some data |},
   calls).

(** [RemoteFile._read] *)
Definition _read (request : RequestObj) : M St unit :=
  self <~ gets fst ;;
  http_method <~ lift (_get_http_method request (method self)) ;;
  let call := {| http_attr := http_method; http_path := path self;
                 http_kwargs := kwargs self |} in
  modify (fun s => set_fobj (body request call) (fst s, snd s ++ [call])).

(** [fobj.read(size)] of a file-like object: everything when [size] is
    negative, else at most [size] characters. *)
Definition fobj_read (size : Z) (data : string) : string * string :=
  if (size <? 0)%Z then (data, "")
  else
    let n := Z.to_nat size in
    (substring 0 n data, substring n (String.length data - n) data).

(** [RemoteFile.read] *)
Definition read (request : RequestObj) (size : Z) : M St string :=
  self <~ gets fst ;;
  (match _fobj self with
   | None => _read request
   | Some _ => ret tt
   end) >>
  self <~ gets fst ;;
  match _fobj self with
  | Some data =>
      let '(out, rest) := fobj_read size data in
      modify (set_fobj rest) >> ret out
  | None => raise (AttributeError "'NoneType' object has no attribute 'read'")
  end.

(** A client that reads again and again, with the given sizes, until a
    read raises. *)
Fixpoint reads (request : RequestObj) (sizes : list Z) : M St unit :=
  match sizes with
  | [] => ret tt
  | size :: rest => read request size >> reads request rest
  end.

End Remote.

(* ===================================================================== *)
(** ** Vocabulary of the properties                                       *)
(* ===================================================================== *)

Module Spec.
Import Py WC.

(** No name of [l1] is in [l2]. *)
Definition disjoint (l1 l2 : list string) : Prop :=
  forall x, In x l1 -> ~ In x l2.

(** No name is in two lists of [ls]. *)
Fixpoint pairwise_disjoint (ls : list (list string)) : Prop :=
  match ls with
  | [] => True
  | l :: rest => Forall (disjoint l) rest /\ pairwise_disjoint rest
  end.

Definition update_lists (info : PackageUpdateInfo) : list (list string) :=
  [candidates info; added info; deleted info; conflicted info].

Definition commit_lists (info : PackageCommitInfo) : list (list string) :=
  [c_unchanged info; c_added info; c_deleted info; c_modified info;
   c_conflicted info].

(** The five lists of a commit classification. *)
Inductive bucket : Type :=
| Unchanged
| Added
| Deleted
| Modified
| Conflicted.

Definition bucket_list (b : bucket) (info : PackageCommitInfo) : list string :=
  match b with
  | Unchanged => c_unchanged info
  | Added => c_added info
  | Deleted => c_deleted info
  | Modified => c_modified info
  | Conflicted => c_conflicted info
  end.

(** The list that the loop body of [_calculate_commitinfo] appends a
    package to. *)
Definition commit_bucket (self : Project) (fs : FS) (pkgs : Answers)
  (package : string) : bucket :=
  let st := _status self fs package in
  if String.eqb st "A" then Added
  else if String.eqb st "D" then Deleted
  else
    match WC.package self fs package with
    | None => Conflicted
    | Some p =>
        if andb (is_modified pkgs p) (is_commitable pkgs p) then Modified
        else if negb (is_commitable pkgs p) then Conflicted
        else Unchanged
    end.

End Spec.

(* ===================================================================== *)
(** ** Scenarios                                                          *)
(* ===================================================================== *)

Module Scenario.
Import Py WC.

(** The manifest of the fixture working copy [prj2] of test/wc. *)
Definition prj2 : Project :=
  {| path := "prj2"; name := "prj2"; apiurl := "http://localhost";
     _packages := [Manifest.Entry "foo" " "; Manifest.Entry "bar" "A";
                   Manifest.Entry "abc" "D"; Manifest.Entry "xxx" " ";
                   Manifest.Entry "del" "D"] |}.

(** The directory of [prj2]: [foo], [bar], [abc] and the untracked [asdf]
    are there, [xxx] and [del] are missing. *)
Record prj2_layout (fs : FS) : Prop := {
  foo_exists : exists_ fs "prj2/foo" = true;
  bar_exists : exists_ fs "prj2/bar" = true;
  abc_exists : exists_ fs "prj2/abc" = true;
  asdf_exists : exists_ fs "prj2/asdf" = true;
  xxx_missing : exists_ fs "prj2/xxx" = false;
  del_missing : exists_ fs "prj2/del" = false
}.

Definition prj2_dirs : list string :=
  ["prj2/foo"; "prj2/bar"; "prj2/abc"; "prj2/asdf"].

Definition prj2_fs : FS :=
  {| exists_ := fun p => contains p prj2_dirs;
     isdir := fun p => contains p prj2_dirs;
     wc_is_package := fun p => contains p ["prj2/foo"; "prj2/bar"; "prj2/abc"];
     wc_is_project := fun _ => false |}.

(** Every package working copy can be updated and committed, none is
    modified. *)
Definition clean : Answers :=
  {| is_updateable := fun _ => true;
     is_commitable := fun _ => true;
     is_modified := fun _ => false |}.

(** A working copy with the single package [foo], which cannot be
    updated. *)
Definition prj1 : Project :=
  {| path := "prj1"; name := "prj1"; apiurl := "http://localhost";
     _packages := [Manifest.Entry "foo" " "] |}.

Definition prj1_fs : FS :=
  {| exists_ := fun p => String.eqb p "prj1/foo";
     isdir := fun p => String.eqb p "prj1/foo";
     wc_is_package := fun p => String.eqb p "prj1/foo";
     wc_is_project := fun _ => false |}.

Definition stuck : Answers :=
  {| is_updateable := fun _ => false;
     is_commitable := fun _ => true;
     is_modified := fun _ => false |}.

Definition no_transaction : Transaction.Disk := fun _ => None.

(** A commit record of [prj2] in the given phase. *)
Definition commit_record (ph : Transaction.phase) : Transaction.data :=
  {| Transaction.name := "commit"; Transaction.state := ph;
     Transaction.lists := [("added", ["bar"])];
     Transaction.entrystates := [] |}.

Definition pending_commit (ph : Transaction.phase) : Transaction.Disk :=
  fun p => if String.eqb p "prj2" then Some (commit_record ph) else None.

Definition update_record (ph : Transaction.phase) : Transaction.data :=
  {| Transaction.name := "update"; Transaction.state := ph;
     Transaction.lists := [("added", ["osc"])];
     Transaction.entrystates := [] |}.

Definition pending_update (ph : Transaction.phase) : Transaction.Disk :=
  fun p => if String.eqb p "prj2" then Some (update_record ph) else None.

(** The working copy [prj2] as a store. *)
Definition prj2_world (d : Transaction.Disk) : World :=
  {| w_self := prj2; w_fs := prj2_fs; w_pkgs := clean;
     w_stored_packages := _packages prj2; w_disk := d;
     w_init_calls := [] |}.

(** A request object with a [get] method that answers every call with the
    same body. *)
Definition get_only : Remote.RequestObj :=
  {| Remote.has_attr := fun a => String.eqb a "get";
     Remote.body := fun _ => "<directory/>" |}.

End Scenario.

(* ===================================================================== *)
(** ** More vocabulary                                                   *)
(* ===================================================================== *)

Module Vocabulary.
Import Py WC.

Definition bucket_eqb (a b : Spec.bucket) : bool :=
  match a, b with
  | Spec.Unchanged, Spec.Unchanged => true
  | Spec.Added, Spec.Added => true
  | Spec.Deleted, Spec.Deleted => true
  | Spec.Modified, Spec.Modified => true
  | Spec.Conflicted, Spec.Conflicted => true
  | _, _ => false
  end.

(** The names that [_calculate_commitinfo] classifies: the selection, or
    every tracked package when there is none. *)
Definition chosen (self : Project) (selection : list string) : list string :=
  match selection with
  | [] => packages self
  | _ :: _ => selection
  end.

End Vocabulary.

(* ===================================================================== *)
(** ** RemoteFile as an iterator (osc/remote.py)                          *)
(* ===================================================================== *)

Module RemoteIter.
Import Py Remote.

(** The data of the response that no read has returned yet. *)
Definition unread (s : St) : string :=
  match _fobj (fst s) with
  | Some data => data
  | None => ""
  end.

(** The [while data:] loop of [RemoteFile.__iter__], run to its end: the
    chunks it yields.  [fuel] bounds the number of rounds. *)
Fixpoint iter_loop (fuel : nat) (request : RequestObj) (rsize : Z)
  (data : string) (size : Z) : M St (list string) :=
  match fuel with
  | O => ret []
  | S fuel' =>
      if String.eqb data "" then ret []
      else
        let size' := (size - Z.of_nat (String.length data))%Z in
        if (size' =? 0)%Z then ret [data]
        else
          data' <~ read request rsize ;;
          rest <~ iter_loop fuel' request rsize data' size' ;;
          ret (data :: rest)
  end.

(** [RemoteFile.__iter__]: every round after the first consumes unread
    data, so two rounds more than there is unread data are enough. *)
Definition __iter__ (request : RequestObj) (size : Z) : M St (list string) :=
  self <~ gets fst ;;
  let rsize := stream_bufsize self in
  let rsize := if andb (0 <=? size)%Z (size <? rsize)%Z then size else rsize in
  data <~ read request rsize ;;
  left <~ gets (fun s => String.length (unread s)) ;;
  iter_loop (S (S left)) request rsize data size.

(** [RemoteFile._write_to] on a file-like object whose [write] appends:
    [dest] is what the object holds, the result what it holds afterwards. *)
Definition _write_to (request : RequestObj) (dest : string) (size : Z)
  : M St string :=
  chunks <~ __iter__ request size ;;
  ret (fold_left (fun written data => String.append written data) chunks dest).

(** A client that reads again and again and keeps what the reads
    return. *)
Fixpoint read_all (request : RequestObj) (sizes : list Z)
  : M St (list string) :=
  match sizes with
  | [] => ret []
  | size :: rest =>
      data <~ read request size ;;
      more <~ read_all request rest ;;
      ret (data :: more)
  end.

End RemoteIter.

(* ===================================================================== *)
(** ** RWRemoteFile (osc/remote.py)                                       *)
(* ===================================================================== *)

Module RW.
Import Py Remote.

(** A [cStringIO.StringIO] object: what it holds and where its position
    is. *)
Record StringIO : Type := { getvalue : string; tell : nat }.

(** [StringIO.write(data)]: the data replaces what stands at the
    position, runs past the end if it has to, and the position moves
    behind it.  (The position is never behind the end here.) *)
Definition sio_write (data : string) (io : StringIO) : StringIO :=
  let p := tell io in
  let v := getvalue io in
  let n := String.length data in
  {| getvalue :=
       substring 0 p v ++ data
       ++ substring (p + n) (String.length v - (p + n)) v;
     tell := p + n |}.

(** [StringIO.seek(0, os.SEEK_SET)] *)
Definition sio_rewind (io : StringIO) : StringIO :=
  {| getvalue := getvalue io; tell := 0 |}.

(** An [RWRemoteFile] object: the attributes of its [RemoteFile] part and
    its own. *)
Record RWRemoteFile : Type := {
  file : RemoteFile;
  append : bool;
  wb_method : string;
  wb_path : string;
  _schema : string;
  _sio : option StringIO
}.

(** [RWRemoteFile.__init__]; [stream_bufsize], [method] and [kwargs] are
    the keyword arguments that it hands on to [RemoteFile.__init__]. *)
Definition __init__ (path : string) (append : bool)
  (wb_method wb_path schema : string) (stream_bufsize : Z) (method : string)
  (kwargs : list (string * string)) : RWRemoteFile :=
  {| file := Remote.__init__ path stream_bufsize method kwargs;
     append := append; wb_method := wb_method; wb_path := wb_path;
     _schema := schema; _sio := None |}.

(** The object together with the calls made so far. *)
Definition St : Type := (RWRemoteFile * list HttpCall)%type.

Definition set_file (f : RemoteFile) (self : RWRemoteFile) : RWRemoteFile :=
  {| file := f; append := append self; wb_method := wb_method self;
     wb_path := wb_path self; _schema := _schema self; _sio := _sio self |}.

Definition set_sio (io : StringIO) (s : St) : St :=
  ({| file := file (fst s); append := append (fst s);
      wb_method := wb_method (fst s); wb_path := wb_path (fst s);
      _schema := _schema (fst s); _sio := Some io |},
   snd s).

(** [super(RWRemoteFile, self).read(size)] *)
Definition super_read (request : RequestObj) (size : Z) : M St string :=
  fun s =>
    let '(r, (f, calls)) := Remote.read request size (file (fst s), snd s) in
    (r, (set_file f (fst s), calls)).

(** [RWRemoteFile._init_sio] *)
Definition _init_sio (request : RequestObj) (read_required : bool) (size : Z)
  : M St unit :=
  self <~ gets fst ;;
  data <~ (if orb read_required (append self) then super_read request size
           else ret "") ;;
  modify (set_sio (sio_rewind
                     (sio_write data {| getvalue := ""; tell := 0 |}))).

(** [RWRemoteFile.read]: the position and the value of [_sio] are read,
    and the data comes from a second object made of that value. *)
Definition read (request : RequestObj) (size : Z) : M St string :=
  self <~ gets fst ;;
  (match _sio self with
   | None => _init_sio request true size
   | Some _ => ret tt
   end) >>
  self <~ gets fst ;;
  match _sio self with
  | Some io =>
      let pos := tell io in
      let buf := getvalue io in
      let tmp := substring pos (String.length buf - pos) buf in
      ret (fst (fobj_read size tmp))
  | None =>
      raise (AttributeError "'NoneType' object has no attribute 'tell'")
  end.

(** [RWRemoteFile.__getattr__]: the [StringIO] object whose attribute
    [name] is returned. *)
Definition __getattr__ (request : RequestObj) (name : string)
  : M St StringIO :=
  self <~ gets fst ;;
  (match _sio self with
   | None => _init_sio request (negb (String.eqb name "write")) (-1)
   | Some _ => ret tt
   end) >>
  self <~ gets fst ;;
  match _sio self with
  | Some io => ret io
  | None =>
      raise (AttributeError "'NoneType' object has no attribute")
  end.

(** [f.write(data)]: [write] is no attribute of the object itself, so it
    is the [write] of [_sio] that [__getattr__] returns. *)
Definition write (request : RequestObj) (data : string) : M St unit :=
  io <~ __getattr__ request "write" ;;
  modify (set_sio (sio_write data io)).

(** How [close] ends: it returns, or raises one of the exceptions above,
    or TypeError. *)
Inductive closed : Type :=
| Returned
| Raised (e : exn)
| TypeError (msg : string).

Fixpoint has_key (k : string) (kwargs : list (string * string)) : bool :=
  match kwargs with
  | [] => false
  | (k', _) :: rest => if String.eqb k k' then true else has_key k rest
  end.

(** [RWRemoteFile.close]: the response of the write back is dropped. *)
Definition close (request : RequestObj) (kwargs : list (string * string))
  (s : St) : closed * St :=
  let self := fst s in
  match _get_http_method request (wb_method self) with
  | Raise e => (Raised e, s)
  | Ok http_method =>
      match _sio self with
      | None =>
          (Raised (AttributeError
                     "'NoneType' object has no attribute 'getvalue'"), s)
      | Some io =>
          let data := getvalue io in
          let kwargs :=
            if has_key "schema" kwargs then kwargs
            else kwargs ++ [("schema", _schema self)] in
          if has_key "data" kwargs then
            (TypeError "got multiple values for keyword argument 'data'", s)
          else
            (Returned,
             (self,
              snd s ++ [{| http_attr := http_method;
                           http_path := Remote.path (file self);
                           http_kwargs := ("data", data) :: kwargs |}]))
      end
  end.

End RW.

(* ===================================================================== *)
(** ** More scenarios                                                     *)
(* ===================================================================== *)

Module Cases.
Import Py.

(** A request object with [get] and [put] that answers every call with
    the same body. *)
Definition server : Remote.RequestObj :=
  {| Remote.has_attr := fun a => orb (String.eqb a "get") (String.eqb a "put");
     Remote.body := fun _ => "hello world" |}.

End Cases.

(* ===================================================================== *)
(** ** The drivers of update and commit (osc/wc/project.py)               *)
(* ===================================================================== *)

(** The drivers call code that is not part of the sources: the operating
    system, the package working copy, the notifier and the state object of
    the transaction (osc/wc/util.py).  A run records these calls in the
    order in which they return; whether a call raises, and what the file
    system answers after the calls so far, is given from outside.

    Modelled from the spec: [ustate.info] builds its lists from the
    transaction record each time it is read, so a loop runs over the list
    it got before its first round; [ustate.state] holds what was assigned
    to it last, and [processed] of the base class does not assign it.
    Questions ([os.path.isdir], [os.path.exists], [os.listdir],
    [pkg.files()], [self.package]) are answered and do not raise. *)

Module Engine.
Import Py WC Transaction.

(** What a driver can run into: an exception of the kinds above, or one
    that the operating system, the package black box or the network
    raises. *)
Inductive failure : Type :=
| Known (e : exn)
| Foreign (what : string).

(** The calls that the drivers make to code outside of project.py, in the
    order in which they return. *)
Inductive event : Type :=
| Mkdir (path : string)
| Init (call : InitCall)
| PkgUpdate (pkg_path : string)
| PkgCommit (pkg_path : string)
| PkgRemove (pkg_path filename : string)
| Unlink (path : string)
| Symlink (source link_name : string)
| Rename (source dest : string)
| Rmdir (path : string)
| Rmtree (path : string)
| Processed (package : string) (new_state : option string)
| NotifyBegin (kind : string)
| NotifyProcessed (filename : string)
| NotifyFinished (kind : string) (aborted : bool)
| RemoteStore (project package : string)
| Merge.

(** The state object of the transaction as far as project.py sets it, and
    the calls that have returned. *)
Record Run : Type := { state : phase; trace : list event }.

(** Everything outside of project.py: what the file system, the package
    black box answer after the calls so far, which call raises, and the
    functions and constants of other modules. *)
Record Env : Type := {
  fs_after : list event -> FS;
  islink_after : list event -> string -> bool;
  listdir_after : list event -> string -> list string;
  files_after : list event -> string -> list string;
  fails : list event -> event -> option failure;
  relpath : string -> string -> string;
  _storedir : string -> string;
  _STORE : string
}.

Inductive outcome (A : Type) : Type :=
| Done (a : A)
| Failed (f : failure).
Arguments Done {A} a.
Arguments Failed {A} f.

Definition D (A : Type) : Type := Run -> outcome A * Run.

Definition dret {A} (a : A) : D A := fun r => (Done a, r).

Definition dfail {A} (f : failure) : D A := fun r => (Failed f, r).

Definition dbind {A B} (m : D A) (k : A -> D B) : D B :=
  fun r =>
    match m r with
    | (Done a, r') => k a r'
    | (Failed f, r') => (Failed f, r')
    end.

Notation "x <<- c ;; k" := (dbind c (fun x => k))
  (at level 61, c at next level, right associativity).
Notation "c >>> k" := (dbind c (fun _ => k))
  (at level 61, right associativity).

Definition get_state : D phase := fun r => (Done (state r), r).

Definition set_state (p : phase) : D unit :=
  fun r => (Done tt, {| state := p; trace := trace r |}).

(** [for x in l: body(x)] *)
Fixpoint for_each {A} (l : list A) (body : A -> D unit) : D unit :=
  match l with
  | [] => dret tt
  | x :: rest => body x >>> for_each rest body
  end.

Section Drivers.
Variable env : Env.
Variable self : Project.

(** A call to the outside: it raises, or it returns and is recorded. *)
Definition call (e : event) : D unit :=
  fun r =>
    match fails env (trace r) e with
    | Some f => (Failed f, r)
    | None => (Done tt, {| state := state r; trace := trace r ++ [e] |})
    end.

(** A question to the outside. *)
Definition ask {A} (q : list event -> A) : D A :=
  fun r => (Done (q (trace r)), r).

(** [ProjectUpdateState.processed] *)
Definition update_processed (package : string) (new_state : option string)
  : D unit :=
  set_state STATE_PREPARE >>> call (Processed package new_state).

(** [ProjectCommitState.processed] *)
Definition commit_processed (package : string) (new_state : option string)
  : D unit :=
  set_state STATE_TRANSFER >>> call (Processed package new_state).

(** The call of [Package.init] in [_perform_adds]. *)
Definition init_call (location package : string) : InitCall :=
  {| init_path := os_path_join location package;
     init_project := WC.name self;
     init_name := package;
     init_api_url := apiurl self;
     init_external_store := wc_pkg_data_filename (WC.path self) package |}.

(** [Project._perform_adds]; [location] is [ustate.location] and [added]
    the list [ustate.info.added]. *)
Definition _perform_adds (location : string) (added : list string) : D unit :=
  for_each added (fun package =>
    let tmp_dir := os_path_join location package in
    let storedir := wc_pkg_data_filename (WC.path self) package in
    st <<- get_state ;;
    (if phase_eqb st STATE_PREPARE then
       call (Mkdir storedir) >>>
       call (Init (init_call location package)) >>>
       call (PkgUpdate tmp_dir) >>>
       set_state STATE_UPDATING
     else dret tt) >>>
    let new_dir := os_path_join (WC.path self) package in
    let path' := relpath env storedir new_dir in
    let old_storelink := _storedir env tmp_dir in
    is_dir <<- ask (fun t => isdir (fs_after env t) tmp_dir) ;;
    (if is_dir then
       linked <<- ask (fun t => exists_ (fs_after env t) old_storelink) ;;
       (if linked then call (Unlink old_storelink) else dret tt) >>>
       call (Symlink path' old_storelink) >>>
       call (Rename tmp_dir new_dir)
     else dret tt) >>>
    update_processed package (Some " ")).

(** [Project._remove_wc_dir] *)
Definition _remove_wc_dir (package : string) (notify : bool) : D unit :=
  pkg <<- ask (fun t => WC.package self (fs_after env t) package) ;;
  (match pkg with
   | Some p =>
       files <<- ask (fun t => files_after env t (pkg_path p)) ;;
       for_each files (fun filename =>
         call (PkgRemove (pkg_path p) filename) >>>
         (if notify then call (NotifyProcessed filename) else dret tt)) >>>
       let store := os_path_join (pkg_path p) (_STORE env) in
       present <<- ask (fun t =>
                     andb (exists_ (fs_after env t) store)
                          (islink_after env t store)) ;;
       (if present then call (Unlink store) else dret tt) >>>
       filenames <<- ask (fun t => listdir_after env t (pkg_path p)) ;;
       match filenames with
       | [] => call (Rmdir (pkg_path p))
       | _ :: _ => dret tt
       end
   | None => dret tt
   end) >>>
  let store := wc_pkg_data_filename (WC.path self) package in
  present <<- ask (fun t => exists_ (fs_after env t) store) ;;
  if present then call (Rmtree store) else dret tt.

(** [Project._perform_deletes] *)
Definition _perform_deletes (deleted : list string) : D unit :=
  for_each deleted (fun package =>
    set_state STATE_UPDATING >>>
    call (NotifyBegin "update") >>>
    _remove_wc_dir package true >>>
    update_processed package None >>>
    call (NotifyFinished "update" false)).

(** [Project._perform_candidates] *)
Definition _perform_candidates (candidates : list string) : D unit :=
  for_each candidates (fun package =>
    pkg <<- ask (fun t => WC.package self (fs_after env t) package) ;;
    match pkg with
    | None =>
        dfail (Known (ValueError ("package " ++ dq ++ package ++ dq
                                  ++ " is an invalid candidate.")))
    | Some p =>
        call (PkgUpdate (pkg_path p)) >>>
        update_processed package (Some " ")
    end).

(** [Project._update]; the three lists are what [ustate.info] holds when
    the phase that reads it starts. *)
Definition _update (location : string) (added deleted candidates : list string)
  : D unit :=
  _perform_adds location added >>>
  _perform_deletes deleted >>>
  _perform_candidates candidates >>>
  call Merge.

(** [RemotePackage.exists] and [RemotePackage.delete]: the class
    [RemotePackage] of osc/remote.py and its base [RemoteModel] define
    [__init__], [find], [store], [tostring], [validate] and the attribute
    hooks of instances; looking up another name on the class fails. *)
Definition RemotePackage_getattr {A} (attr : string) : D A :=
  dfail (Known (AttributeError
                  ("type object 'RemotePackage' has no attribute '"
                   ++ attr ++ "'"))).

(** [pkg.commit()] on what [self.package(package)] returns. *)
Definition package_commit (package : string) : D unit :=
  pkg <<- ask (fun t => WC.package self (fs_after env t) package) ;;
  match pkg with
  | Some p => call (PkgCommit (pkg_path p))
  | None =>
      dfail (Known (AttributeError
                      "'NoneType' object has no attribute 'commit'"))
  end.

(** [Project._commit_adds] *)
Definition _commit_adds (added : list string) : D unit :=
  for_each added (fun package =>
    st <<- get_state ;;
    (if phase_eqb st STATE_TRANSFER then
       found <<- RemotePackage_getattr "exists" ;;
       (if negb found then call (RemoteStore (WC.name self) package)
        else dret tt) >>>
       package_commit package >>>
       set_state STATE_COMMITTING
     else dret tt) >>>
    commit_processed package (Some " ")).

(** [Project._commit_deletes] *)
Definition _commit_deletes (deleted : list string) : D unit :=
  for_each deleted (fun package =>
    st <<- get_state ;;
    (if phase_eqb st STATE_TRANSFER then
       (RemotePackage_getattr "delete" : D unit) >>>
       set_state STATE_COMMITTING
     else dret tt) >>>
    _remove_wc_dir package true >>>
    commit_processed package None).

(** [Project._commit_modified] *)
Definition _commit_modified (modified : list string) : D unit :=
  for_each modified (fun package =>
    st <<- get_state ;;
    (if phase_eqb st STATE_TRANSFER then
       package_commit package >>>
       set_state STATE_COMMITTING
     else dret tt) >>>
    commit_processed package (Some " ")).

(** [Project._commit]; the three lists are what [cstate.info] holds when
    the phase that reads it starts. *)
Definition _commit (added deleted modified : list string) : D unit :=
  _commit_adds added >>>
  _commit_deletes deleted >>>
  _commit_modified modified >>>
  call Merge.

End Drivers.

(** The packages of the [Processed] calls of a trace, with their new
    states. *)
Fixpoint processed_of (t : list event) : list (string * option string) :=
  match t with
  | [] => []
  | Processed p s :: rest => (p, s) :: processed_of rest
  | _ :: rest => processed_of rest
  end.

(** The [Package.init] calls of a trace. *)
Fixpoint inits_of (t : list event) : list InitCall :=
  match t with
  | [] => []
  | Init c :: rest => c :: inits_of rest
  | _ :: rest => inits_of rest
  end.

(** The package working copies that a trace has committed. *)
Fixpoint commits_of (t : list event) : list string :=
  match t with
  | [] => []
  | PkgCommit p :: rest => p :: commits_of rest
  | _ :: rest => commits_of rest
  end.

(** An outside in which no call raises. *)
Definition never_fails (env : Env) : Prop :=
  forall t e, fails env t e = None.

(** [l] is a beginning of [whole]. *)
Definition prefix {A} (l whole : list A) : Prop :=
  exists rest, whole = l ++ rest.

(** A computation whose [processed] calls are [expected] when it returns
    and a beginning of [expected] when it raises. *)
Definition steps {A} (c : D A) (expected : list (string * option string))
  : Prop :=
  forall r out r',
    c r = (out, r') ->
    exists new,
      trace r' = trace r ++ new /\
      match out with
      | Done _ => processed_of new = expected
      | Failed _ => prefix (processed_of new) expected
      end.

(** A computation all of whose calls satisfy [ok]. *)
Definition emits {A} (ok : event -> Prop) (c : D A) : Prop :=
  forall r out r',
    c r = (out, r') ->
    exists new, trace r' = trace r ++ new /\ Forall ok new.

(** A computation that returns when no call raises. *)
Definition returns {A} (env : Env) (c : D A) : Prop :=
  never_fails env -> forall r, exists a r', c r = (Done a, r').

End Engine.

(* ===================================================================== *)
(** ** Two outsides for the drivers                                       *)
(* ===================================================================== *)

Module Runs.
Import Py WC.

(** The fixture prj2 with an outside in which every call returns and
    nothing changes on disk. *)
Definition calm : Engine.Env :=
  {| Engine.fs_after := fun _ => Scenario.prj2_fs;
     Engine.islink_after := fun _ _ => true;
     Engine.listdir_after := fun _ _ => [];
     Engine.files_after := fun _ _ => ["a.spec"];
     Engine.fails := fun _ _ => None;
     Engine.relpath := fun p _ => p;
     Engine._storedir := fun p => os_path_join p ".osc";
     Engine._STORE := ".osc" |}.

(** The same outside, but the update of a package working copy raises. *)
Definition offline : Engine.Env :=
  {| Engine.fs_after := fun _ => Scenario.prj2_fs;
     Engine.islink_after := fun _ _ => true;
     Engine.listdir_after := fun _ _ => [];
     Engine.files_after := fun _ _ => ["a.spec"];
     Engine.fails := fun _ e =>
       match e with
       | Engine.PkgUpdate _ => Some (Engine.Foreign "URLError")
       | _ => None
       end;
     Engine.relpath := fun p _ => p;
     Engine._storedir := fun p => os_path_join p ".osc";
     Engine._STORE := ".osc" |}.

(** A transaction object in a given state, before any call. *)
Definition fresh (s : Transaction.phase) : Engine.Run :=
  {| Engine.state := s; Engine.trace := [] |}.

End Runs.

(* ===================================================================== *)
(** ** Resuming a transaction (osc/wc/project.py)                         *)
(* ===================================================================== *)

Module Resume.
Import Py WC.

(** [getattr(info, listname)] on a [PackageUpdateInfo]. *)
Definition uinfo_getattr (info : PackageUpdateInfo) (listname : string)
  : result (list string) :=
  if String.eqb listname "candidates" then Ok (candidates info)
  else if String.eqb listname "added" then Ok (added info)
  else if String.eqb listname "deleted" then Ok (deleted info)
  else if String.eqb listname "conflicted" then Ok (conflicted info)
  else Raise (AttributeError
                ("'PackageUpdateInfo' object has no attribute '"
                 ++ listname ++ "'")%string).

(** [getattr(info, listname)] on a [PackageCommitInfo]. *)
Definition cinfo_getattr (info : PackageCommitInfo) (listname : string)
  : result (list string) :=
  if String.eqb listname "unchanged" then Ok (c_unchanged info)
  else if String.eqb listname "added" then Ok (c_added info)
  else if String.eqb listname "deleted" then Ok (c_deleted info)
  else if String.eqb listname "modified" then Ok (c_modified info)
  else if String.eqb listname "conflicted" then Ok (c_conflicted info)
  else Raise (AttributeError
                ("'PackageCommitInfo' object has no attribute '"
                 ++ listname ++ "'")%string).

(** [Project._clear_info]: [getattr] looks a list up in [state.info]; the
    result is the entry that the method passes to [state.clear_info]. *)
Fixpoint _clear_info (getattr : string -> result (list string))
  (listnames : list string) : result string :=
  match listnames with
  | [] => Ok ""
  | listname :: rest =>
      l <- getattr listname ;;
      match l with
      | entry :: _ => Ok entry
      | [] => _clear_info getattr rest
      end
  end.

(** [Project._clear_uinfo] *)
Definition _clear_uinfo (info : PackageUpdateInfo) : result string :=
  _clear_info (uinfo_getattr info)
    ["candidates"; "added"; "deleted"; "conflicted"].

(** [Project._clear_cinfo] *)
Definition _clear_cinfo (info : PackageCommitInfo) : result string :=
  _clear_info (cinfo_getattr info)
    ["unchanged"; "added"; "deleted"; "modified"; "conflicted"].

End Resume.

(* ===================================================================== *)
(** ** Build results (osc/build.py)                                       *)
(* ===================================================================== *)

Module Build.
Import Py Remote.

(** An element of an lxml tree: its tag, its attributes in document order
    and its children. *)
#[warnings="-register-all"]
Inductive Element : Type :=
| Node (tag : string) (attrib : list (string * string))
       (children : list Element).

Definition tag (e : Element) : string :=
  let '(Node t _ _) := e in t.

Definition attrib (e : Element) : list (string * string) :=
  let '(Node _ a _) := e in a.

Definition children (e : Element) : list Element :=
  let '(Node _ _ c) := e in c.

Fixpoint attr_get (key : string) (a : list (string * string))
  : option string :=
  match a with
  | [] => None
  | (k, v) :: rest => if String.eqb key k then Some v else attr_get key rest
  end.

Fixpoint attr_set (key value : string) (a : list (string * string))
  : list (string * string) :=
  match a with
  | [] => [(key, value)]
  | (k, v) :: rest =>
      if String.eqb key k then (k, value) :: rest
      else (k, v) :: attr_set key value rest
  end.

(** [element.get(key)]: the value of the attribute, or None. *)
Definition get (e : Element) (key : string) : option string :=
  attr_get key (attrib e).

(** [element.set(key, value)] *)
Definition set (key value : string) (e : Element) : Element :=
  let '(Node t a c) := e in Node t (attr_set key value a) c.

(** ['%s' % value] for a string or None. *)
Definition fmt (value : option string) : string :=
  match value with
  | Some s => s
  | None => "None"
  end.

(** Truth of a string. *)
Definition nonempty (s : string) : bool := negb (String.eqb s "").


(** What the functions of build.py run into: an exception of the kinds
    above, or the error of the XML parser. *)
Inductive failure : Type :=
| Python (e : exn)
| XMLSyntaxError.

Inductive answer (A : Type) : Type :=
| Value (a : A)
| Failure (f : failure).
Arguments Value {A} a.
Arguments Failure {A} f.

Fixpoint has_key {V} (k : string) (kwargs : list (string * V)) : bool :=
  match kwargs with
  | [] => false
  | (k', _) :: rest => if String.eqb k k' then true else has_key k rest
  end.



(** [Binary.file], the method of the elements with tag [binary];
    [parent] is [self.getparent()], and [stream_bufsize], [method] and
    [kwargs] are the keyword arguments that go on to
    [RemoteFile.__init__]. *)
Definition file (parent : option Element) (self : Element)
  (stream_bufsize : Z) (method : string) (kwargs : list (string * string))
  : result RemoteFile :=
  match parent with
  | None => Raise (AttributeError "'NoneType' object has no attribute 'get'")
  | Some parent =>
      let path := ("/build/" ++ fmt (get parent "project")
                   ++ "/" ++ fmt (get parent "repository")
                   ++ "/" ++ fmt (get parent "arch")
                   ++ "/" ++ fmt (get parent "package")
                   ++ "/" ++ fmt (get self "filename"))%string in
      Ok (Remote.__init__ path stream_bufsize method kwargs)
  end.

(** A [BuildResult] object. *)
Record BuildResult : Type := {
  project : string;
  package : string;
  repository : string;
  arch : string
}.



Section Prepare.
(** The values of attributes and keyword arguments, the truth of a value,
    and what [getattr(self, name)] finds on the object. *)
Variable value : Type.
Variable truth : value -> bool.
Variable attr : string -> option value.

(** [getattr(self, i, '')] taken as a condition. *)
Definition attr_true (i : string) : bool :=
  match attr i with
  | Some v => truth v
  | None => false
  end.

(** [BuildResult._prepare_kwargs]: the result and the dict [kwargs] as the
    method leaves it. *)
Fixpoint _prepare_kwargs (kwargs : list (string * value))
  (required : list string) : result unit * list (string * value) :=
  match required with
  | [] => (Ok tt, kwargs)
  | i :: rest =>
      if andb (negb (has_key i kwargs)) (attr_true i) then
        match attr i with
        | Some v => _prepare_kwargs (kwargs ++ [(i, v)])%list rest
        | None =>
            (Raise (AttributeError
                      ("'BuildResult' object has no attribute '" ++ i
                       ++ "'")%string), kwargs)
        end
      else (Raise (ValueError ("missing parameter: " ++ i)%string), kwargs)
  end.

End Prepare.

End Build.

(** A build result and a server that answers with a list of two
    binaries, one of them without a filename. *)
Module BuildCases.
Import Py.



Definition result : Build.BuildResult :=
  {| Build.project := "openSUSE:Tools"; Build.package := "";
     Build.repository := "openSUSE_Factory"; Build.arch := "x86_64" |}.


End BuildCases.

(* ===================================================================== *)
(** ** Remote models (osc/remote.py)                                      *)
(* ===================================================================== *)

Module Models.
Import Py Remote.

(** A [RemoteModel] object: the private attributes it keeps in its
    [__dict__]; every other attribute is one of [_xml]. *)
Record RemoteModel : Type := {
  _schema : string;
  _store_schema : string;
  _xml : Build.Element
}.

(** [s.endswith(suffix)] *)
Definition endswith (s suffix : string) : bool :=
  let n := String.length s in
  let m := String.length suffix in
  if Nat.leb m n then String.eqb (substring (n - m) m s) suffix else false.

(** What the methods run into: an exception of the kinds above, or
    [etree.DocumentInvalid]. *)
Inductive failure : Type :=
| Python (e : exn)
| DocumentInvalid.

Inductive answer (A : Type) : Type :=
| Value (a : A)
| Failure (f : failure).
Arguments Value {A} a.
Arguments Failure {A} f.

Section Outside.
(** The request object that [Osc.get_osc().get_reqobj()] returns,
    [etree.tostring] after the clean up of [tostring], and whether a
    document is valid for the schema in a file. *)
Variable request : RequestObj.
Variable tostring : Build.Element -> string.
Variable valid : string -> Build.Element -> bool.

(** [RemoteModel.validate] *)
Definition validate (self : RemoteModel) : answer bool :=
  if negb (Build.nonempty (_schema self)) then Value false
  else if orb (endswith (_schema self) ".rng")
              (endswith (_schema self) ".xsd") then
    if valid (_schema self) (_xml self) then Value true
    else Failure DocumentInvalid
  else Failure (Python (ValueError "unsupported schema file")).

(** [RemoteModel.store]: what the http method returns, and the calls made
    through the request object. *)
Definition store (self : RemoteModel) (path method : string)
  (kwargs : list (string * string)) : answer string * list HttpCall :=
  match validate self with
  | Failure f => (Failure f, [])
  | Value _ =>
      match _get_http_method request method with
      | Raise e => (Failure (Python e), [])
      | Ok http_method =>
          let kwargs :=
            if negb (Build.has_key "data" kwargs)
            then (kwargs ++ [("data", tostring (_xml self))])%list
            else kwargs in
          let kwargs :=
            if negb (Build.has_key "schema" kwargs)
            then (kwargs ++ [("schema", _store_schema self)])%list
            else kwargs in
          let call := {| http_attr := http_method; http_path := path;
                         http_kwargs := kwargs |} in
          (Value (body request call), [call])
      end
  end.



End Outside.

End Models.

(* ===================================================================== *)
(** ** Writing a remote file to a file name (osc/remote.py)               *)
(* ===================================================================== *)

Module WriteTo.
Import Py Remote.

(** What the operating system answers: [os.path.exists],
    [os.access(_, os.W_OK)], [os.path.isfile], [os.path.dirname], and the
    name of the file that [NamedTemporaryFile(dir=...)] creates, None
    when it raises. *)
Record OS : Type := {
  exists_ : string -> bool;
  writable : string -> bool;
  isfile : string -> bool;
  dirname : string -> string;
  mktemp : string -> option string
}.

(** What happens to files. *)
Inductive action : Type :=
| Created (name : string)
| Wrote (name data : string)
| Removed (name : string)
| Renamed (source dest : string).

(** The values of the local variable [tmp_filename]: a string or a file
    object (of the file with that name). *)
Inductive pyval : Type :=
| PStr (s : string)
| PFile (name : string).

Definition truth (v : pyval) : bool :=
  match v with
  | PStr s => Build.nonempty s
  | PFile _ => true
  end.

Inductive err : Type :=
| Python (e : exn)
| TypeError (msg : string)
| OSError.

(** The RemoteFile object with the calls made, the file actions, and
    [tmp_filename]. *)
Record Local : Type := {
  obj : St;
  actions : list action;
  tmp_filename : pyval
}.

Definition W (A : Type) : Type := Local -> (A + err) * Local.

Definition wret {A} (a : A) : W A := fun l => (inl a, l).

Definition wraise {A} (e : err) : W A := fun l => (inr e, l).

Definition wbind {A B} (m : W A) (k : A -> W B) : W B :=
  fun l =>
    match m l with
    | (inl a, l') => k a l'
    | (inr e, l') => (inr e, l')
    end.

Notation "x <-- c ;; k" := (wbind c (fun x => k))
  (at level 61, c at next level, right associativity).
Notation "c >>- k" := (wbind c (fun _ => k))
  (at level 61, right associativity).

(** [try: body finally: final]: an exception of [final] replaces the one
    of [body]. *)
Definition try_finally (body final : W unit) : W unit :=
  fun l =>
    match body l with
    | (inl _, l1) => final l1
    | (inr e, l1) =>
        match final l1 with
        | (inl _, l2) => (inr e, l2)
        | (inr e', l2) => (inr e', l2)
        end
    end.

Definition act (a : action) : W unit :=
  fun l => (inl tt, {| obj := obj l; actions := actions l ++ [a];
                       tmp_filename := tmp_filename l |}).

Definition set_tmp (v : pyval) : W unit :=
  fun l => (inl tt, {| obj := obj l; actions := actions l;
                       tmp_filename := v |}).

Definition get_tmp : W pyval := fun l => (inl (tmp_filename l), l).

(** What [os.rename], [os.path.isfile] and [os.unlink] say to a file
    object in the place of a name. *)
Definition file_found : string :=
  "coercing to Unicode: need string or buffer, file found".

(** ['%s' % dir]: [dir] is the builtin function here. *)
Definition builtin_dir : string := "<built-in function dir>".

Section Outside.
Variable os : OS.
Variable request : RequestObj.

Definition os_rename (source : pyval) (dest : string) : W unit :=
  match source with
  | PStr s => act (Renamed s dest)
  | PFile _ => wraise (TypeError file_found)
  end.

Definition os_path_isfile (p : pyval) : W bool :=
  match p with
  | PStr s => wret (isfile os s)
  | PFile _ => wraise (TypeError file_found)
  end.

Definition os_unlink (p : pyval) : W unit :=
  match p with
  | PStr s => act (Removed s)
  | PFile _ => wraise (TypeError file_found)
  end.

(** [NamedTemporaryFile(dir=dirname)]: the name of the new file. *)
Definition NamedTemporaryFile (dir : string) : W string :=
  match mktemp os dir with
  | Some name => act (Created name) >>- wret name
  | None => wraise OSError
  end.

(** [self._write_to(tmp, size)] on the temporary file. *)
Definition _write_to_tmp (tmp : string) (size : Z) : W unit :=
  fun l =>
    match RemoteIter._write_to request "" size (obj l) with
    | (Ok written, s') =>
        (inl tt, {| obj := s'; actions := actions l ++ [Wrote tmp written];
                    tmp_filename := tmp_filename l |})
    | (Raise e, s') =>
        (inr (Python e), {| obj := s'; actions := actions l;
                            tmp_filename := tmp_filename l |})
    end.

(** [RemoteFile.write_to] for a [dest] that is a file name (a string has
    no [write]); [tmp.close()] removes the temporary file. *)
Definition write_to (dest : string) (size : Z) : W unit :=
  let dirname := dirname os dest in
  if andb (exists_ os dest) (negb (writable os dest)) then
    wraise (Python (ValueError ("invalid dest filename: " ++ dest
                                ++ " is not writable")%string))
  else if negb (exists_ os dirname) then
    wraise (Python (ValueError ("invalid dest filename: dir " ++ builtin_dir
                                ++ " does not exist")%string))
  else if negb (writable os dirname) then
    wraise (Python (ValueError ("invalid dest filename: dir " ++ builtin_dir
                                ++ " is not writable")%string))
  else
    set_tmp (PStr "") >>-
    try_finally
      (tmp <-- NamedTemporaryFile dirname ;;
       set_tmp (PFile tmp) >>-
       _write_to_tmp tmp size >>-
       act (Removed tmp) >>-
       (v <-- get_tmp ;; os_rename v dest) >>-
       set_tmp (PStr ""))
      (v <-- get_tmp ;;
       if truth v then
         is_file <-- os_path_isfile v ;;
         if is_file then os_unlink v else wret tt
       else wret tt).

End Outside.

(** The start: a RemoteFile object, no file action yet. *)
Definition start (s : St) : Local :=
  {| obj := s; actions := []; tmp_filename := PStr "" |}.

End WriteTo.

(** An operating system on which everything exists and is writable. *)
Module WriteCases.

Definition friendly : WriteTo.OS :=
  {| WriteTo.exists_ := fun _ => true;
     WriteTo.writable := fun _ => true;
     WriteTo.isfile := fun _ => true;
     WriteTo.dirname := fun _ => "/tmp";
     WriteTo.mktemp := fun _ => Some "/tmp/tmpx" |}.

End WriteCases.

(* ===================================================================== *)
(** ** Properties                                                         *)
(* ===================================================================== *)

Import Py.

(** *** Strings and lists *)

Lemma contains_In (x : string) (l : list string) :
  contains x l = true <-> In x l.
Proof.
  induction l as [|y l IH]; simpl.
  - split; [discriminate | tauto].
  - destruct (String.eqb_spec x y) as [->|Hne].
    + split; auto.
    + rewrite IH. split; [auto | intros [Heq|H]; [congruence | exact H]].
Qed.

Lemma contains_not_In (x : string) (l : list string) :
  contains x l = false <-> ~ In x l.
Proof.
  rewrite <- contains_In. destruct (contains x l); split; congruence.
Qed.

Lemma list_remove_middle (x : string) (kept rest : list string) :
  ~ In x kept -> list_remove x (kept ++ x :: rest) = Ok (kept ++ rest).
Proof.
  induction kept as [|y kept IH]; simpl; intros Hnot.
  - now rewrite String.eqb_refl.
  - destruct (String.eqb_spec x y) as [->|Hne]; [tauto|].
    rewrite IH by tauto. reflexivity.
Qed.

(** *** The manifest *)

Lemma find_name (p : string) (m : Manifest.t) (e : Manifest.entry) :
  Manifest.find p m = Some e -> Manifest.entry_name e = p /\ In e m.
Proof.
  induction m as [|e' m IH]; simpl; [discriminate|].
  destruct (String.eqb_spec (Manifest.entry_name e') p) as [Heq|Hne].
  - intros [= <-]. auto.
  - intros H. destruct (IH H). auto.
Qed.

Lemma find_None_names (p : string) (m : Manifest.t) :
  Manifest.find p m = None <-> ~ In p (map Manifest.entry_name m).
Proof.
  induction m as [|e m IH]; simpl; [tauto|].
  destruct (String.eqb_spec (Manifest.entry_name e) p) as [Heq|Hne].
  - split; [discriminate | tauto].
  - rewrite IH. tauto.
Qed.

Lemma well_formed_find (p : string) (m : Manifest.t) (e : Manifest.entry) :
  Manifest.well_formed m = true -> Manifest.find p m = Some e ->
  Manifest.valid_state (Manifest.entry_state e) = true.
Proof.
  intros Hwf Hfind. apply find_name in Hfind as [_ Hin].
  unfold Manifest.well_formed in Hwf. rewrite forallb_forall in Hwf.
  exact (Hwf e Hin).
Qed.

Lemma valid_state_cases (s : string) :
  Manifest.valid_state s = true <-> s = " " \/ s = "A" \/ s = "D".
Proof.
  unfold Manifest.valid_state.
  rewrite !orb_true_iff, !String.eqb_eq. tauto.
Qed.

(** *** Status and package handle *)

(** C5: [_status] is total with the case analysis of the data model: ['?']
    for a name absent from the manifest, ['D'] for a manifest state ['D']
    whether or not the directory is there, ['!'] for a manifest state [' ']
    or ['A'] with the directory missing, else the manifest state; on a
    manifest whose states are [' '], ['A'] or ['D'] the value is one of the
    five status characters. *)
Theorem status_total_case_analysis (self : WC.Project) (fs : WC.FS)
  (p : string)
  (Hwf : Manifest.well_formed (WC._packages self) = true) :
  In (WC._status self fs p) [" "; "A"; "D"; "!"; "?"] /\
  (Manifest.find p (WC._packages self) = None -> WC._status self fs p = "?") /\
  (forall e, Manifest.find p (WC._packages self) = Some e ->
     (Manifest.entry_state e = "D" -> WC._status self fs p = "D") /\
     (Manifest.entry_state e = " " \/ Manifest.entry_state e = "A" ->
      WC.exists_ fs (os_path_join (WC.path self) p) = false ->
      WC._status self fs p = "!") /\
     (WC.exists_ fs (os_path_join (WC.path self) p) = true ->
      WC._status self fs p = Manifest.entry_state e)).
Proof.
  unfold WC._status.
  destruct (Manifest.find p (WC._packages self)) as [e|] eqn:Hfind.
  - pose proof (well_formed_find _ _ _ Hwf Hfind) as Hv.
    apply valid_state_cases in Hv.
    split; [|split; [discriminate|]].
    + destruct (WC.exists_ fs _); simpl;
        destruct Hv as [-> | [-> | ->]]; simpl; tauto.
    + intros e' [= <-]. repeat split.
      * intros ->. now destruct (WC.exists_ fs _).
      * intros [-> | ->] ->; reflexivity.
      * intros ->. reflexivity.
  - split; [simpl; tauto|]. split; [reflexivity | discriminate].
Qed.

Lemma status_total_case_analysis_witness :
  Manifest.well_formed (WC._packages Scenario.prj2) = true /\
  WC._status Scenario.prj2 Scenario.prj2_fs "xxx" = "!".
Proof.
  split; [reflexivity|].
  destruct (status_total_case_analysis Scenario.prj2 Scenario.prj2_fs "xxx"
              eq_refl) as (_ & _ & H).
  destruct (H (Manifest.Entry "xxx" " ") eq_refl) as (_ & Hmissing & _).
  apply Hmissing; [left|]; reflexivity.
Defined.

(** C7: [package(p)] is None exactly when the status of [p] is ['!'] or
    ['?'], or is ['D'] while [<path>/<p>] is no package working copy; in
    every other case it is the handle rooted at [<path>/<p>]. *)
Theorem package_handle_cases (self : WC.Project) (fs : WC.FS) (p : string) :
  let st := WC._status self fs p in
  let dir := os_path_join (WC.path self) p in
  let none_case :=
    st = "!" \/ st = "?" \/ (st = "D" /\ WC.wc_is_package fs dir = false) in
  (none_case -> WC.package self fs p = None) /\
  (~ none_case -> WC.package self fs p = Some {| WC.pkg_path := dir |}).
Proof.
  cbv zeta. unfold WC.package. simpl contains.
  set (st := WC._status self fs p).
  set (dir := os_path_join (WC.path self) p).
  destruct (String.eqb_spec st "!") as [E1|N1];
    [split; [reflexivity | tauto]|].
  destruct (String.eqb_spec st "?") as [E2|N2];
    [split; [reflexivity | tauto]|].
  destruct (String.eqb_spec st "D") as [E3|N3]; simpl.
  - destruct (WC.wc_is_package fs dir); simpl.
    + split; [|reflexivity]. intros [H|[H|[_ H]]]; congruence.
    + split; [reflexivity | tauto].
  - split; [|reflexivity]. intros [H|[H|[H _]]]; congruence.
Qed.

Lemma package_handle_cases_witness :
  WC.package Scenario.prj2 Scenario.prj2_fs "xxx" = None /\
  WC.package Scenario.prj2 Scenario.prj2_fs "foo"
  = Some {| WC.pkg_path := "prj2/foo" |}.
Proof.
  split.
  - destruct (package_handle_cases Scenario.prj2 Scenario.prj2_fs "xxx")
      as [Hnone _].
    apply Hnone. left. reflexivity.
  - destruct (package_handle_cases Scenario.prj2 Scenario.prj2_fs "foo")
      as [_ Hsome].
    apply Hsome. intros [H|[H|[H _]]]; discriminate H.
Defined.

(** *** Rollback of a transaction record *)

(** The update rollback erases a record in its first phase and answers
    True, and leaves a record of the later phase alone and answers
    False. *)
Lemma update_rollback_first_phase (path : string) (d : Transaction.Disk)
  (c : Transaction.data) :
  d path = Some c -> Transaction.name c = "update" ->
  (Transaction.state c = Transaction.STATE_PREPARE ->
   fst (ProjectUpdateState.rollback path d) = Ok true /\
   snd (ProjectUpdateState.rollback path d) path = None) /\
  (Transaction.state c = Transaction.STATE_UPDATING ->
   ProjectUpdateState.rollback path d = (Ok false, d)).
Proof.
  intros Hd Hname.
  unfold ProjectUpdateState.rollback, mbind, gets, lift, Transaction.read_state.
  rewrite Hd. simpl. rewrite Hname. simpl.
  split; intros ->; simpl; [|reflexivity].
  split; [reflexivity|]. now rewrite String.eqb_refl.
Qed.

(** The update rollback on a record of [prj2] in its first phase. *)
Example update_rollback_prj2 :
  fst (ProjectUpdateState.rollback "prj2"
         (Scenario.pending_update Transaction.STATE_PREPARE)) = Ok true /\
  snd (ProjectUpdateState.rollback "prj2"
         (Scenario.pending_update Transaction.STATE_PREPARE)) "prj2" = None /\
  ProjectUpdateState.rollback "prj2"
    (Scenario.pending_update Transaction.STATE_UPDATING)
  = (Ok false, Scenario.pending_update Transaction.STATE_UPDATING).
Proof. repeat split. Qed.

(** C2: on a record whose name is ['commit'], whatever its phase,
    [ProjectCommitState.rollback] reads the name [ustate], which is bound
    nowhere: it raises NameError and leaves the record in place, so it
    neither erases a record in the TRANSFER phase nor answers False in the
    later phase. *)
Theorem commit_rollback_raises_name_error (path : string)
  (d : Transaction.Disk) (c : Transaction.data)
  (Hrecord : d path = Some c)
  (Hname : Transaction.name c = "commit") :
  ProjectCommitState.rollback path d = (Raise (NameError "ustate"), d).
Proof.
  unfold ProjectCommitState.rollback, mbind, gets, lift, Transaction.read_state.
  rewrite Hrecord. simpl. rewrite Hname. reflexivity.
Qed.

Lemma commit_rollback_raises_name_error_witness :
  Transaction.name (Scenario.commit_record Transaction.STATE_TRANSFER)
    = "commit" /\
  ProjectCommitState.rollback "prj2"
    (Scenario.pending_commit Transaction.STATE_TRANSFER)
  = (Raise (NameError "ustate"),
     Scenario.pending_commit Transaction.STATE_TRANSFER).
Proof.
  split; [reflexivity|].
  apply (commit_rollback_raises_name_error "prj2"
           (Scenario.pending_commit Transaction.STATE_TRANSFER)
           (Scenario.commit_record Transaction.STATE_TRANSFER));
    reflexivity.
Defined.

(** *** RemoteFile *)

Lemma read_keeps_method (request : Remote.RequestObj) (size : Z)
  (s : Remote.St) :
  Remote.method (fst (snd (Remote.read request size s)))
  = Remote.method (fst s).
Proof.
  destruct s as [self calls].
  unfold Remote.read, Remote._read, mbind, gets, lift, modify, ret, raise.
  simpl. destruct (Remote._fobj self) as [data|] eqn:Hf; simpl.
  - rewrite Hf. destruct (Remote.fobj_read size data). reflexivity.
  - destruct (Remote._get_http_method request (Remote.method self)); simpl;
      [|reflexivity].
    destruct (Remote.fobj_read size _). reflexivity.
Qed.

Lemma read_calls (request : Remote.RequestObj) (size : Z) (s : Remote.St) :
  snd (snd (Remote.read request size s)) = snd s \/
  snd (snd (Remote.read request size s))
  = snd s ++ [{| Remote.http_attr := lower (Remote.method (fst s));
                 Remote.http_path := Remote.path (fst s);
                 Remote.http_kwargs := Remote.kwargs (fst s) |}].
Proof.
  destruct s as [self calls].
  unfold Remote.read, Remote._read, Remote._get_http_method,
    mbind, gets, lift, modify, ret, raise.
  simpl. destruct (Remote._fobj self) as [data|] eqn:Hf; simpl.
  - rewrite Hf. destruct (Remote.fobj_read size data). now left.
  - destruct (Remote.has_attr request _); simpl; [|now left].
    destruct (Remote.fobj_read size _). now right.
Qed.

Lemma reads_get_only (request : Remote.RequestObj) (sizes : list Z) :
  forall s : Remote.St,
    Remote.method (fst s) = "GET" ->
    Forall (fun c => Remote.http_attr c = "get") (snd s) ->
    Forall (fun c => Remote.http_attr c = "get")
      (snd (snd (Remote.reads request sizes s))).
Proof.
  induction sizes as [|size sizes IH]; intros s Hm Hcalls; simpl.
  - exact Hcalls.
  - unfold mbind.
    pose proof (read_keeps_method request size s) as Hkeep.
    pose proof (read_calls request size s) as Hlog.
    destruct (Remote.read request size s) as [[out|e] s'] eqn:Hread;
      simpl in *.
    + apply IH; [congruence|].
      destruct Hlog as [-> | ->]; [exact Hcalls|].
      apply Forall_app. split; [exact Hcalls|].
      constructor; [|constructor]. simpl. now rewrite Hm.
    + destruct Hlog as [-> | ->]; [exact Hcalls|].
      apply Forall_app. split; [exact Hcalls|].
      constructor; [|constructor]. simpl. now rewrite Hm.
Qed.

(** C10: the constructor of [RemoteFile] drops its [method] argument: the
    object stores ['GET'] whatever was passed, is the object built with
    ['GET'], and every request that its reads issue goes through the [get]
    method of the request object; the first read of an object whose
    request object has that method issues exactly that one call. *)
Theorem remote_file_ignores_method (path : string) (bufsize : Z)
  (m : string) (kw : list (string * string)) :
  Remote.method (Remote.__init__ path bufsize m kw) = "GET" /\
  Remote.__init__ path bufsize m kw = Remote.__init__ path bufsize "GET" kw /\
  (forall request sizes,
     Forall (fun c => Remote.http_attr c = "get")
       (snd (snd (Remote.reads request sizes
                    (Remote.__init__ path bufsize m kw, []))))) /\
  (forall request size,
     Remote.has_attr request "get" = true ->
     snd (snd (Remote.read request size
                 (Remote.__init__ path bufsize m kw, [])))
     = [{| Remote.http_attr := "get"; Remote.http_path := path;
           Remote.http_kwargs := kw |}]).
Proof.
  split; [reflexivity|]. split; [reflexivity|]. split.
  - intros request sizes. apply reads_get_only; [reflexivity | constructor].
  - intros request size Hget.
    unfold Remote.read, Remote._read, Remote._get_http_method,
      mbind, gets, lift, modify, ret, raise.
    cbn [Remote.__init__ Remote._fobj Remote.method fst snd].
    change (lower "GET") with "get". rewrite Hget.
    cbn [Remote.set_fobj Remote._fobj fst snd app Remote.path Remote.kwargs].
    destruct (Remote.fobj_read size _). reflexivity.
Qed.

Lemma remote_file_ignores_method_witness :
  Remote.has_attr Scenario.get_only "get" = true /\
  snd (snd (Remote.read Scenario.get_only (-1)
              (Remote.__init__ "/source/prj2" 8192 "PUT" [], [])))
  = [{| Remote.http_attr := "get"; Remote.http_path := "/source/prj2";
        Remote.http_kwargs := [] |}].
Proof.
  split; [reflexivity|].
  destruct (remote_file_ignores_method "/source/prj2" 8192 "PUT" [])
    as (_ & _ & _ & H).
  apply H. reflexivity.
Defined.

(** *** add and remove *)

Lemma find_add_fresh (p s : string) (m : Manifest.t) :
  Manifest.find p m = None ->
  Manifest.find p (Manifest.add p s m) = Some (Manifest.Entry p s) /\
  Manifest.remove p (Manifest.add p s m) = m.
Proof.
  unfold Manifest.add. induction m as [|e m IH]; simpl.
  - now rewrite String.eqb_refl.
  - destruct (String.eqb (Manifest.entry_name e) p); [discriminate|].
    intros H. destruct (IH H) as [-> ->]. auto.
Qed.

Lemma find_set (q s : string) (m : Manifest.t) (e : Manifest.entry) :
  Manifest.find q m = Some e ->
  Manifest.find q (Manifest.set q s m) = Some (Manifest.Entry q s) /\
  map Manifest.entry_name (Manifest.set q s m) = map Manifest.entry_name m.
Proof.
  induction m as [|e' m IH]; simpl; [discriminate|].
  destruct (String.eqb_spec (Manifest.entry_name e') q) as [Heq|Hne]; simpl.
  - intros _. rewrite String.eqb_refl. now rewrite Heq.
  - destruct (String.eqb_spec (Manifest.entry_name e') q); [contradiction|].
    intros H. destruct (IH H) as [-> ->]. auto.
Qed.

(** What [add] does to the store when its three checks pass. *)
Lemma add_runs (w : WC.World) (pkg : string) :
  let dir := os_path_join (WC.path (WC.w_self w)) pkg in
  WC._status (WC.w_self w) (WC.w_fs w) pkg = "?" ->
  WC.isdir (WC.w_fs w) dir = true ->
  WC.wc_is_project (WC.w_fs w) dir = false ->
  WC.wc_is_package (WC.w_fs w) dir = false ->
  exists w',
    WC.add pkg w = (Ok tt, w') /\
    WC._packages (WC.w_self w')
    = WC._packages (WC.w_self w) ++ [Manifest.Entry pkg "A"] /\
    WC.w_stored_packages w' = WC._packages (WC.w_self w') /\
    WC.path (WC.w_self w') = WC.path (WC.w_self w) /\
    WC.exists_ (WC.w_fs w') dir = true /\
    WC.w_init_calls w'
    = WC.w_init_calls w ++
      [{| WC.init_path := dir; WC.init_project := pkg;
          WC.init_name := WC.name (WC.w_self w);
          WC.init_api_url := WC.apiurl (WC.w_self w);
          WC.init_external_store :=
            WC.wc_pkg_data_filename (WC.path (WC.w_self w)) pkg |}].
Proof.
  intros dir Hst Hdir Hprj Hpkg. subst dir.
  unfold WC.add, mbind, gets. rewrite Hst, Hdir, Hprj, Hpkg. simpl.
  eexists. split; [reflexivity|]. simpl.
  repeat split. unfold WC.at_path. now rewrite String.eqb_refl.
Qed.

(** C3: when its checks pass, [add(pkg)] calls [Package.init] with [pkg]
    in the project position and the project's name in the name position,
    then appends [{name=pkg, state='A'}] to the manifest and persists it;
    the add phase of update calls [Package.init] with the project's name
    in the project position and the package in the name position. *)
Theorem add_passes_package_as_project (w : WC.World) (pkg : string)
  (Hst : WC._status (WC.w_self w) (WC.w_fs w) pkg = "?")
  (Hdir : WC.isdir (WC.w_fs w) (os_path_join (WC.path (WC.w_self w)) pkg)
          = true)
  (Hprj : WC.wc_is_project (WC.w_fs w)
            (os_path_join (WC.path (WC.w_self w)) pkg) = false)
  (Hpkg : WC.wc_is_package (WC.w_fs w)
            (os_path_join (WC.path (WC.w_self w)) pkg) = false) :
  (exists w',
     WC.add pkg w = (Ok tt, w') /\
     WC.w_init_calls w'
     = WC.w_init_calls w ++
       [{| WC.init_path := os_path_join (WC.path (WC.w_self w)) pkg;
           WC.init_project := pkg;
           WC.init_name := WC.name (WC.w_self w);
           WC.init_api_url := WC.apiurl (WC.w_self w);
           WC.init_external_store :=
             WC.wc_pkg_data_filename (WC.path (WC.w_self w)) pkg |}] /\
     WC._packages (WC.w_self w')
     = WC._packages (WC.w_self w) ++ [Manifest.Entry pkg "A"] /\
     WC.w_stored_packages w' = WC._packages (WC.w_self w')) /\
  (forall location,
     WC.w_init_calls (snd (WC._perform_adds_init location pkg w))
     = WC.w_init_calls w ++
       [{| WC.init_path := os_path_join location pkg;
           WC.init_project := WC.name (WC.w_self w);
           WC.init_name := pkg;
           WC.init_api_url := WC.apiurl (WC.w_self w);
           WC.init_external_store :=
             WC.wc_pkg_data_filename (WC.path (WC.w_self w)) pkg |}]).
Proof.
  split.
  - destruct (add_runs w pkg Hst Hdir Hprj Hpkg)
      as (w' & Hadd & Hm & Hs & _ & _ & Hcalls).
    exists w'. auto.
  - intros location. reflexivity.
Qed.

Lemma add_passes_package_as_project_witness :
  exists w',
    WC.add "asdf" (Scenario.prj2_world Scenario.no_transaction) = (Ok tt, w') /\
    WC.w_init_calls w'
    = [{| WC.init_path := "prj2/asdf"; WC.init_project := "asdf";
          WC.init_name := "prj2"; WC.init_api_url := "http://localhost";
          WC.init_external_store := "prj2/.osc/data/asdf" |}].
Proof.
  destruct (add_passes_package_as_project
              (Scenario.prj2_world Scenario.no_transaction) "asdf"
              eq_refl eq_refl eq_refl eq_refl)
    as [(w' & Hadd & Hcalls & _) _].
  exists w'. split; [exact Hadd | exact Hcalls].
Defined.

(** The two call sites side by side on the package [asdf] of [prj2]: [add]
    and the add phase of update disagree on which argument is the project. *)
Lemma add_and_update_disagree :
  map WC.init_project
    (WC.w_init_calls
       (snd (WC.add "asdf" (Scenario.prj2_world Scenario.no_transaction))))
  = ["asdf"] /\
  map WC.init_project
    (WC.w_init_calls
       (snd (WC._perform_adds_init "prj2/.osc/_update" "asdf"
               (Scenario.prj2_world Scenario.no_transaction))))
  = ["prj2"].
Proof. split; reflexivity. Qed.

Lemma status_untracked (self : WC.Project) (fs : WC.FS) (p : string) :
  Manifest.find p (WC._packages self) = None -> WC._status self fs p = "?".
Proof. unfold WC._status. now intros ->. Qed.

(** *** The update classifier *)

Section UpdateClassifier.
Variable self : WC.Project.
Variable fs : WC.FS.
Variable pkgs : WC.Answers.

Lemma sort_remote_sound (local remote : list string) :
  forall c a c' a',
    fold_left (WC.sort_remote local) remote (c, a) = (c', a') ->
    (forall x, In x c' -> In x c \/ (In x remote /\ In x local)) /\
    (forall x, In x a' -> In x a \/ (In x remote /\ ~ In x local)).
Proof.
  induction remote as [|r remote IH]; simpl; intros c a c' a' H.
  - injection H as <- <-. auto.
  - destruct (contains r local) eqn:Hr; apply IH in H as [Hc Ha]; split;
      intros x Hx; [apply Hc in Hx | apply Ha in Hx | apply Hc in Hx
                    | apply Ha in Hx];
      rewrite ?in_app_iff in Hx; simpl in Hx.
    + apply contains_In in Hr.
      destruct Hx as [[Hx|[<-|[]]]|[Hx Hl]]; auto.
    + destruct Hx as [Hx|[Hx Hl]]; auto.
    + destruct Hx as [Hx|[Hx Hl]]; auto.
    + apply contains_not_In in Hr.
      destruct Hx as [[Hx|[<-|[]]]|[Hx Hl]]; auto.
Qed.

Lemma scan_local_sound (remote local : list string) :
  forall d cf d' cf',
    fold_left (WC.scan_local self fs pkgs remote) local (d, cf) = (d', cf') ->
    (forall x, In x d' ->
       In x d \/
       (In x local /\ ~ In x remote /\ WC._status self fs x <> "A" /\
        WC.not_updateable pkgs (WC.package self fs x) = false)) /\
    (forall x, In x cf' ->
       In x cf \/
       (In x local /\ WC.not_updateable pkgs (WC.package self fs x) = true)).
Proof.
  induction local as [|l local IH]; simpl; intros d cf d' cf' H.
  - injection H as <- <-. auto.
  - destruct (WC.not_updateable pkgs (WC.package self fs l)) eqn:Hnu.
    + apply IH in H as [Hd Hc]. split; intros x Hx.
      * apply Hd in Hx. destruct Hx as [Hx|(Hx & Hrest)]; auto.
      * apply Hc in Hx. rewrite in_app_iff in Hx. simpl in Hx.
        destruct Hx as [[Hx|[<-|[]]]|(Hx & Hrest)]; auto.
    + destruct (String.eqb_spec (WC._status self fs l) "A") as [HA|HA];
        simpl in H;
        [|destruct (contains l remote) eqn:Hr; simpl in H];
        apply IH in H as [Hd Hc]; split; intros x Hx;
        try (apply Hc in Hx; destruct Hx as [Hx|(Hx & Hrest)]; now auto);
        apply Hd in Hx; rewrite ?in_app_iff in Hx; simpl in Hx.
      * destruct Hx as [Hx|(Hx & Hrest)]; auto.
      * destruct Hx as [Hx|(Hx & Hrest)]; auto.
      * apply contains_not_In in Hr.
        destruct Hx as [[Hx|[<-|[]]]|(Hx & Hrest)]; auto 6.
Qed.

Lemma move_conflicts_sound (cond : string -> result bool)
  (copy : list string) :
  forall kept cf src' cf',
    (forall x, In x kept -> cond x = Ok false) ->
    WC.move_conflicts cond copy (kept ++ copy) cf = Ok (src', cf') ->
    (forall x, In x src' -> (In x kept \/ In x copy) /\ cond x = Ok false) /\
    (forall x, In x cf' -> In x cf \/ (In x copy /\ cond x = Ok true)).
Proof.
  induction copy as [|p copy IH]; simpl; intros kept cf src' cf' Hkept H.
  - injection H as <- <-. rewrite app_nil_r. split; auto.
  - destruct (cond p) as [[|]|e] eqn:Hp; simpl in H; [| |discriminate].
    + rewrite list_remove_middle in H.
      * simpl in H. apply IH in H as [Hs Hc]; [|assumption].
        split; intros x Hx.
        -- apply Hs in Hx. tauto.
        -- apply Hc in Hx. rewrite in_app_iff in Hx. simpl in Hx.
           destruct Hx as [[Hx|[<-|[]]]|[Hx Hcx]]; auto.
      * intros Hin. apply Hkept in Hin. congruence.
    + replace (kept ++ p :: copy) with ((kept ++ [p]) ++ copy) in H
        by (rewrite <- app_assoc; reflexivity).
      apply IH in H as [Hs Hc].
      * split; intros x Hx.
        -- apply Hs in Hx. rewrite in_app_iff in Hx. simpl in Hx. tauto.
        -- apply Hc in Hx. tauto.
      * intros x Hx. rewrite in_app_iff in Hx. simpl in Hx.
        destruct Hx as [Hx|[<-|[]]]; auto.
Qed.

Lemma move_conflicts_runs (cond : string -> result bool)
  (copy : list string) :
  forall kept cf,
    (forall x, In x kept -> cond x = Ok false) ->
    (forall x, In x copy -> exists b, cond x = Ok b) ->
    exists r, WC.move_conflicts cond copy (kept ++ copy) cf = Ok r.
Proof.
  induction copy as [|p copy IH]; simpl; intros kept cf Hkept Hcopy.
  - eauto.
  - destruct (Hcopy p (or_introl eq_refl)) as [[|] Hp]; rewrite Hp; simpl.
    + rewrite list_remove_middle.
      * simpl. apply IH; auto.
      * intros Hin. apply Hkept in Hin. congruence.
    + replace (kept ++ p :: copy) with ((kept ++ [p]) ++ copy)
        by (rewrite <- app_assoc; reflexivity).
      apply IH; [|auto].
      intros x Hx. rewrite in_app_iff in Hx. simpl in Hx.
      destruct Hx as [Hx|[<-|[]]]; auto.
Qed.

Lemma only_selected_In (selection l : list string) (x : string) :
  In x (WC.only_selected selection l) -> In x l.
Proof. unfold WC.only_selected. rewrite filter_In. tauto. Qed.

(** Where each name of the four lists comes from. *)
Lemma updateinfo_sound (remote selection : list string)
  (info : WC.PackageUpdateInfo) :
  WC._calculate_updateinfo self fs pkgs remote selection = Ok info ->
  (forall x, In x (WC.candidates info) ->
     In x remote /\ In x (WC.packages self) /\
     WC.candidate_conflict self fs pkgs x = Ok false) /\
  (forall x, In x (WC.added info) ->
     In x remote /\ ~ In x (WC.packages self) /\
     WC.added_conflict self fs x = Ok false) /\
  (forall x, In x (WC.deleted info) ->
     In x (WC.packages self) /\ ~ In x remote /\
     WC._status self fs x <> "A" /\
     WC.not_updateable pkgs (WC.package self fs x) = false) /\
  (forall x, In x (WC.conflicted info) ->
     (In x (WC.packages self) /\
      WC.not_updateable pkgs (WC.package self fs x) = true) \/
     (In x remote /\ In x (WC.packages self) /\
      WC.candidate_conflict self fs pkgs x = Ok true) \/
     (In x remote /\ ~ In x (WC.packages self) /\
      WC.added_conflict self fs x = Ok true)).
Proof.
  unfold WC._calculate_updateinfo.
  destruct (fold_left (WC.sort_remote (WC.packages self)) remote ([], []))
    as [c a] eqn:H1.
  destruct (fold_left (WC.scan_local self fs pkgs remote) (WC.packages self)
              ([], [])) as [d cf] eqn:H2.
  apply sort_remote_sound in H1 as [Hc Ha].
  apply scan_local_sound in H2 as [Hd Hcf].
  destruct (WC.move_conflicts (WC.candidate_conflict self fs pkgs) c c cf)
    as [[c3 cf3]|e] eqn:H3; simpl; [|discriminate].
  destruct (WC.move_conflicts (WC.added_conflict self fs) a a cf3)
    as [[a4 cf4]|e] eqn:H4; simpl; [|discriminate].
  apply (move_conflicts_sound _ c []) in H3 as [Hc3 Hcf3];
    [|intros x []].
  apply (move_conflicts_sound _ a []) in H4 as [Ha4 Hcf4];
    [|intros x []].
  assert (Hcand : forall x, In x c3 ->
            In x remote /\ In x (WC.packages self) /\
            WC.candidate_conflict self fs pkgs x = Ok false).
  { intros x Hx. apply Hc3 in Hx as [[[]|Hx] Hcond].
    apply Hc in Hx as [[]|[Hr Hl]]. auto. }
  assert (Hadd : forall x, In x a4 ->
            In x remote /\ ~ In x (WC.packages self) /\
            WC.added_conflict self fs x = Ok false).
  { intros x Hx. apply Ha4 in Hx as [[[]|Hx] Hcond].
    apply Ha in Hx as [[]|[Hr Hl]]. auto. }
  assert (Hdel : forall x, In x d ->
            In x (WC.packages self) /\ ~ In x remote /\
            WC._status self fs x <> "A" /\
            WC.not_updateable pkgs (WC.package self fs x) = false).
  { intros x Hx. apply Hd in Hx as [[]|Hx]. exact Hx. }
  assert (Hconf : forall x, In x cf4 ->
            (In x (WC.packages self) /\
             WC.not_updateable pkgs (WC.package self fs x) = true) \/
            (In x remote /\ In x (WC.packages self) /\
             WC.candidate_conflict self fs pkgs x = Ok true) \/
            (In x remote /\ ~ In x (WC.packages self) /\
             WC.added_conflict self fs x = Ok true)).
  { intros x Hx. apply Hcf4 in Hx as [Hx|[Hx Hcond]].
    - apply Hcf3 in Hx as [Hx|[Hx Hcond]].
      + apply Hcf in Hx as [[]|Hx]. auto.
      + apply Hc in Hx as [[]|[Hr Hl]]. auto.
    - apply Ha in Hx as [[]|[Hr Hl]]. auto 6. }
  destruct selection as [|s0 sel]; intros [= <-]; simpl;
    (split; [|split; [|split]]); intros x Hx;
    try apply only_selected_In in Hx; auto.
Qed.

End UpdateClassifier.

(** *** The update classifier on the working copy [prj2] *)

Ltac run_loops :=
  cbv beta iota zeta delta
    [fold_left app contains String.eqb Ascii.eqb Bool.eqb negb andb orb
     WC.sort_remote WC.scan_local WC.move_conflicts list_remove bind
     WC.only_selected filter].

Section Prj2.
Variable fs : WC.FS.
Variable pkgs : WC.Answers.
Hypothesis Hfs : Scenario.prj2_layout fs.
Hypothesis Hup : forall p, WC.is_updateable pkgs p = true.

Lemma all_updateable (p : option WC.Package) :
  WC.not_updateable pkgs p = false.
Proof. destruct p; simpl; [now rewrite Hup | reflexivity]. Qed.

Lemma prj2_status :
  WC._status Scenario.prj2 fs "foo" = " " /\
  WC._status Scenario.prj2 fs "bar" = "A" /\
  WC._status Scenario.prj2 fs "abc" = "D" /\
  WC._status Scenario.prj2 fs "xxx" = "!" /\
  WC._status Scenario.prj2 fs "del" = "D" /\
  WC._status Scenario.prj2 fs "asdf" = "?" /\
  WC._status Scenario.prj2 fs "osc" = "?".
Proof.
  destruct Hfs as [Hfoo Hbar Habc _ Hxxx Hdel]. cbv -[WC.exists_].
  rewrite Hfoo, Hbar, Habc, Hxxx, Hdel. repeat split.
Qed.

Lemma prj2_conflicts :
  WC.wc_is_package fs "prj2/abc" = true ->
  WC.exists_ fs "prj2/osc" = false ->
  WC.candidate_conflict Scenario.prj2 fs pkgs "foo" = Ok false /\
  WC.candidate_conflict Scenario.prj2 fs pkgs "abc" = Ok false /\
  WC.candidate_conflict Scenario.prj2 fs pkgs "xxx" = Ok true /\
  WC.added_conflict Scenario.prj2 fs "osc" = Ok false.
Proof.
  intros Habc Hosc.
  destruct prj2_status as (H1 & _ & H3 & H4 & _ & _ & H7).
  unfold WC.candidate_conflict, WC.added_conflict, WC.package.
  rewrite H1, H3, H4, H7.
  cbv -[WC.exists_ WC.wc_is_package WC.is_updateable].
  rewrite Habc, Hosc, !Hup. repeat split.
Qed.

Lemma prj2_update_remote_foo_abc_osc :
  WC.wc_is_package fs "prj2/abc" = true ->
  WC.exists_ fs "prj2/osc" = false ->
  WC._calculate_updateinfo Scenario.prj2 fs pkgs ["foo"; "abc"; "osc"] []
  = Ok {| WC.candidates := ["foo"; "abc"]; WC.added := ["osc"];
          WC.deleted := ["xxx"; "del"]; WC.conflicted := [] |}.
Proof.
  intros Habc Hosc.
  destruct prj2_status as (H1 & H2 & H3 & H4 & H5 & _).
  destruct (prj2_conflicts Habc Hosc) as (C1 & C2 & _ & C4).
  unfold WC._calculate_updateinfo.
  change (WC.packages Scenario.prj2) with ["foo"; "bar"; "abc"; "xxx"; "del"].
  run_loops. rewrite !all_updateable, H1, H2, H3, H4, H5.
  run_loops. rewrite C1, C2. run_loops. rewrite C4. reflexivity.
Qed.

Lemma prj2_update_remote_foo_abc_xxx_osc :
  WC.wc_is_package fs "prj2/abc" = true ->
  WC.exists_ fs "prj2/osc" = false ->
  WC._calculate_updateinfo Scenario.prj2 fs pkgs
    ["foo"; "abc"; "xxx"; "osc"] []
  = Ok {| WC.candidates := ["foo"; "abc"]; WC.added := ["osc"];
          WC.deleted := ["del"]; WC.conflicted := ["xxx"] |}.
Proof.
  intros Habc Hosc.
  destruct prj2_status as (H1 & H2 & H3 & H4 & H5 & _).
  destruct (prj2_conflicts Habc Hosc) as (C1 & C2 & C3 & C4).
  unfold WC._calculate_updateinfo.
  change (WC.packages Scenario.prj2) with ["foo"; "bar"; "abc"; "xxx"; "del"].
  run_loops. rewrite !all_updateable, H1, H2, H3, H4, H5.
  run_loops. rewrite C1, C2, C3. run_loops. rewrite C4. reflexivity.
Qed.

(** Without a package working copy in [abc] the third loop asks [None]
    whether it is updateable. *)
Lemma prj2_update_abc_not_package :
  WC.wc_is_package fs "prj2/abc" = false ->
  WC._calculate_updateinfo Scenario.prj2 fs pkgs ["foo"; "abc"; "osc"] []
  = Raise (AttributeError
             "'NoneType' object has no attribute 'is_updateable'").
Proof.
  intros Habc.
  destruct prj2_status as (H1 & H2 & H3 & H4 & H5 & _).
  assert (C1 : WC.candidate_conflict Scenario.prj2 fs pkgs "foo" = Ok false).
  { unfold WC.candidate_conflict, WC.package. rewrite H1.
    cbv -[WC.is_updateable]. now rewrite Hup. }
  assert (C2 : WC.candidate_conflict Scenario.prj2 fs pkgs "abc"
               = Raise (AttributeError
                          "'NoneType' object has no attribute 'is_updateable'")).
  { unfold WC.candidate_conflict, WC.package. rewrite H3.
    cbv -[WC.wc_is_package]. now rewrite Habc. }
  unfold WC._calculate_updateinfo.
  change (WC.packages Scenario.prj2) with ["foo"; "bar"; "abc"; "xxx"; "del"].
  run_loops. rewrite !all_updateable, H1, H2, H3, H4, H5.
  run_loops. rewrite C1, C2. reflexivity.
Qed.


End Prj2.

Lemma prj2_fs_layout : Scenario.prj2_layout Scenario.prj2_fs.
Proof. split; reflexivity. Qed.

(** C1: on the working copy [prj2] with every package working copy
    updateable, [abc] a package working copy and no directory [osc], the
    remote listing [foo, abc, osc] gives candidates [foo, abc], added
    [osc], deleted [xxx, del] and no conflict: the missing [xxx] is not
    listed remotely, so it is deleted.  Deleted [del] with conflicted [xxx]
    is the answer to the remote listing [foo, abc, xxx, osc]. *)
Theorem update_classification_prj2 (fs : WC.FS) (pkgs : WC.Answers)
  (Hfs : Scenario.prj2_layout fs)
  (Hup : forall p, WC.is_updateable pkgs p = true)
  (Habc : WC.wc_is_package fs "prj2/abc" = true)
  (Hosc : WC.exists_ fs "prj2/osc" = false) :
  WC._calculate_updateinfo Scenario.prj2 fs pkgs ["foo"; "abc"; "osc"] []
  = Ok {| WC.candidates := ["foo"; "abc"]; WC.added := ["osc"];
          WC.deleted := ["xxx"; "del"]; WC.conflicted := [] |} /\
  WC._calculate_updateinfo Scenario.prj2 fs pkgs
    ["foo"; "abc"; "xxx"; "osc"] []
  = Ok {| WC.candidates := ["foo"; "abc"]; WC.added := ["osc"];
          WC.deleted := ["del"]; WC.conflicted := ["xxx"] |}.
Proof.
  split.
  - now apply prj2_update_remote_foo_abc_osc.
  - now apply prj2_update_remote_foo_abc_xxx_osc.
Qed.

Lemma update_classification_prj2_witness :
  WC._calculate_updateinfo Scenario.prj2 Scenario.prj2_fs Scenario.clean
    ["foo"; "abc"; "osc"] []
  = Ok {| WC.candidates := ["foo"; "abc"]; WC.added := ["osc"];
          WC.deleted := ["xxx"; "del"]; WC.conflicted := [] |}.
Proof.
  apply (update_classification_prj2 Scenario.prj2_fs Scenario.clean).
  - split; reflexivity.
  - intros p. reflexivity.
  - reflexivity.
  - reflexivity.
Defined.

(** C1, as the scenario states it: with the remote listing [foo, abc, osc]
    the classification of [prj2] is not deleted [del] with conflicted
    [xxx]. *)
Lemma update_classification_prj2_counterexample :
  Scenario.prj2_layout Scenario.prj2_fs /\
  (forall p, WC.is_updateable Scenario.clean p = true) /\
  WC._calculate_updateinfo Scenario.prj2 Scenario.prj2_fs Scenario.clean
    ["foo"; "abc"; "osc"] []
  <> Ok {| WC.candidates := ["foo"; "abc"]; WC.added := ["osc"];
           WC.deleted := ["del"]; WC.conflicted := ["xxx"] |}.
Proof.
  split; [exact prj2_fs_layout|]. split; [reflexivity|].
  vm_compute. discriminate.
Qed.



(** *** Disjointness of the classified lists *)

Lemma candidate_ok_updateable (self : WC.Project) (fs : WC.FS)
  (pkgs : WC.Answers) (x : string) :
  WC.candidate_conflict self fs pkgs x = Ok false ->
  WC.not_updateable pkgs (WC.package self fs x) = false.
Proof.
  unfold WC.candidate_conflict, WC.not_updateable.
  destruct (contains _ _); [discriminate|].
  destruct (WC.package self fs x); [|discriminate].
  now intros [= ->].
Qed.

Lemma tracked_status (self : WC.Project) (fs : WC.FS) (x : string) :
  Manifest.well_formed (WC._packages self) = true ->
  In x (WC.packages self) ->
  In (WC._status self fs x) [" "; "A"; "D"; "!"].
Proof.
  intros Hwf Hin. unfold WC._status.
  destruct (Manifest.find x (WC._packages self)) as [e|] eqn:Hfind.
  - pose proof (well_formed_find _ _ _ Hwf Hfind) as Hv.
    apply valid_state_cases in Hv.
    destruct (WC.exists_ fs _); simpl;
      destruct Hv as [-> | [-> | ->]]; simpl; tauto.
  - apply find_None_names in Hfind. contradiction.
Qed.

(** The update classification returns, rather than failing on a missing
    handle, when every remote package marked ['D'] locally still holds a
    package working copy. *)
Lemma updateinfo_returns (self : WC.Project) (fs : WC.FS) (pkgs : WC.Answers)
  (remote selection : list string) :
  Manifest.well_formed (WC._packages self) = true ->
  (forall p, In p remote -> WC._status self fs p = "D" ->
             WC.wc_is_package fs (os_path_join (WC.path self) p) = true) ->
  exists info,
    WC._calculate_updateinfo self fs pkgs remote selection = Ok info.
Proof.
  intros Hwf Hpkg. unfold WC._calculate_updateinfo.
  destruct (fold_left (WC.sort_remote (WC.packages self)) remote ([], []))
    as [c a] eqn:H1.
  destruct (fold_left (WC.scan_local self fs pkgs remote) (WC.packages self)
              ([], [])) as [d cf].
  apply sort_remote_sound in H1 as [Hc _].
  destruct (move_conflicts_runs (WC.candidate_conflict self fs pkgs) c [] cf)
    as [[c3 cf3] H3].
  - intros x [].
  - intros x Hx. apply Hc in Hx as [[]|[Hr Hl]].
    pose proof (tracked_status self fs x Hwf Hl) as Hst.
    specialize (Hpkg x Hr).
    unfold WC.candidate_conflict, WC.package.
    simpl in Hst.
    destruct Hst as [Hst|[Hst|[Hst|[Hst|[]]]]]; rewrite <- Hst in *; simpl;
      eauto.
    rewrite Hpkg by reflexivity. simpl. eauto.
  - simpl in H3. rewrite H3. simpl.
    destruct (move_conflicts_runs (WC.added_conflict self fs) a [] cf3)
      as [[a4 cf4] H4].
    + intros x [].
    + intros x _. unfold WC.added_conflict. eauto.
    + simpl in H4. rewrite H4. simpl. destruct selection; eauto.
Qed.

Section CommitClassifier.
Variable self : WC.Project.
Variable fs : WC.FS.
Variable pkgs : WC.Answers.

Lemma classify_commit_step (acc : WC.PackageCommitInfo) (p : string)
  (b : Spec.bucket) (x : string) :
  In x (Spec.bucket_list b (WC.classify_commit self fs pkgs acc p)) <->
  In x (Spec.bucket_list b acc) \/
  (x = p /\ Spec.commit_bucket self fs pkgs p = b).
Proof.
  unfold WC.classify_commit, Spec.commit_bucket. destruct acc as [u a d m c].
  destruct (String.eqb (WC._status self fs p) "A");
    [|destruct (String.eqb (WC._status self fs p) "D");
      [|destruct (WC.package self fs p) as [h|];
        [destruct (andb (WC.is_modified pkgs h) (WC.is_commitable pkgs h));
         [|destruct (negb (WC.is_commitable pkgs h))]|]]];
    destruct b; simpl; rewrite ?in_app_iff; simpl;
    intuition (congruence || auto).
Qed.

Lemma commitinfo_buckets (l : list string) :
  forall (acc : WC.PackageCommitInfo) (b : Spec.bucket) (x : string),
    In x (Spec.bucket_list b
            (fold_left (WC.classify_commit self fs pkgs) l acc)) <->
    In x (Spec.bucket_list b acc) \/
    (In x l /\ Spec.commit_bucket self fs pkgs x = b).
Proof.
  induction l as [|p l IH]; simpl; intros acc b x.
  - tauto.
  - rewrite IH, classify_commit_step.
    split.
    + intros [[H|[-> H]]|[H1 H2]]; auto.
    + intros [H|[[<-|H1] H2]]; auto.
Qed.

Lemma commit_lists_bucket (selection : list string) (b : Spec.bucket)
  (x : string) :
  In x (Spec.bucket_list b (WC._calculate_commitinfo self fs pkgs selection))
  -> Spec.commit_bucket self fs pkgs x = b.
Proof.
  unfold WC._calculate_commitinfo. rewrite commitinfo_buckets.
  intros [H|[_ H]]; [|exact H]. destruct b; destruct H.
Qed.

Lemma commit_buckets_disjoint (selection : list string)
  (b1 b2 : Spec.bucket) :
  b1 <> b2 ->
  Spec.disjoint
    (Spec.bucket_list b1 (WC._calculate_commitinfo self fs pkgs selection))
    (Spec.bucket_list b2 (WC._calculate_commitinfo self fs pkgs selection)).
Proof.
  intros Hne x H1 H2.
  apply commit_lists_bucket in H1. apply commit_lists_bucket in H2.
  congruence.
Qed.


End CommitClassifier.

(** C4, as stated: a tracked package that the remote lists and that cannot
    be updated is put into the conflicted list by the loop over the local
    packages and once more by the loop over the candidates, so the name
    has two positions. *)
Lemma classifier_lists_counterexample :
  exists info,
    WC._calculate_updateinfo Scenario.prj1 Scenario.prj1_fs Scenario.stuck
      ["foo"] [] = Ok info /\
    WC.conflicted info = ["foo"; "foo"] /\
    ~ NoDup (concat (Spec.update_lists info)).
Proof.
  eexists. split; [reflexivity|]. split; [reflexivity|].
  simpl. intros H. inversion H as [|x l Hnotin _]; subst.
  apply Hnotin. now left.
Qed.

(** *** commit *)

Lemma phase_eqb_eq (a b : Transaction.phase) :
  Transaction.phase_eqb a b = true <-> a = b.
Proof. destruct a, b; simpl; split; congruence. Qed.





(* ===================================================================== *)
(** ** Further properties of the classifier                               *)
(* ===================================================================== *)

Lemma sort_remote_lists (local remote : list string) :
  forall c a,
    fold_left (WC.sort_remote local) remote (c, a)
    = (c ++ filter (fun p => contains p local) remote,
       a ++ filter (fun p => negb (contains p local)) remote).
Proof.
  induction remote as [|r remote IH]; intros c a; simpl.
  - now rewrite !app_nil_r.
  - destruct (contains r local); simpl; rewrite IH, <- ?app_assoc;
      reflexivity.
Qed.

Lemma scan_local_lists (self : WC.Project) (fs : WC.FS) (pkgs : WC.Answers)
  (remote local : list string) :
  forall d cf,
    fold_left (WC.scan_local self fs pkgs remote) local (d, cf)
    = (d ++ filter (fun p =>
                      andb (negb (WC.not_updateable pkgs
                                    (WC.package self fs p)))
                           (andb (negb (String.eqb (WC._status self fs p) "A"))
                                 (negb (contains p remote)))) local,
       cf ++ filter (fun p => WC.not_updateable pkgs (WC.package self fs p))
               local).
Proof.
  induction local as [|l local IH]; intros d cf; simpl.
  - now rewrite !app_nil_r.
  - destruct (WC.not_updateable pkgs (WC.package self fs l)); simpl.
    + rewrite IH, <- app_assoc. reflexivity.
    + destruct (andb _ _); rewrite IH, <- ?app_assoc; reflexivity.
Qed.

Lemma move_conflicts_lists (cond : string -> result bool)
  (copy : list string) :
  forall kept cf r,
    (forall x, In x kept -> cond x = Ok false) ->
    WC.move_conflicts cond copy (kept ++ copy) cf = Ok r ->
    r = (kept ++ filter (fun x => match cond x with
                                  | Ok b => negb b
                                  | Raise _ => false
                                  end) copy,
         cf ++ filter (fun x => match cond x with
                                | Ok b => b
                                | Raise _ => false
                                end) copy).
Proof.
  induction copy as [|p copy IH]; simpl; intros kept cf r Hkept H.
  - injection H as <-. now rewrite !app_nil_r.
  - destruct (cond p) as [[|]|e] eqn:Hp; simpl in *; [| |discriminate].
    + rewrite list_remove_middle in H.
      * simpl in H. apply IH in H; [|assumption].
        rewrite H, <- app_assoc. reflexivity.
      * intros Hin. apply Hkept in Hin. congruence.
    + replace (kept ++ p :: copy) with ((kept ++ [p]) ++ copy) in H
        by (rewrite <- app_assoc; reflexivity).
      apply IH in H.
      * rewrite H, <- app_assoc. reflexivity.
      * intros x Hx. rewrite in_app_iff in Hx. simpl in Hx.
        destruct Hx as [Hx|[<-|[]]]; auto.
Qed.

Lemma move_conflicts_all_ok (cond : string -> result bool)
  (copy : list string) :
  forall kept cf r,
    (forall x, In x kept -> cond x = Ok false) ->
    WC.move_conflicts cond copy (kept ++ copy) cf = Ok r ->
    forall x, In x copy -> exists b, cond x = Ok b.
Proof.
  induction copy as [|p copy IH]; simpl; intros kept cf r Hkept H x Hx.
  - destruct Hx.
  - destruct (cond p) as [[|]|e] eqn:Hp; simpl in H; [| |discriminate].
    + rewrite list_remove_middle in H.
      * simpl in H. destruct Hx as [<-|Hx]; [eauto|].
        exact (IH _ _ _ Hkept H x Hx).
      * intros Hin. apply Hkept in Hin. congruence.
    + replace (kept ++ p :: copy) with ((kept ++ [p]) ++ copy) in H
        by (rewrite <- app_assoc; reflexivity).
      destruct Hx as [<-|Hx]; [eauto|].
      refine (IH _ _ _ _ H x Hx).
      intros y Hy. rewrite in_app_iff in Hy. simpl in Hy.
      destruct Hy as [Hy|[<-|[]]]; auto.
Qed.

Section UpdateExact.
Variable self : WC.Project.
Variable fs : WC.FS.
Variable pkgs : WC.Answers.

Lemma candidate_conflict_false (x : string) :
  WC.candidate_conflict self fs pkgs x = Ok false <->
  ~ In (WC._status self fs x) ["A"; "!"] /\
  exists h, WC.package self fs x = Some h /\ WC.is_updateable pkgs h = true.
Proof.
  unfold WC.candidate_conflict.
  destruct (contains (WC._status self fs x) ["A"; "!"]) eqn:Hc.
  - apply contains_In in Hc. split; [discriminate | tauto].
  - apply contains_not_In in Hc.
    destruct (WC.package self fs x) as [h|].
    + destruct (WC.is_updateable pkgs h) eqn:Hu; cbn [negb]; split.
      * eauto.
      * reflexivity.
      * discriminate.
      * intros [_ (h' & [= <-] & Hu')]. congruence.
    + split; [discriminate|]. intros [_ (h & Hh & _)]. discriminate.
Qed.

Lemma candidate_conflict_true (x : string) :
  WC.candidate_conflict self fs pkgs x = Ok true <->
  In (WC._status self fs x) ["A"; "!"] \/
  exists h, WC.package self fs x = Some h /\ WC.is_updateable pkgs h = false.
Proof.
  unfold WC.candidate_conflict.
  destruct (contains (WC._status self fs x) ["A"; "!"]) eqn:Hc.
  - apply contains_In in Hc. tauto.
  - apply contains_not_In in Hc.
    destruct (WC.package self fs x) as [h|].
    + destruct (WC.is_updateable pkgs h) eqn:Hu; cbn [negb]; split.
      * discriminate.
      * intros [H|(h' & [= <-] & Hu')]; [tauto | congruence].
      * eauto.
      * reflexivity.
    + split; [discriminate|].
      intros [H|(h & Hh & _)]; [tauto | discriminate].
Qed.

Lemma not_updateable_true (x : string) :
  WC.not_updateable pkgs (WC.package self fs x) = true <->
  exists h, WC.package self fs x = Some h /\ WC.is_updateable pkgs h = false.
Proof.
  unfold WC.not_updateable. destruct (WC.package self fs x) as [h|].
  - rewrite negb_true_iff. split; [eauto|]. now intros (h' & [= <-] & Hu).
  - split; [discriminate|]. intros (h & Hh & _). discriminate.
Qed.

(** The four lists, as they are built from the remote listing and the
    manifest. *)
Lemma updateinfo_lists (remote selection : list string)
  (info : WC.PackageUpdateInfo) :
  WC._calculate_updateinfo self fs pkgs remote selection = Ok info ->
  let tracked := filter (fun p => contains p (WC.packages self)) remote in
  let fresh := filter (fun p => negb (contains p (WC.packages self))) remote in
  let keep c x := match c x with Ok b => negb b | Raise _ => false end in
  let move c x := match c x with Ok b => b | Raise _ => false end in
  let restrict l :=
    match selection with
    | [] => l
    | _ :: _ => WC.only_selected selection l
    end in
  WC.candidates info
  = restrict (filter (keep (WC.candidate_conflict self fs pkgs)) tracked) /\
  WC.added info = restrict (filter (keep (WC.added_conflict self fs)) fresh) /\
  WC.deleted info
  = restrict
      (filter (fun p =>
                 andb (negb (WC.not_updateable pkgs (WC.package self fs p)))
                      (andb (negb (String.eqb (WC._status self fs p) "A"))
                            (negb (contains p remote))))
         (WC.packages self)) /\
  WC.conflicted info
  = restrict
      ((filter (fun p => WC.not_updateable pkgs (WC.package self fs p))
          (WC.packages self)
        ++ filter (move (WC.candidate_conflict self fs pkgs)) tracked)
       ++ filter (move (WC.added_conflict self fs)) fresh).
Proof.
  unfold WC._calculate_updateinfo.
  rewrite sort_remote_lists, scan_local_lists. simpl app.
  set (tracked := filter (fun p => contains p (WC.packages self)) remote).
  set (fresh := filter (fun p => negb (contains p (WC.packages self))) remote).
  destruct (WC.move_conflicts (WC.candidate_conflict self fs pkgs)
              tracked tracked _) as [r3|e] eqn:H3; simpl; [|discriminate].
  apply (move_conflicts_lists _ tracked []) in H3; [|intros x []].
  subst r3. simpl app.
  destruct (WC.move_conflicts (WC.added_conflict self fs) fresh fresh _)
    as [r4|e] eqn:H4; simpl; [|discriminate].
  apply (move_conflicts_lists _ fresh []) in H4; [|intros x []].
  subst r4. simpl app.
  destruct selection; intros [= <-]; simpl; auto.
Qed.

End UpdateExact.

(** X1: which names the update classification lists, exactly.  When it
    returns, a name is a candidate iff it is remote, tracked, of a status
    other than ['A'] and ['!'], and its package working copy is updateable;
    it is added iff it is remote, untracked and no path of that name
    exists; it is deleted iff it is tracked, not remote, not of status
    ['A'] and has no package working copy that refuses the update; it is
    conflicted iff it is tracked with a package working copy that refuses
    the update, or remote and tracked with status ['A'] or ['!'], or remote
    and untracked while a path of that name exists.  A selection only
    restricts the four lists, and every selected remote name is in the
    candidates, the added or the conflicted list. *)
Theorem update_classification_exact (self : WC.Project) (fs : WC.FS)
  (pkgs : WC.Answers) (remote selection : list string)
  (info : WC.PackageUpdateInfo)
  (Hinfo : WC._calculate_updateinfo self fs pkgs remote selection = Ok info) :
  let selected x := selection = [] \/ In x selection in
  let refuses x :=
    exists h, WC.package self fs x = Some h /\
              WC.is_updateable pkgs h = false in
  (forall x, In x (WC.candidates info) <->
     selected x /\ In x remote /\ In x (WC.packages self) /\
     ~ In (WC._status self fs x) ["A"; "!"] /\
     exists h, WC.package self fs x = Some h /\
               WC.is_updateable pkgs h = true) /\
  (forall x, In x (WC.added info) <->
     selected x /\ In x remote /\ ~ In x (WC.packages self) /\
     WC.exists_ fs (os_path_join (WC.path self) x) = false) /\
  (forall x, In x (WC.deleted info) <->
     selected x /\ In x (WC.packages self) /\ ~ In x remote /\
     WC._status self fs x <> "A" /\ ~ refuses x) /\
  (forall x, In x (WC.conflicted info) <->
     selected x /\
     ((In x (WC.packages self) /\ refuses x) \/
      (In x remote /\ In x (WC.packages self) /\
       In (WC._status self fs x) ["A"; "!"]) \/
      (In x remote /\ ~ In x (WC.packages self) /\
       WC.exists_ fs (os_path_join (WC.path self) x) = true))) /\
  (forall x, selected x -> In x remote ->
     In x (WC.candidates info) \/ In x (WC.added info) \/
     In x (WC.conflicted info)).
Proof.
  cbv zeta.
  assert (Hsel : forall l x,
            In x (match selection with
                  | [] => l
                  | _ :: _ => WC.only_selected selection l
                  end) <-> (selection = [] \/ In x selection) /\ In x l).
  { intros l x. destruct selection as [|s0 sel].
    - tauto.
    - unfold WC.only_selected. rewrite filter_In, contains_In.
      split; [tauto|]. intros [[H|H] Hl]; [discriminate | tauto]. }
  assert (Huntracked : forall x, ~ In x (WC.packages self) ->
            WC._status self fs x = "?").
  { intros x Hx. apply status_untracked. now apply find_None_names. }
  destruct (updateinfo_lists self fs pkgs remote selection info Hinfo)
    as (Hc & Ha & Hd & Hcf).
  assert (Hcand : forall x, In x (WC.candidates info) <->
     (selection = [] \/ In x selection) /\ In x remote /\
     In x (WC.packages self) /\
     ~ In (WC._status self fs x) ["A"; "!"] /\
     exists h, WC.package self fs x = Some h /\
               WC.is_updateable pkgs h = true).
  { intros x. rewrite Hc, Hsel, !filter_In, contains_In.
    rewrite <- candidate_conflict_false.
    destruct (WC.candidate_conflict self fs pkgs x) as [[|]|e]; simpl;
      intuition congruence. }
  assert (Hadd : forall x, In x (WC.added info) <->
     (selection = [] \/ In x selection) /\ In x remote /\
     ~ In x (WC.packages self) /\
     WC.exists_ fs (os_path_join (WC.path self) x) = false).
  { intros x. rewrite Ha, Hsel, !filter_In, negb_true_iff, contains_not_In.
    unfold WC.added_conflict.
    split.
    - intros (Hs & (Hr & Hl) & Hk). rewrite (Huntracked x Hl) in Hk.
      simpl in Hk. apply negb_true_iff in Hk. tauto.
    - intros (Hs & Hr & Hl & He). rewrite (Huntracked x Hl), He. simpl. tauto. }
  assert (Hdel : forall x, In x (WC.deleted info) <->
     (selection = [] \/ In x selection) /\ In x (WC.packages self) /\
     ~ In x remote /\ WC._status self fs x <> "A" /\
     ~ (exists h, WC.package self fs x = Some h /\
                  WC.is_updateable pkgs h = false)).
  { intros x. rewrite Hd, Hsel, filter_In, !andb_true_iff, !negb_true_iff.
    rewrite contains_not_In, String.eqb_neq, <- not_updateable_true.
    destruct (WC.not_updateable pkgs (WC.package self fs x));
      intuition congruence. }
  assert (Hconf : forall x, In x (WC.conflicted info) <->
     (selection = [] \/ In x selection) /\
     ((In x (WC.packages self) /\
       exists h, WC.package self fs x = Some h /\
                 WC.is_updateable pkgs h = false) \/
      (In x remote /\ In x (WC.packages self) /\
       In (WC._status self fs x) ["A"; "!"]) \/
      (In x remote /\ ~ In x (WC.packages self) /\
       WC.exists_ fs (os_path_join (WC.path self) x) = true))).
  { intros x. rewrite Hcf, Hsel, !in_app_iff, !filter_In.
    rewrite negb_true_iff, contains_In, contains_not_In.
    rewrite not_updateable_true.
    split.
    - intros (Hs & [[H|((Hr & Hl) & Hm)]|((Hr & Hl) & Hm)]).
      + tauto.
      + destruct (WC.candidate_conflict self fs pkgs x) as [[|]|e] eqn:Hcc;
          try discriminate Hm.
        apply candidate_conflict_true in Hcc as [Hst|Href]; tauto.
      + unfold WC.added_conflict in Hm. rewrite (Huntracked x Hl) in Hm.
        simpl in Hm. tauto.
    - intros (Hs & [H|[(Hr & Hl & Hst)|(Hr & Hl & He)]]).
      + tauto.
      + split; [exact Hs|]. left. right. split; [tauto|].
        assert (Hcc : WC.candidate_conflict self fs pkgs x = Ok true)
          by (apply candidate_conflict_true; tauto).
        now rewrite Hcc.
      + split; [exact Hs|]. right. split; [tauto|].
        unfold WC.added_conflict. now rewrite (Huntracked x Hl), He. }
  split; [exact Hcand|]. split; [exact Hadd|]. split; [exact Hdel|].
  split; [exact Hconf|].
  intros x Hs Hr.
  destruct (in_dec string_dec x (WC.packages self)) as [Hl|Hl].
  - destruct (WC.candidate_conflict self fs pkgs x) as [[|]|e] eqn:Hcc.
    + right. right. apply Hconf. split; [exact Hs|].
      apply candidate_conflict_true in Hcc as [Hst|Href]; tauto.
    + left. apply Hcand. apply candidate_conflict_false in Hcc. tauto.
    + exfalso.
      assert (Hin : In x (filter (fun p => contains p (WC.packages self))
                            remote))
        by (rewrite filter_In, contains_In; tauto).
      clear - Hinfo Hin Hcc.
      unfold WC._calculate_updateinfo in Hinfo.
      rewrite sort_remote_lists, scan_local_lists in Hinfo. simpl app in Hinfo.
      destruct (WC.move_conflicts (WC.candidate_conflict self fs pkgs) _ _ _)
        as [r3|e3] eqn:H3; [|discriminate].
      destruct (move_conflicts_all_ok _ _ [] _ _ (fun y (Hy : In y []) =>
                  match Hy with end) H3 x Hin) as [b Hb].
      congruence.
  - destruct (WC.exists_ fs (os_path_join (WC.path self) x)) eqn:He.
    + right. right. apply Hconf. tauto.
    + right. left. apply Hadd. tauto.
Qed.

Lemma update_classification_exact_witness :
  In "xxx" (WC.conflicted
              {| WC.candidates := ["foo"; "abc"]; WC.added := ["osc"];
                 WC.deleted := ["del"]; WC.conflicted := ["xxx"] |}) <->
  (@nil string = [] \/ In "xxx" []) /\
  ((In "xxx" (WC.packages Scenario.prj2) /\
    exists h, WC.package Scenario.prj2 Scenario.prj2_fs "xxx" = Some h /\
              WC.is_updateable Scenario.clean h = false) \/
   (In "xxx" ["foo"; "abc"; "xxx"; "osc"] /\
    In "xxx" (WC.packages Scenario.prj2) /\
    In (WC._status Scenario.prj2 Scenario.prj2_fs "xxx") ["A"; "!"]) \/
   (In "xxx" ["foo"; "abc"; "xxx"; "osc"] /\
    ~ In "xxx" (WC.packages Scenario.prj2) /\
    WC.exists_ Scenario.prj2_fs (os_path_join (WC.path Scenario.prj2) "xxx")
    = true)).
Proof.
  destruct (update_classification_exact Scenario.prj2 Scenario.prj2_fs
              Scenario.clean ["foo"; "abc"; "xxx"; "osc"] [] _ eq_refl)
    as (_ & _ & _ & H & _).
  exact (H "xxx").
Defined.

Lemma move_conflicts_raises (cond : string -> result bool) (e0 : exn)
  (copy : list string) :
  forall kept cf,
    (forall x, In x kept -> cond x = Ok false) ->
    (forall x, In x copy -> cond x = Raise e0 \/ exists b, cond x = Ok b) ->
    (exists x, In x copy /\ cond x = Raise e0) ->
    WC.move_conflicts cond copy (kept ++ copy) cf = Raise e0.
Proof.
  induction copy as [|p copy IH]; simpl; intros kept cf Hkept Hall Hex.
  - destruct Hex as (x & [] & _).
  - destruct (Hall p (or_introl eq_refl)) as [Hp|[b Hp]]; rewrite Hp; simpl;
      [reflexivity|].
    assert (Hex' : exists x, In x copy /\ cond x = Raise e0).
    { destruct Hex as (x & [<-|Hx] & Hr); [congruence | eauto]. }
    destruct b.
    + rewrite list_remove_middle.
      * simpl. apply IH; auto.
      * intros Hin. apply Hkept in Hin. congruence.
    + replace (kept ++ p :: copy) with ((kept ++ [p]) ++ copy)
        by (rewrite <- app_assoc; reflexivity).
      apply IH; auto.
      intros x Hx. rewrite in_app_iff in Hx. simpl in Hx.
      destruct Hx as [Hx|[<-|[]]]; auto.
Qed.

Lemma find_tracked (p : string) (m : Manifest.t) (e : Manifest.entry) :
  Manifest.find p m = Some e -> In p (map Manifest.entry_name m).
Proof.
  intros H. destruct (in_dec string_dec p (map Manifest.entry_name m))
    as [Hin|Hout]; [exact Hin|].
  apply find_None_names in Hout. congruence.
Qed.

(** X2: on a manifest with states [' '], ['A'], ['D'], the update
    classification fails exactly when the remote lists a package that is
    marked ['D'] locally and whose directory holds no package working copy
    any more: it then raises AttributeError (it asks [None] whether it is
    updateable); in every other case it returns the four lists. *)
Theorem update_classification_fails_exactly (self : WC.Project) (fs : WC.FS)
  (pkgs : WC.Answers) (remote selection : list string)
  (Hwf : Manifest.well_formed (WC._packages self) = true) :
  let orphan p :=
    In p remote /\ WC._status self fs p = "D" /\
    WC.wc_is_package fs (os_path_join (WC.path self) p) = false in
  ((exists p, orphan p) ->
   WC._calculate_updateinfo self fs pkgs remote selection
   = Raise (AttributeError
              "'NoneType' object has no attribute 'is_updateable'")) /\
  (~ (exists p, orphan p) ->
   exists info,
     WC._calculate_updateinfo self fs pkgs remote selection = Ok info).
Proof.
  cbv zeta. split.
  - intros (p & Hr & Hst & Hpkg).
    assert (Htracked : In p (WC.packages self)).
    { unfold WC._status in Hst.
      destruct (Manifest.find p (WC._packages self)) as [e|] eqn:Hf;
        [|discriminate].
      exact (find_tracked _ _ _ Hf). }
    unfold WC._calculate_updateinfo.
    rewrite sort_remote_lists, scan_local_lists. simpl app.
    set (tracked := filter (fun q => contains q (WC.packages self)) remote).
    match goal with
    | |- context [WC.move_conflicts ?c tracked tracked ?cf] =>
        assert (Hraise : WC.move_conflicts c tracked tracked cf
                         = Raise (AttributeError
                             "'NoneType' object has no attribute 'is_updateable'"))
    end.
    { apply (move_conflicts_raises _ _ tracked []).
      - intros x [].
      - intros x _. unfold WC.candidate_conflict.
        destruct (contains _ _); [eauto|].
        destruct (WC.package self fs x); eauto.
      - exists p. split.
        + unfold tracked. rewrite filter_In, contains_In. tauto.
        + unfold WC.candidate_conflict, WC.package. rewrite Hst. simpl.
          now rewrite Hpkg. }
    rewrite Hraise. reflexivity.
  - intros Hnone. apply updateinfo_returns; [exact Hwf|].
    intros p Hr Hst.
    destruct (WC.wc_is_package fs (os_path_join (WC.path self) p)) eqn:Hpkg;
      [reflexivity|].
    exfalso. apply Hnone. exists p. tauto.
Qed.

Lemma update_classification_fails_exactly_witness :
  WC._calculate_updateinfo Scenario.prj2 Scenario.prj2_fs Scenario.clean
    ["foo"; "del"] []
  = Raise (AttributeError
             "'NoneType' object has no attribute 'is_updateable'").
Proof.
  destruct (update_classification_fails_exactly Scenario.prj2
              Scenario.prj2_fs Scenario.clean ["foo"; "del"] [] eq_refl)
    as [Hfails _].
  apply Hfails. exists "del". simpl. repeat split. now right; left.
Defined.

(** *** The commit classifier *)

Section CommitExact.
Variable self : WC.Project.
Variable fs : WC.FS.
Variable pkgs : WC.Answers.

Lemma classify_commit_appends (acc : WC.PackageCommitInfo) (p : string)
  (b : Spec.bucket) :
  Spec.bucket_list b (WC.classify_commit self fs pkgs acc p)
  = Spec.bucket_list b acc ++
    (if Vocabulary.bucket_eqb (Spec.commit_bucket self fs pkgs p) b
     then [p] else []).
Proof.
  unfold WC.classify_commit, Spec.commit_bucket. destruct acc as [u a d m c].
  destruct (String.eqb (WC._status self fs p) "A");
    [|destruct (String.eqb (WC._status self fs p) "D");
      [|destruct (WC.package self fs p) as [h|];
        [destruct (andb (WC.is_modified pkgs h) (WC.is_commitable pkgs h));
         [|destruct (negb (WC.is_commitable pkgs h))]|]]];
    destruct b; simpl; rewrite ?app_nil_r; reflexivity.
Qed.

Lemma commitinfo_lists (l : list string) :
  forall (acc : WC.PackageCommitInfo) (b : Spec.bucket),
    Spec.bucket_list b (fold_left (WC.classify_commit self fs pkgs) l acc)
    = Spec.bucket_list b acc ++
      filter (fun p =>
                Vocabulary.bucket_eqb (Spec.commit_bucket self fs pkgs p) b) l.
Proof.
  induction l as [|p l IH]; intros acc b; simpl.
  - now rewrite app_nil_r.
  - rewrite IH, classify_commit_appends, <- app_assoc.
    now destruct (Vocabulary.bucket_eqb _ b).
Qed.

Lemma buckets_partition (l : list string) :
  Permutation
    (concat
       (map (fun b =>
               filter (fun p =>
                         Vocabulary.bucket_eqb
                           (Spec.commit_bucket self fs pkgs p) b) l)
          [Spec.Unchanged; Spec.Added; Spec.Deleted; Spec.Modified;
           Spec.Conflicted]))
    l.
Proof.
  induction l as [|p l IH]; [reflexivity|].
  simpl in *. rewrite !app_nil_r in *.
  destruct (Spec.commit_bucket self fs pkgs p); simpl.
  - now constructor.
  - symmetry. apply Permutation_cons_app. now symmetry.
  - symmetry. rewrite app_assoc. apply Permutation_cons_app.
    rewrite <- app_assoc. now symmetry.
  - symmetry. rewrite 2!app_assoc. apply Permutation_cons_app.
    rewrite <- 2!app_assoc. now symmetry.
  - symmetry. rewrite 3!app_assoc. apply Permutation_cons_app.
    rewrite <- 3!app_assoc. now symmetry.
Qed.

End CommitExact.

(** X3: the commit classification is a partition of the names it is given
    (the selection, or the tracked packages when there is none): the five
    lists together hold every one of them exactly as often as it was given,
    each list keeps their order, and an untracked or missing name (status
    ['?'] or ['!']) is always among the conflicted. *)
Theorem commit_classification_partitions (self : WC.Project) (fs : WC.FS)
  (pkgs : WC.Answers) (selection : list string) :
  let info := WC._calculate_commitinfo self fs pkgs selection in
  Permutation (concat (Spec.commit_lists info))
    (Vocabulary.chosen self selection) /\
  (forall b,
     Spec.bucket_list b info
     = filter (fun p =>
                 Vocabulary.bucket_eqb (Spec.commit_bucket self fs pkgs p) b)
         (Vocabulary.chosen self selection)) /\
  (forall p, In p (Vocabulary.chosen self selection) ->
     In (WC._status self fs p) ["?"; "!"] ->
     In p (WC.c_conflicted info)).
Proof.
  cbv zeta.
  assert (Hlists : forall b,
     Spec.bucket_list b (WC._calculate_commitinfo self fs pkgs selection)
     = filter (fun p =>
                 Vocabulary.bucket_eqb (Spec.commit_bucket self fs pkgs p) b)
         (Vocabulary.chosen self selection)).
  { intros b. unfold WC._calculate_commitinfo.
    fold (Vocabulary.chosen self selection).
    rewrite commitinfo_lists. now destruct b. }
  split; [|split; [exact Hlists|]].
  - unfold Spec.commit_lists.
    pose proof (Hlists Spec.Unchanged) as H1.
    pose proof (Hlists Spec.Added) as H2.
    pose proof (Hlists Spec.Deleted) as H3.
    pose proof (Hlists Spec.Modified) as H4.
    pose proof (Hlists Spec.Conflicted) as H5.
    simpl in H1, H2, H3, H4, H5. rewrite H1, H2, H3, H4, H5.
    exact (buckets_partition self fs pkgs (Vocabulary.chosen self selection)).
  - intros p Hin Hst.
    change (In p (Spec.bucket_list Spec.Conflicted
                    (WC._calculate_commitinfo self fs pkgs selection))).
    rewrite Hlists, filter_In. split; [exact Hin|].
    unfold Spec.commit_bucket, WC.package.
    destruct Hst as [<-|[<-|[]]]; reflexivity.
Qed.

Lemma commit_classification_partitions_witness :
  In "xxx" (WC.c_conflicted
              (WC._calculate_commitinfo Scenario.prj2 Scenario.prj2_fs
                 Scenario.clean [])).
Proof.
  destruct (commit_classification_partitions Scenario.prj2 Scenario.prj2_fs
              Scenario.clean []) as (_ & _ & H).
  apply H.
  - simpl. tauto.
  - right. left. reflexivity.
Defined.

(* ===================================================================== *)
(** ** Further properties of add and remove                               *)
(* ===================================================================== *)

Lemma add_raises (w : WC.World) (pkg : string) :
  ~ (WC._status (WC.w_self w) (WC.w_fs w) pkg = "?" /\
     WC.isdir (WC.w_fs w) (os_path_join (WC.path (WC.w_self w)) pkg) = true /\
     WC.wc_is_project (WC.w_fs w) (os_path_join (WC.path (WC.w_self w)) pkg)
     = false /\
     WC.wc_is_package (WC.w_fs w) (os_path_join (WC.path (WC.w_self w)) pkg)
     = false) ->
  exists msg, WC.add pkg w = (Raise (ValueError msg), w).
Proof.
  intros Hnot. unfold WC.add, mbind, gets.
  destruct (String.eqb_spec (WC._status (WC.w_self w) (WC.w_fs w) pkg) "?")
    as [Hst|Hst]; cbn [negb]; [|eexists; reflexivity].
  destruct (WC.isdir (WC.w_fs w) _) eqn:Hdir; cbn [negb];
    [|eexists; reflexivity].
  destruct (WC.wc_is_project (WC.w_fs w) _) eqn:Hprj; cbn [orb];
    [eexists; reflexivity|].
  destruct (WC.wc_is_package (WC.w_fs w) _) eqn:Hpkg;
    [eexists; reflexivity|].
  tauto.
Qed.

Lemma find_add_other (p q s : string) (m : Manifest.t) :
  q <> p -> Manifest.find q (Manifest.add p s m) = Manifest.find q m.
Proof.
  intros Hne. unfold Manifest.add. induction m as [|e m IH]; simpl.
  - destruct (String.eqb_spec p q); [congruence | reflexivity].
  - now rewrite IH.
Qed.

(** X4: [add] is all or nothing.  It succeeds exactly when the name has
    status ['?'] and [<path>/<pkg>] is a directory that is no working copy
    yet; it then tracks the package with state ['A'], persists the
    manifest and leaves every other entry as it was.  In every other case
    it raises ValueError and nothing at all has changed: no store
    directory, no package working copy, no manifest entry. *)
Theorem add_all_or_nothing (w : WC.World) (pkg : string) :
  let dir := os_path_join (WC.path (WC.w_self w)) pkg in
  let addable :=
    WC._status (WC.w_self w) (WC.w_fs w) pkg = "?" /\
    WC.isdir (WC.w_fs w) dir = true /\
    WC.wc_is_project (WC.w_fs w) dir = false /\
    WC.wc_is_package (WC.w_fs w) dir = false in
  (addable ->
   exists w',
     WC.add pkg w = (Ok tt, w') /\
     WC._packages (WC.w_self w')
     = WC._packages (WC.w_self w) ++ [Manifest.Entry pkg "A"] /\
     WC.w_stored_packages w' = WC._packages (WC.w_self w') /\
     (forall q, q <> pkg ->
        Manifest.find q (WC._packages (WC.w_self w'))
        = Manifest.find q (WC._packages (WC.w_self w)))) /\
  (~ addable -> exists msg, WC.add pkg w = (Raise (ValueError msg), w)).
Proof.
  cbv zeta. split.
  - intros (Hst & Hdir & Hprj & Hpkg).
    destruct (add_runs w pkg Hst Hdir Hprj Hpkg)
      as (w' & Hadd & Hm & Hs & _).
    exists w'. repeat split; try assumption.
    intros q Hq. rewrite Hm. now apply find_add_other.
  - apply add_raises.
Qed.

Lemma add_all_or_nothing_witness :
  (exists w',
     WC.add "asdf" (Scenario.prj2_world Scenario.no_transaction)
     = (Ok tt, w')) /\
  (exists msg,
     WC.add "foo" (Scenario.prj2_world Scenario.no_transaction)
     = (Raise (ValueError msg), Scenario.prj2_world Scenario.no_transaction)).
Proof.
  split.
  - destruct (add_all_or_nothing
                (Scenario.prj2_world Scenario.no_transaction) "asdf")
      as [Hok _].
    destruct Hok as (w' & Hadd & _); [repeat split|].
    exists w'. exact Hadd.
  - destruct (add_all_or_nothing
                (Scenario.prj2_world Scenario.no_transaction) "foo")
      as [_ Hfail].
    apply Hfail. intros (Hst & _). discriminate Hst.
Defined.

(** X5: [add] cannot be repeated.  After [add(pkg)] has succeeded the
    package has status ['A'], and a second [add(pkg)] raises ValueError
    and changes nothing. *)
Theorem add_twice_raises (w w1 : WC.World) (pkg : string)
  (Huntracked : Manifest.find pkg (WC._packages (WC.w_self w)) = None)
  (Hadd : WC.add pkg w = (Ok tt, w1)) :
  WC._status (WC.w_self w1) (WC.w_fs w1) pkg = "A" /\
  exists msg, WC.add pkg w1 = (Raise (ValueError msg), w1).
Proof.
  assert (Hpre :
    WC._status (WC.w_self w) (WC.w_fs w) pkg = "?" /\
    WC.isdir (WC.w_fs w) (os_path_join (WC.path (WC.w_self w)) pkg) = true /\
    WC.wc_is_project (WC.w_fs w) (os_path_join (WC.path (WC.w_self w)) pkg)
    = false /\
    WC.wc_is_package (WC.w_fs w) (os_path_join (WC.path (WC.w_self w)) pkg)
    = false).
  { destruct (WC._status (WC.w_self w) (WC.w_fs w) pkg =? "?") eqn:E1;
      [|destruct (add_raises w pkg) as [msg Hr];
        [intros (H & _); apply String.eqb_eq in H; congruence
        |congruence]].
    apply String.eqb_eq in E1. split; [exact E1|].
    destruct (WC.isdir (WC.w_fs w) _) eqn:E2;
      [|destruct (add_raises w pkg) as [msg Hr];
        [intros (_ & H & _); congruence | congruence]].
    destruct (WC.wc_is_project (WC.w_fs w) _) eqn:E3;
      [destruct (add_raises w pkg) as [msg Hr];
        [intros (_ & _ & H & _); congruence | congruence]|].
    destruct (WC.wc_is_package (WC.w_fs w) _) eqn:E4;
      [destruct (add_raises w pkg) as [msg Hr];
        [intros (_ & _ & _ & H); congruence | congruence]|].
    auto. }
  destruct Hpre as (Hst & Hdir & Hprj & Hpkg).
  destruct (add_runs w pkg Hst Hdir Hprj Hpkg)
    as (w' & Hadd' & Hm & _ & Hpath & Hex & _).
  assert (w' = w1) by congruence. subst w'.
  destruct (find_add_fresh pkg "A" _ Huntracked) as [Hfind _].
  unfold Manifest.add in Hfind. rewrite <- Hm in Hfind.
  assert (HstA : WC._status (WC.w_self w1) (WC.w_fs w1) pkg = "A").
  { unfold WC._status. rewrite Hfind, Hpath, Hex. reflexivity. }
  split; [exact HstA|].
  apply add_raises. intros (H & _). rewrite HstA in H. discriminate H.
Qed.

Lemma add_twice_raises_witness :
  exists w1,
    WC.add "asdf" (Scenario.prj2_world Scenario.no_transaction) = (Ok tt, w1) /\
    exists msg, WC.add "asdf" w1 = (Raise (ValueError msg), w1).
Proof.
  exists (snd (WC.add "asdf" (Scenario.prj2_world Scenario.no_transaction))).
  split; [reflexivity|].
  exact (proj2 (add_twice_raises
                  (Scenario.prj2_world Scenario.no_transaction)
                  (snd (WC.add "asdf"
                          (Scenario.prj2_world Scenario.no_transaction)))
                  "asdf" eq_refl eq_refl)).
Defined.

Lemma remove_ok_inv (w w' : WC.World) (q : string) :
  WC.remove q w = (Ok tt, w') ->
  WC._status (WC.w_self w) (WC.w_fs w) q <> "?" /\
  WC._packages (WC.w_self w')
  = (if String.eqb (WC._status (WC.w_self w) (WC.w_fs w) q) "A"
     then Manifest.remove q (WC._packages (WC.w_self w))
     else Manifest.set q "D" (WC._packages (WC.w_self w))) /\
  WC.w_stored_packages w' = WC._packages (WC.w_self w') /\
  WC.w_fs w' = WC.w_fs w /\
  WC.path (WC.w_self w') = WC.path (WC.w_self w).
Proof.
  unfold WC.remove, mbind, gets.
  destruct (String.eqb_spec (WC._status (WC.w_self w) (WC.w_fs w) q) "?")
    as [E|E]; [discriminate|].
  destruct (String.eqb (WC._status (WC.w_self w) (WC.w_fs w) q) "A");
    intros [= <-]; simpl; auto.
Qed.

Lemma add_ok_inv (w w' : WC.World) (pkg : string) :
  WC.add pkg w = (Ok tt, w') ->
  WC._status (WC.w_self w) (WC.w_fs w) pkg = "?" /\
  WC._packages (WC.w_self w')
  = WC._packages (WC.w_self w) ++ [Manifest.Entry pkg "A"] /\
  WC.w_stored_packages w' = WC._packages (WC.w_self w').
Proof.
  intros Hadd.
  destruct (String.eqb_spec (WC._status (WC.w_self w) (WC.w_fs w) pkg) "?")
    as [Hst|Hst];
    [|destruct (add_raises w pkg) as [msg Hr]; [tauto | congruence]].
  destruct (WC.isdir (WC.w_fs w) (os_path_join (WC.path (WC.w_self w)) pkg))
    eqn:Hdir;
    [|destruct (add_raises w pkg) as [msg Hr];
      [intros (_ & H & _); congruence | congruence]].
  destruct (WC.wc_is_project (WC.w_fs w)
              (os_path_join (WC.path (WC.w_self w)) pkg)) eqn:Hprj;
    [destruct (add_raises w pkg) as [msg Hr];
      [intros (_ & _ & H & _); congruence | congruence]|].
  destruct (WC.wc_is_package (WC.w_fs w)
              (os_path_join (WC.path (WC.w_self w)) pkg)) eqn:Hpkg;
    [destruct (add_raises w pkg) as [msg Hr];
      [intros (_ & _ & _ & H); congruence | congruence]|].
  destruct (add_runs w pkg Hst Hdir Hprj Hpkg) as (w1 & Hadd' & Hm & Hs & _).
  assert (w1 = w') by congruence. subst w1. auto.
Qed.

Lemma set_set (q s : string) (m : Manifest.t) :
  Manifest.set q s (Manifest.set q s m) = Manifest.set q s m.
Proof.
  induction m as [|e m IH]; simpl; [reflexivity|].
  destruct (String.eqb_spec (Manifest.entry_name e) q) as [E|E]; simpl.
  - now rewrite String.eqb_refl.
  - destruct (String.eqb_spec (Manifest.entry_name e) q); [contradiction|].
    now rewrite IH.
Qed.

Lemma remove_names (q : string) (m : Manifest.t) :
  NoDup (map Manifest.entry_name m) ->
  NoDup (map Manifest.entry_name (Manifest.remove q m)) /\
  Manifest.find q (Manifest.remove q m) = None /\
  (forall x, In x (map Manifest.entry_name (Manifest.remove q m)) ->
             In x (map Manifest.entry_name m)).
Proof.
  induction m as [|e m IH]; simpl; intros Hnd.
  - repeat split; [constructor | tauto].
  - inversion Hnd as [|x l Hnotin Hnd']; subst.
    destruct (String.eqb_spec (Manifest.entry_name e) q) as [E|E].
    + repeat split; [assumption | | auto].
      apply find_None_names. congruence.
    + destruct (IH Hnd') as (IH1 & IH2 & IH3). simpl.
      destruct (String.eqb_spec (Manifest.entry_name e) q); [contradiction|].
      repeat split.
      * constructor; [|assumption]. intros Hin. apply IH3 in Hin. tauto.
      * assumption.
      * intros x [Hx|Hx]; auto.
Qed.

Lemma remove_well_formed (q : string) (m : Manifest.t) :
  Manifest.well_formed m = true ->
  Manifest.well_formed (Manifest.remove q m) = true.
Proof.
  unfold Manifest.well_formed.
  induction m as [|e m IH]; simpl; [reflexivity|].
  rewrite andb_true_iff. intros [He Hm].
  destruct (String.eqb (Manifest.entry_name e) q); [assumption|].
  simpl. now rewrite He, IH.
Qed.

Lemma set_well_formed (q : string) (m : Manifest.t) :
  Manifest.well_formed m = true ->
  Manifest.well_formed (Manifest.set q "D" m) = true.
Proof.
  unfold Manifest.well_formed.
  induction m as [|e m IH]; simpl; [reflexivity|].
  rewrite andb_true_iff. intros [He Hm].
  destruct (String.eqb (Manifest.entry_name e) q); simpl.
  - assumption.
  - now rewrite He, IH.
Qed.

Lemma set_names (q s : string) (m : Manifest.t) :
  map Manifest.entry_name (Manifest.set q s m) = map Manifest.entry_name m.
Proof.
  induction m as [|e m IH]; simpl; [reflexivity|].
  destruct (String.eqb_spec (Manifest.entry_name e) q) as [E|E]; simpl.
  - now rewrite E.
  - now rewrite IH.
Qed.

Lemma tracked_status_not_unknown (self : WC.Project) (fs : WC.FS)
  (p : string) :
  Manifest.well_formed (WC._packages self) = true ->
  WC._status self fs p = "?" ->
  Manifest.find p (WC._packages self) = None.
Proof.
  intros Hwf Hst.
  destruct (Manifest.find p (WC._packages self)) as [e|] eqn:Hf;
    [|reflexivity].
  pose proof (tracked_status self fs p Hwf (find_tracked _ _ _ Hf)) as Hin.
  rewrite Hst in Hin. simpl in Hin.
  destruct Hin as [H|[H|[H|[H|[]]]]]; discriminate H.
Qed.

(** X6: a package that was added but whose directory has since vanished
    has status ['!'], and [remove] does not drop its entry as it does for
    status ['A']: it marks it ['D'], so that the next commit classifies as
    deleted a package that was never committed. *)
Theorem remove_missing_added_marks_deleted (w : WC.World) (q : string)
  (e : Manifest.entry) (pkgs : WC.Answers)
  (Hfind : Manifest.find q (WC._packages (WC.w_self w)) = Some e)
  (Hstate : Manifest.entry_state e = "A")
  (Hmissing : WC.exists_ (WC.w_fs w) (os_path_join (WC.path (WC.w_self w)) q)
              = false) :
  WC._status (WC.w_self w) (WC.w_fs w) q = "!" /\
  exists w',
    WC.remove q w = (Ok tt, w') /\
    Manifest.find q (WC._packages (WC.w_self w'))
    = Some (Manifest.Entry q "D") /\
    WC.packages (WC.w_self w') = WC.packages (WC.w_self w) /\
    Spec.commit_bucket (WC.w_self w') (WC.w_fs w') pkgs q = Spec.Deleted.
Proof.
  assert (Hst : WC._status (WC.w_self w) (WC.w_fs w) q = "!").
  { unfold WC._status. now rewrite Hfind, Hmissing, Hstate. }
  split; [exact Hst|].
  destruct (find_set q "D" _ _ Hfind) as [Hfind' Hnames].
  eexists. unfold WC.remove, mbind, gets. rewrite Hst. simpl.
  split; [reflexivity|]. simpl.
  repeat split; [exact Hfind' | exact Hnames |].
  unfold Spec.commit_bucket, WC._status. simpl. rewrite Hfind'. simpl.
  now destruct (WC.exists_ (WC.w_fs w) _).
Qed.

Lemma remove_missing_added_marks_deleted_witness :
  exists w',
    WC.remove "bar"
      {| WC.w_self := Scenario.prj2; WC.w_fs := Scenario.prj1_fs;
         WC.w_pkgs := Scenario.clean;
         WC.w_stored_packages := WC._packages Scenario.prj2;
         WC.w_disk := Scenario.no_transaction; WC.w_init_calls := [] |}
    = (Ok tt, w') /\
    Manifest.find "bar" (WC._packages (WC.w_self w'))
    = Some (Manifest.Entry "bar" "D").
Proof.
  destruct (remove_missing_added_marks_deleted
              {| WC.w_self := Scenario.prj2; WC.w_fs := Scenario.prj1_fs;
                 WC.w_pkgs := Scenario.clean;
                 WC.w_stored_packages := WC._packages Scenario.prj2;
                 WC.w_disk := Scenario.no_transaction;
                 WC.w_init_calls := [] |}
              "bar" (Manifest.Entry "bar" "A") Scenario.clean
              eq_refl eq_refl eq_refl) as [_ (w' & Hr & Hf & _)].
  exists w'. auto.
Defined.

Lemma remove_runs (w : WC.World) (q : string) :
  WC._status (WC.w_self w) (WC.w_fs w) q <> "?" ->
  WC.remove q w
  = (Ok tt,
     snd (WC.packages_write
            (WC.set_packages
               (if String.eqb (WC._status (WC.w_self w) (WC.w_fs w) q) "A"
                then Manifest.remove q (WC._packages (WC.w_self w))
                else Manifest.set q "D" (WC._packages (WC.w_self w)))
               w))).
Proof.
  intros Hst. unfold WC.remove, mbind, gets.
  destruct (String.eqb_spec (WC._status (WC.w_self w) (WC.w_fs w) q) "?")
    as [E|_]; [contradiction|].
  now destruct (String.eqb (WC._status (WC.w_self w) (WC.w_fs w) q) "A").
Qed.

Lemma status_marked_deleted (self : WC.Project) (fs : WC.FS) (q : string) :
  Manifest.find q (WC._packages self) = Some (Manifest.Entry q "D") ->
  WC._status self fs q = "D".
Proof.
  intros H. unfold WC._status. rewrite H. simpl.
  now destruct (WC.exists_ fs _).
Qed.

(** X7: removing twice.  With distinct names and states [' '], ['A'],
    ['D'] in the manifest, [remove] of a tracked package succeeds; when its
    status was ['A'] the entry is gone and a second [remove] raises
    ValueError, and in every other case a second [remove] succeeds and
    changes nothing more. *)
Theorem remove_twice (w : WC.World) (q : string) (e : Manifest.entry)
  (Hwf : Manifest.well_formed (WC._packages (WC.w_self w)) = true)
  (Hnodup : NoDup (WC.packages (WC.w_self w)))
  (Hfind : Manifest.find q (WC._packages (WC.w_self w)) = Some e) :
  exists w1,
    WC.remove q w = (Ok tt, w1) /\
    (WC._status (WC.w_self w) (WC.w_fs w) q = "A" ->
     exists msg, WC.remove q w1 = (Raise (ValueError msg), w1)) /\
    (WC._status (WC.w_self w) (WC.w_fs w) q <> "A" ->
     WC.remove q w1 = (Ok tt, w1)).
Proof.
  assert (Hknown : WC._status (WC.w_self w) (WC.w_fs w) q <> "?").
  { intros H. apply tracked_status_not_unknown in H; [congruence | exact Hwf]. }
  eexists. split; [exact (remove_runs w q Hknown)|].
  split; intros HA.
  - rewrite HA. simpl String.eqb.
    destruct (remove_names q _ Hnodup) as (_ & Hnone & _).
    match goal with
    | |- context [WC.remove q ?W] =>
        assert (Hs : WC._status (WC.w_self W) (WC.w_fs W) q = "?")
          by (apply status_untracked; exact Hnone)
    end.
    eexists. unfold WC.remove, mbind, gets. rewrite Hs. reflexivity.
  - apply String.eqb_neq in HA. rewrite HA.
    destruct (find_set q "D" _ _ Hfind) as [Hfind' _].
    match goal with
    | |- WC.remove q ?W = _ =>
        assert (Hs : WC._status (WC.w_self W) (WC.w_fs W) q = "D")
          by (apply status_marked_deleted; exact Hfind')
    end.
    rewrite remove_runs; rewrite Hs; [|discriminate].
    simpl. rewrite set_set. reflexivity.
Qed.

Lemma remove_twice_witness :
  exists w1,
    WC.remove "foo" (Scenario.prj2_world Scenario.no_transaction)
    = (Ok tt, w1) /\
    WC.remove "foo" w1 = (Ok tt, w1).
Proof.
  destruct (remove_twice (Scenario.prj2_world Scenario.no_transaction) "foo"
              (Manifest.Entry "foo" " ") eq_refl) as (w1 & H1 & _ & H2).
  - repeat constructor; simpl; intuition discriminate.
  - reflexivity.
  - exists w1. split; [exact H1|]. apply H2. discriminate.
Defined.

(** X8: [add] and [remove] keep the manifest in order.  If the names of
    the manifest are distinct and its states are [' '], ['A'] or ['D'],
    the same holds after a successful [add] or [remove], and the manifest
    on disk is the manifest in memory. *)
Theorem add_remove_keep_manifest_invariant (w w' : WC.World) (p : string)
  (Hwf : Manifest.well_formed (WC._packages (WC.w_self w)) = true)
  (Hnodup : NoDup (WC.packages (WC.w_self w)))
  (Hop : WC.add p w = (Ok tt, w') \/ WC.remove p w = (Ok tt, w')) :
  Manifest.well_formed (WC._packages (WC.w_self w')) = true /\
  NoDup (WC.packages (WC.w_self w')) /\
  WC.w_stored_packages w' = WC._packages (WC.w_self w').
Proof.
  destruct Hop as [Hadd|Hrem].
  - apply add_ok_inv in Hadd as (Hst & Hm & Hs).
    apply tracked_status_not_unknown in Hst; [|exact Hwf].
    apply find_None_names in Hst.
    unfold WC.packages in *. split; [|split; [|exact Hs]]; rewrite Hm.
    + unfold Manifest.well_formed in *. rewrite forallb_app, Hwf. reflexivity.
    + rewrite map_app. simpl.
      apply NoDup_app; [assumption | repeat constructor; tauto | ].
      intros x Hx [<-|[]]. contradiction.
  - apply remove_ok_inv in Hrem as (_ & Hm & Hs & _).
    unfold WC.packages in *. split; [|split; [|exact Hs]]; rewrite Hm;
      destruct (String.eqb _ "A").
    + now apply remove_well_formed.
    + now apply set_well_formed.
    + now apply remove_names.
    + now rewrite set_names.
Qed.

Lemma add_remove_keep_manifest_invariant_witness :
  NoDup (WC.packages
           (WC.w_self
              (snd (WC.add "asdf"
                      (Scenario.prj2_world Scenario.no_transaction))))).
Proof.
  refine (proj1 (proj2 (add_remove_keep_manifest_invariant
            (Scenario.prj2_world Scenario.no_transaction) _ "asdf"
            eq_refl _ (or_introl eq_refl)))).
  repeat constructor; simpl; intuition discriminate.
Defined.

(* ===================================================================== *)
(** ** Reading a RemoteFile                                               *)
(* ===================================================================== *)

(** *** Prefixes and suffixes of strings *)

Lemma substring_all (s : string) : substring 0 (String.length s) s = s.
Proof. induction s as [|c s IH]; simpl; [reflexivity | now rewrite IH]. Qed.

Lemma take_drop (n : nat) :
  forall s, (substring 0 n s ++ substring n (String.length s - n) s)%string = s.
Proof.
  induction n as [|n IH]; intros s.
  - rewrite Nat.sub_0_r, substring_all. now destruct s.
  - destruct s as [|c s]; simpl; [reflexivity|]. now rewrite IH.
Qed.

Lemma take_length (n : nat) :
  forall s, String.length (substring 0 n s) = Nat.min n (String.length s).
Proof.
  induction n as [|n IH]; intros s.
  - now destruct s.
  - destruct s as [|c s]; simpl; [reflexivity|]. now rewrite IH.
Qed.

Lemma take_whole (n : nat) :
  forall s, String.length s <= n -> substring 0 n s = s.
Proof.
  induction n as [|n IH]; intros s Hlen.
  - destruct s; [reflexivity | simpl in Hlen; lia].
  - destruct s as [|c s]; simpl; [reflexivity|].
    rewrite IH; [reflexivity | simpl in Hlen; lia].
Qed.

Lemma drop_whole (n : nat) :
  forall s, String.length s <= n ->
            substring n (String.length s - n) s = "".
Proof.
  induction n as [|n IH]; intros s Hlen.
  - destruct s; [reflexivity | simpl in Hlen; lia].
  - destruct s as [|c s]; simpl; [reflexivity|].
    apply IH. simpl in Hlen. lia.
Qed.

Lemma drop_length (n : nat) :
  forall s, String.length (substring n (String.length s - n) s)
            = String.length s - n.
Proof.
  induction n as [|n IH]; intros s.
  - now rewrite Nat.sub_0_r, substring_all.
  - destruct s as [|c s]; simpl; [reflexivity|]. apply IH.
Qed.

Lemma take_plus (n m : nat) :
  forall s,
    substring 0 (n + m) s
    = (substring 0 n s
       ++ substring 0 m (substring n (String.length s - n) s))%string.
Proof.
  induction n as [|n IH]; intros s.
  - simpl. rewrite Nat.sub_0_r, substring_all. now destruct s.
  - destruct s as [|c s]; simpl.
    + now destruct m.
    + now rewrite IH.
Qed.

Lemma app_length_string (a b : string) :
  String.length (a ++ b)%string = String.length a + String.length b.
Proof. induction a as [|c a IH]; simpl; [reflexivity | now rewrite IH]. Qed.

Lemma app_empty_r (a : string) : (a ++ "")%string = a.
Proof. induction a as [|c a IH]; simpl; [reflexivity | now rewrite IH]. Qed.

Lemma app_assoc_string (a b c : string) :
  ((a ++ b) ++ c)%string = (a ++ b ++ c)%string.
Proof. induction a as [|x a IH]; simpl; [reflexivity | now rewrite IH]. Qed.

(** *** read *)

Lemma fobj_read_take_drop (size : Z) (data : string) :
  (0 <= size)%Z ->
  Remote.fobj_read size data
  = (substring 0 (Z.to_nat size) data,
     substring (Z.to_nat size) (String.length data - Z.to_nat size) data).
Proof.
  intros H. unfold Remote.fobj_read.
  destruct (Z.ltb_spec size 0); [lia | reflexivity].
Qed.

Lemma fobj_read_conserves (size : Z) (data : string) :
  (fst (Remote.fobj_read size data) ++ snd (Remote.fobj_read size data))%string
  = data.
Proof.
  unfold Remote.fobj_read. destruct (size <? 0)%Z; simpl.
  - apply app_empty_r.
  - apply take_drop.
Qed.

Lemma read_fetched (request : Remote.RequestObj) (size : Z) (data : string)
  (s : Remote.St) :
  Remote.read request size (Remote.set_fobj data s)
  = (Ok (fst (Remote.fobj_read size data)),
     Remote.set_fobj (snd (Remote.fobj_read size data)) s).
Proof.
  destruct s as [self calls].
  unfold Remote.read, mbind, gets, modify, ret. simpl.
  destruct (Remote.fobj_read size data). reflexivity.
Qed.

Lemma read_fresh (request : Remote.RequestObj) (size : Z)
  (self : Remote.RemoteFile) (calls : list Remote.HttpCall) :
  Remote._fobj self = None ->
  Remote.has_attr request (lower (Remote.method self)) = true ->
  let call := {| Remote.http_attr := lower (Remote.method self);
                 Remote.http_path := Remote.path self;
                 Remote.http_kwargs := Remote.kwargs self |} in
  Remote.read request size (self, calls)
  = (Ok (fst (Remote.fobj_read size (Remote.body request call))),
     Remote.set_fobj (snd (Remote.fobj_read size (Remote.body request call)))
       (self, calls ++ [call])).
Proof.
  intros Hnone Hget. cbv zeta.
  unfold Remote.read, Remote._read, Remote._get_http_method,
    mbind, gets, lift, modify, ret.
  simpl. rewrite Hnone. simpl. rewrite Hget. simpl.
  destruct (Remote.fobj_read size _). reflexivity.
Qed.

Lemma read_unsupported (request : Remote.RequestObj) (size : Z)
  (self : Remote.RemoteFile) (calls : list Remote.HttpCall) :
  Remote._fobj self = None ->
  Remote.has_attr request (lower (Remote.method self)) = false ->
  Remote.read request size (self, calls)
  = (Raise (ValueError ("http request object doesn't support method: "
                        ++ Remote.method self)),
     (self, calls)).
Proof.
  intros Hnone Hget.
  unfold Remote.read, Remote._read, Remote._get_http_method,
    mbind, gets, lift, modify, ret.
  simpl. rewrite Hnone. simpl. rewrite Hget. reflexivity.
Qed.

(** *** The chunks of __iter__ *)

Lemma iter_loop_empty (fuel : nat) (request : Remote.RequestObj) (rsize : Z)
  (size : Z) (s : Remote.St) :
  RemoteIter.iter_loop fuel request rsize "" size s = (Ok [], s).
Proof. destruct fuel; reflexivity. Qed.

Lemma iter_loop_spec (request : Remote.RequestObj) (r : Z) (s0 : Remote.St) :
  (0 < r)%Z ->
  forall fuel T size,
    String.length
      (substring (Z.to_nat r) (String.length T - Z.to_nat r) T) + 2 <= fuel ->
    exists chunks rest,
      RemoteIter.iter_loop fuel request r (substring 0 (Z.to_nat r) T) size
        (Remote.set_fobj
           (substring (Z.to_nat r) (String.length T - Z.to_nat r) T) s0)
      = (Ok chunks, Remote.set_fobj rest s0) /\
      fold_right String.append "" chunks
      = (if andb (0 <? size)%Z (size mod r =? 0)%Z
         then substring 0 (Z.to_nat size) T else T) /\
      Forall (fun c => c <> "" /\ String.length c <= Z.to_nat r) chunks.
Proof.
  intros Hr. remember (Z.to_nat r) as rn eqn:Ern.
  assert (Hrn : 0 < rn) by lia.
  induction fuel as [|fuel IH]; intros T size Hfuel; [lia|].
  remember (substring 0 rn T) as d eqn:Ed.
  remember (substring rn (String.length T - rn) T) as u eqn:Eu.
  assert (HT : (d ++ u)%string = T) by (subst d u; apply take_drop).
  assert (Hdlen : String.length d = Nat.min rn (String.length T))
    by (subst d; apply take_length).
  assert (Hulen : String.length u = String.length T - rn)
    by (subst u; apply drop_length).
  cbn [RemoteIter.iter_loop].
  destruct (String.eqb_spec d "") as [Hd|Hd].
  - (* nothing left *)
    assert (HTe : T = "").
    { destruct T; [reflexivity|]. rewrite Hd in Hdlen. simpl in Hdlen. lia. }
    exists [], u. split; [reflexivity|]. split; [|constructor].
    rewrite HTe. simpl. now destruct (andb _ _), (Z.to_nat size).
  - assert (Hdpos : 0 < String.length d)
      by (destruct d; [congruence | simpl; lia]).
    destruct (Z.eqb_spec (size - Z.of_nat (String.length d)) 0) as [Hs|Hs].
    + (* the requested size is reached *)
      exists [d], u. split; [reflexivity|].
      split; [|repeat constructor; [exact Hd | lia]].
      simpl. rewrite app_empty_r.
      destruct (Nat.le_gt_cases rn (String.length T)) as [Hfull|Hshort].
      * assert (size = r) by lia. subst size.
        rewrite Z_mod_same_full, Z.eqb_refl.
        destruct (Z.ltb_spec 0 r); [|lia]. simpl. now rewrite <- Ern.
      * assert (Hsmall : (0 < size < r)%Z) by lia.
        rewrite Z.mod_small by lia.
        destruct (Z.eqb_spec size 0); [lia|]. rewrite andb_false_r.
        rewrite Ed. apply take_whole. lia.
    + (* another round *)
      unfold mbind at 1. rewrite read_fetched.
      rewrite fobj_read_take_drop by lia. cbn [fst snd]. rewrite <- Ern.
      destruct (String.eqb_spec u "") as [Hu|Hu].
      * (* that was the last chunk *)
        rewrite Hu. cbn [String.length Nat.sub].
        replace (substring 0 rn "") with "" by (now destruct rn).
        replace (substring rn 0 "") with "" by (now destruct rn).
        unfold mbind. rewrite iter_loop_empty.
        exists [d], "". split; [reflexivity|].
        split; [|repeat constructor; [exact Hd | lia]].
        simpl. rewrite app_empty_r.
        rewrite Hu, app_empty_r in HT.
        destruct (andb _ _) eqn:Hc; [|exact HT].
        apply andb_prop in Hc as [Hpos Hmod].
        apply Z.ltb_lt in Hpos. apply Z.eqb_eq in Hmod.
        rewrite <- HT. symmetry. apply take_whole.
        assert (Hdiv : (r | size)%Z) by (apply Z.mod_divide; lia).
        destruct Hdiv as [k Hk].
        assert (Hk1 : (0 < k)%Z) by (apply (Z.mul_pos_cancel_r k r); lia).
        assert (r <= size)%Z by (clear - Hk Hk1 Hr; nia).
        lia.
      * (* more data follows *)
        assert (Hupos : 0 < String.length u)
          by (destruct u; [congruence | simpl; lia]).
        assert (Hfull : rn <= String.length T) by lia.
        assert (Hdr : String.length d = rn) by lia.
        destruct (IH u (size - Z.of_nat (String.length d))%Z)
          as (chunks & rest & Hrun & Hcat & Hall).
        { rewrite drop_length. lia. }
        unfold mbind. rewrite Hrun.
        exists (d :: chunks), rest. split; [reflexivity|].
        split; [|constructor; [split; [exact Hd | lia] | exact Hall]].
        cbn [fold_right]. rewrite Hcat. clear Hrun Hcat Hall IH.
        rewrite Hdr.
        replace (Z.of_nat rn) with r by lia.
        replace ((size - r) mod r)%Z with (size mod r)%Z
          by (replace (size - r)%Z with (size + (-1) * r)%Z by lia;
              now rewrite Z_mod_plus_full).
        destruct (Z.eqb_spec (size mod r) 0) as [Hmod|Hmod];
          [|rewrite !andb_false_r; exact HT].
        rewrite !andb_true_r.
        assert (Hdiv : (r | size)%Z) by (apply Z.mod_divide; lia).
        destruct Hdiv as [k Hk].
        destruct (Z.ltb_spec 0 size) as [Hpos|Hneg].
        -- assert (Hk1 : (0 < k)%Z) by (apply (Z.mul_pos_cancel_r k r); lia).
           assert (Hk2 : k <> 1%Z) by (intros ->; lia).
           assert (2 * r <= size)%Z by (clear - Hk Hk1 Hk2 Hr; nia).
           destruct (Z.ltb_spec 0 (size - r)); [|lia].
           replace (Z.to_nat size) with (rn + Z.to_nat (size - r)) by lia.
           rewrite take_plus, <- Ed, <- Eu. reflexivity.
        -- destruct (Z.ltb_spec 0 (size - r)); [lia|]. exact HT.
Qed.

Lemma fold_left_append (chunks : list string) :
  forall dest,
    fold_left (fun written data => String.append written data) chunks dest
    = (dest ++ fold_right String.append "" chunks)%string.
Proof.
  induction chunks as [|c chunks IH]; intros dest; simpl.
  - now rewrite app_empty_r.
  - now rewrite IH, app_assoc_string.
Qed.

Lemma iter_fresh (request : Remote.RequestObj) (path : string) (bufsize : Z)
  (m : string) (kw : list (string * string)) (size : Z) :
  (0 < bufsize)%Z ->
  Remote.has_attr request "get" = true ->
  let call := {| Remote.http_attr := "get"; Remote.http_path := path;
                 Remote.http_kwargs := kw |} in
  let b := Remote.body request call in
  exists chunks s',
    RemoteIter.__iter__ request size (Remote.__init__ path bufsize m kw, [])
    = (Ok chunks, s') /\
    snd s' = [call] /\
    fold_right String.append "" chunks
    = (if (size <? 0)%Z then b
       else if (size <? bufsize)%Z then substring 0 (Z.to_nat size) b
       else if (size mod bufsize =? 0)%Z then substring 0 (Z.to_nat size) b
       else b) /\
    Forall (fun c => c <> "" /\ String.length c <= Z.to_nat bufsize) chunks.
Proof.
  intros HB Hget call b.
  unfold RemoteIter.__iter__, mbind at 1, gets at 1.
  cbn [fst Remote.__init__ Remote.stream_bufsize].
  set (rs := if andb (0 <=? size)%Z (size <? bufsize)%Z then size else bufsize).
  unfold mbind at 1.
  rewrite (read_fresh request rs (Remote.__init__ path bufsize m kw) []
             eq_refl Hget).
  cbn [Remote.__init__ Remote.method Remote.path Remote.kwargs app].
  change (lower "GET") with "get". fold call. fold b.
  unfold mbind at 1, gets at 1.
  destruct (Z.eq_dec rs 0) as [Hz|Hnz].
  - (* size = 0 *)
    assert (Hsz : size = 0%Z).
    { unfold rs in Hz. destruct (andb _ _) eqn:Hc; [exact Hz | lia]. }
    rewrite Hz. unfold Remote.fobj_read. simpl Z.ltb. simpl Z.to_nat.
    replace (substring 0 0 b) with "" by (now destruct b).
    cbn [fst snd]. rewrite iter_loop_empty.
    eexists _, _. split; [reflexivity|]. split; [reflexivity|].
    split; [|constructor].
    subst size. destruct (Z.ltb_spec 0 bufsize); [|lia]. simpl.
    now destruct b.
  - assert (Hrs : (0 < rs)%Z).
    { unfold rs in *. destruct (andb _ _) eqn:Hc; [|lia].
      apply andb_prop in Hc as [H1 H2]. apply Z.leb_le in H1. lia. }
    rewrite fobj_read_take_drop by lia. cbn [fst snd].
    destruct (iter_loop_spec request rs
                (Remote.__init__ path bufsize m kw, [call]) Hrs
                (S (S (String.length (RemoteIter.unread
                   (Remote.set_fobj
                      (substring (Z.to_nat rs)
                         (String.length b - Z.to_nat rs) b)
                      (Remote.__init__ path bufsize m kw, [call]))))))
                b size) as (chunks & rest & Hrun & Hcat & Hall).
    { unfold RemoteIter.unread. simpl. lia. }
    rewrite Hrun. exists chunks, (Remote.set_fobj rest
                                   (Remote.__init__ path bufsize m kw, [call])).
    split; [reflexivity|]. split; [reflexivity|]. split.
    + rewrite Hcat. unfold rs. clear Hrun Hcat Hall.
      destruct (Z.ltb_spec size 0) as [Hneg|Hnn].
      * destruct (Z.leb_spec 0 size); [lia|]. simpl.
        destruct (Z.ltb_spec 0 size); [lia | reflexivity].
      * destruct (Z.leb_spec 0 size); [|lia]. simpl.
        destruct (Z.ltb_spec size bufsize) as [Hlt|Hge].
        -- assert (size <> 0%Z).
           { intros ->. apply Hnz. unfold rs.
             destruct (Z.ltb_spec 0 bufsize); [reflexivity | lia]. }
           rewrite Z_mod_same_full, Z.eqb_refl.
           destruct (Z.ltb_spec 0 size); [reflexivity | lia].
        -- destruct (Z.ltb_spec 0 size); [reflexivity | lia].
    + eapply Forall_impl; [|exact Hall].
      intros c [Hc Hlen]. split; [exact Hc|].
      unfold rs in Hlen. destruct (andb _ _) eqn:Hc'; [|exact Hlen].
      apply andb_prop in Hc' as [_ H2]. apply Z.ltb_lt in H2. lia.
Qed.

(** X9: the chunks of a RemoteFile.  On a fresh object with a positive
    buffer size, whose request object has a [get] method, [__iter__(size)]
    issues one request and yields non-empty chunks of at most
    [stream_bufsize] characters, and [_write_to] appends just these chunks
    to its destination.  Together the chunks are the whole body when
    [size] is negative, and the first [size] characters of the body when
    [size] is smaller than the buffer size or a multiple of it; for any
    other [size] they are the whole body again, because the countdown
    never reaches zero: more than [size] characters are then written when
    the body is longer. *)
Theorem remote_file_chunks (request : Remote.RequestObj) (path : string)
  (bufsize : Z) (m : string) (kw : list (string * string)) (size : Z)
  (dest : string)
  (Hbuf : (0 < bufsize)%Z)
  (Hget : Remote.has_attr request "get" = true) :
  let call := {| Remote.http_attr := "get"; Remote.http_path := path;
                 Remote.http_kwargs := kw |} in
  let b := Remote.body request call in
  let written :=
    if (size <? 0)%Z then b
    else if (size <? bufsize)%Z then substring 0 (Z.to_nat size) b
    else if (size mod bufsize =? 0)%Z then substring 0 (Z.to_nat size) b
    else b in
  (exists chunks s',
     RemoteIter.__iter__ request size (Remote.__init__ path bufsize m kw, [])
     = (Ok chunks, s') /\
     snd s' = [call] /\
     fold_right String.append "" chunks = written /\
     Forall (fun c => c <> "" /\ String.length c <= Z.to_nat bufsize) chunks) /\
  (exists s',
     RemoteIter._write_to request dest size
       (Remote.__init__ path bufsize m kw, [])
     = (Ok (dest ++ written)%string, s') /\
     snd s' = [call]) /\
  ((bufsize < size)%Z -> (size mod bufsize <> 0)%Z ->
   Z.to_nat size < String.length b ->
   written = b /\ Z.to_nat size < String.length written).
Proof.
  cbv zeta.
  destruct (iter_fresh request path bufsize m kw size Hbuf Hget)
    as (chunks & s' & Hrun & Hcalls & Hcat & Hall).
  split; [|split].
  - exists chunks, s'. auto.
  - exists s'. split; [|exact Hcalls].
    unfold RemoteIter._write_to, mbind. rewrite Hrun. unfold ret.
    now rewrite fold_left_append, Hcat.
  - intros Hlt Hmod Hlong.
    destruct (Z.ltb_spec size 0); [lia|].
    destruct (Z.ltb_spec size bufsize); [lia|].
    destruct (Z.eqb_spec (size mod bufsize) 0); [contradiction|].
    auto.
Qed.

Lemma remote_file_chunks_witness :
  exists s',
    RemoteIter._write_to Scenario.get_only "" 5
      (Remote.__init__ "/source/prj2" 4 "GET" [], [])
    = (Ok "<directory/>", s').
Proof.
  destruct (remote_file_chunks Scenario.get_only "/source/prj2" 4 "GET" [] 5
              "" eq_refl eq_refl) as (_ & (s' & Hw & _) & _).
  exists s'. exact Hw.
Defined.

Lemma read_all_fetched (request : Remote.RequestObj) (s0 : Remote.St)
  (sizes : list Z) :
  forall data,
    exists outs rest,
      RemoteIter.read_all request sizes (Remote.set_fobj data s0)
      = (Ok outs, Remote.set_fobj rest s0) /\
      (fold_right String.append "" outs ++ rest)%string = data /\
      Forall2 (fun size out =>
                 (0 <= size)%Z -> String.length out <= Z.to_nat size)
        sizes outs.
Proof.
  induction sizes as [|size sizes IH]; intros data.
  - exists [], data. repeat split. constructor.
  - destruct (IH (snd (Remote.fobj_read size data)))
      as (outs & rest & Hrun & Hcat & Hlen).
    exists (fst (Remote.fobj_read size data) :: outs), rest.
    cbn [RemoteIter.read_all]. unfold mbind at 1. rewrite read_fetched.
    unfold mbind. rewrite Hrun. split; [reflexivity|]. split.
    + cbn [fold_right]. rewrite app_assoc_string, Hcat.
      apply fobj_read_conserves.
    + constructor; [|exact Hlen].
      intros Hnn. rewrite fobj_read_take_drop by exact Hnn. cbn [fst].
      rewrite take_length. lia.
Qed.

(** X10: reads never lose or repeat data, and fetch once.  On a fresh
    RemoteFile whose request object has a [get] method, any non-empty
    sequence of reads issues exactly one request; what the reads return,
    in order, followed by what is still unread, is the body of the
    response, and a read of a size that is not negative returns at most
    that many characters.  Without a [get] method a read raises ValueError,
    issues no request and leaves the object as it was. *)
Theorem remote_file_reads_conserve (request : Remote.RequestObj)
  (path : string) (bufsize : Z) (m : string) (kw : list (string * string))
  (size : Z) (sizes : list Z) :
  let fresh := (Remote.__init__ path bufsize m kw, []) in
  let call := {| Remote.http_attr := "get"; Remote.http_path := path;
                 Remote.http_kwargs := kw |} in
  (Remote.has_attr request "get" = true ->
   exists outs s',
     RemoteIter.read_all request (size :: sizes) fresh = (Ok outs, s') /\
     snd s' = [call] /\
     (fold_right String.append "" outs ++ RemoteIter.unread s')%string
     = Remote.body request call /\
     Forall2 (fun size out =>
                (0 <= size)%Z -> String.length out <= Z.to_nat size)
       (size :: sizes) outs) /\
  (Remote.has_attr request "get" = false ->
   exists msg,
     RemoteIter.read_all request (size :: sizes) fresh
     = (Raise (ValueError msg), fresh)).
Proof.
  cbv zeta. split; intros Hget.
  - cbn [RemoteIter.read_all]. unfold mbind at 1.
    rewrite (read_fresh request size (Remote.__init__ path bufsize m kw) []
               eq_refl Hget).
    cbn [Remote.__init__ Remote.method Remote.path Remote.kwargs app].
    change (lower "GET") with "get".
    set (call := {| Remote.http_attr := "get"; Remote.http_path := path;
                    Remote.http_kwargs := kw |}).
    set (b := Remote.body request call).
    destruct (read_all_fetched request
                (Remote.__init__ path bufsize m kw, [call]) sizes
                (snd (Remote.fobj_read size b)))
      as (outs & rest & Hrun & Hcat & Hlen).
    unfold mbind. rewrite Hrun.
    eexists _, _. split; [reflexivity|]. split; [reflexivity|]. split.
    + cbn [fold_right]. unfold RemoteIter.unread. simpl.
      rewrite app_assoc_string, Hcat. apply fobj_read_conserves.
    + constructor; [|exact Hlen].
      intros Hnn. rewrite fobj_read_take_drop by exact Hnn. cbn [fst].
      rewrite take_length. lia.
  - eexists. cbn [RemoteIter.read_all]. unfold mbind.
    rewrite (read_unsupported request size
               (Remote.__init__ path bufsize m kw) [] eq_refl Hget).
    reflexivity.
Qed.

Lemma remote_file_reads_conserve_witness :
  exists outs s',
    RemoteIter.read_all Scenario.get_only [4%Z; (-1)%Z; 3%Z]
      (Remote.__init__ "/source/prj2" 8192 "GET" [], [])
    = (Ok outs, s') /\
    (fold_right String.append "" outs ++ RemoteIter.unread s')%string
    = "<directory/>".
Proof.
  destruct (remote_file_reads_conserve Scenario.get_only "/source/prj2" 8192
              "GET" [] 4 [(-1)%Z; 3%Z]) as [Hok _].
  destruct (Hok eq_refl) as (outs & s' & Hrun & _ & Hcat & _).
  exists outs, s'. split; [exact Hrun | exact Hcat].
Defined.

(* ===================================================================== *)
(** ** RWRemoteFile                                                       *)
(* ===================================================================== *)

Lemma sio_fresh (data : string) :
  RW.sio_rewind (RW.sio_write data {| RW.getvalue := ""; RW.tell := 0 |})
  = {| RW.getvalue := data; RW.tell := 0 |}.
Proof.
  unfold RW.sio_rewind, RW.sio_write. simpl.
  destruct (String.length data); now rewrite app_empty_r.
Qed.

Section RWFresh.
Variable request : Remote.RequestObj.
Variable path : string.
Variable append : bool.
Variables wb_method wb_path schema : string.
Variable bufsize : Z.
Variable m : string.
Variable kw : list (string * string).

Let fresh : RW.St :=
  (RW.__init__ path append wb_method wb_path schema bufsize m kw, []).

Let call : Remote.HttpCall :=
  {| Remote.http_attr := "get"; Remote.http_path := path;
     Remote.http_kwargs := kw |}.

(** The object after its buffer was filled with [data], with [rest] of
    the response unread. *)
Let filled (data rest : string) (pos : nat) (calls : list Remote.HttpCall)
  : RW.St :=
  ({| RW.file := fst (Remote.set_fobj rest
                        (Remote.__init__ path bufsize m kw, calls));
      RW.append := append; RW.wb_method := wb_method;
      RW.wb_path := wb_path; RW._schema := schema;
      RW._sio := Some {| RW.getvalue := data; RW.tell := pos |} |},
   calls).

Lemma init_sio_reads (size : Z) :
  Remote.has_attr request "get" = true ->
  RW._init_sio request true size fresh
  = (Ok tt,
     filled (fst (Remote.fobj_read size (Remote.body request call)))
       (snd (Remote.fobj_read size (Remote.body request call))) 0 [call]).
Proof.
  intros Hget. unfold RW._init_sio, mbind, gets, modify, RW.super_read.
  cbn [fst snd fresh RW.__init__ RW.file RW.append orb].
  rewrite (read_fresh request size (Remote.__init__ path bufsize m kw) []
             eq_refl Hget).
  cbn [Remote.__init__ Remote.method Remote.path Remote.kwargs app].
  change (lower "GET") with "get". fold call.
  cbn [Remote.set_fobj]. unfold RW.set_sio. cbn [fst snd RW.set_file].
  rewrite sio_fresh. reflexivity.
Qed.

Lemma rw_read_filled (size : Z) (data rest : string) (pos : nat)
  (calls : list Remote.HttpCall) :
  RW.read request size (filled data rest pos calls)
  = (Ok (fst (Remote.fobj_read size
                (substring pos (String.length data - pos) data))),
     filled data rest pos calls).
Proof. reflexivity. Qed.

Lemma rw_read_fresh (size : Z) :
  Remote.has_attr request "get" = true ->
  RW.read request size fresh
  = (Ok (fst (Remote.fobj_read size
                (fst (Remote.fobj_read size (Remote.body request call))))),
     filled (fst (Remote.fobj_read size (Remote.body request call)))
       (snd (Remote.fobj_read size (Remote.body request call))) 0 [call]).
Proof.
  intros Hget. unfold RW.read. unfold mbind at 1, gets at 1.
  cbn [fst fresh RW.__init__ RW._sio]. unfold mbind at 1.
  rewrite (init_sio_reads size Hget).
  change (RW.read request size
            (filled (fst (Remote.fobj_read size (Remote.body request call)))
               (snd (Remote.fobj_read size (Remote.body request call)))
               0 [call])
          = (Ok (fst (Remote.fobj_read size
                   (fst (Remote.fobj_read size (Remote.body request call))))),
             filled (fst (Remote.fobj_read size (Remote.body request call)))
               (snd (Remote.fobj_read size (Remote.body request call)))
               0 [call])).
  rewrite rw_read_filled, Nat.sub_0_r, substring_all. reflexivity.
Qed.

End RWFresh.

Lemma fobj_read_twice (size : Z) (data : string) :
  fst (Remote.fobj_read size (fst (Remote.fobj_read size data)))
  = fst (Remote.fobj_read size data).
Proof.
  unfold Remote.fobj_read. destruct (size <? 0)%Z; cbn [fst]; [reflexivity|].
  apply take_whole. rewrite take_length. lia.
Qed.

Lemma has_key_app (k : string) (a b : list (string * string)) :
  RW.has_key k (a ++ b) = orb (RW.has_key k a) (RW.has_key k b).
Proof.
  induction a as [|[k' v] a IH]; simpl; [reflexivity|].
  now destruct (String.eqb k k').
Qed.

Lemma close_writes_back (request : Remote.RequestObj)
  (kwargs : list (string * string)) (s : RW.St) (io : RW.StringIO) :
  Remote.has_attr request (lower (RW.wb_method (fst s))) = true ->
  RW.has_key "data" kwargs = false ->
  RW._sio (fst s) = Some io ->
  RW.close request kwargs s
  = (RW.Returned,
     (fst s,
      snd s ++
      [{| Remote.http_attr := lower (RW.wb_method (fst s));
          Remote.http_path := Remote.path (RW.file (fst s));
          Remote.http_kwargs :=
            ("data", RW.getvalue io)
            :: (if RW.has_key "schema" kwargs then kwargs
                else kwargs ++ [("schema", RW._schema (fst s))]) |}])).
Proof.
  intros Hwb Hdata Hsio.
  unfold RW.close, Remote._get_http_method. cbv zeta. rewrite Hwb, Hsio.
  destruct (RW.has_key "schema" kwargs).
  - now rewrite Hdata.
  - rewrite has_key_app, Hdata. reflexivity.
Qed.

(** X11: reading an RWRemoteFile never advances.  The first [read(size)]
    of a fresh object fetches just [size] characters of the response (all
    of it when [size] is negative) into the buffer, with one request; every
    later read, whatever its size, is answered from the start of that
    buffer and changes nothing: [read(4)] twice returns the same four
    characters, and a [read()] after it returns those four, not the rest
    of the file. *)
Theorem rw_read_never_advances (request : Remote.RequestObj)
  (path : string) (append : bool) (wb_method wb_path schema : string)
  (bufsize : Z) (m : string) (kw : list (string * string)) (s1 s2 : Z)
  (Hget : Remote.has_attr request "get" = true) :
  let fresh :=
    (RW.__init__ path append wb_method wb_path schema bufsize m kw, []) in
  let call := {| Remote.http_attr := "get"; Remote.http_path := path;
                 Remote.http_kwargs := kw |} in
  let first := fst (Remote.fobj_read s1 (Remote.body request call)) in
  exists st,
    RW.read request s1 fresh = (Ok first, st) /\
    snd st = [call] /\
    RW.read request s2 st = (Ok (fst (Remote.fobj_read s2 first)), st).
Proof.
  cbv zeta. eexists. split; [|split].
  - rewrite (rw_read_fresh request path append wb_method wb_path schema
               bufsize m kw s1 Hget).
    rewrite fobj_read_twice. reflexivity.
  - reflexivity.
  - rewrite rw_read_filled, Nat.sub_0_r, substring_all. reflexivity.
Qed.

Lemma rw_read_never_advances_witness :
  exists st,
    RW.read Scenario.get_only 4
      (RW.__init__ "/build/p/r/a/x/_log" false "PUT" "" "" 8192 "GET" [], [])
    = (Ok "<dir", st) /\
    RW.read Scenario.get_only (-1) st = (Ok "<dir", st).
Proof.
  destruct (rw_read_never_advances Scenario.get_only "/build/p/r/a/x/_log"
              false "PUT" "" "" 8192 "GET" [] 4 (-1) eq_refl)
    as (st & H1 & _ & H2).
  exists st. split; [exact H1 | exact H2].
Defined.

Lemma sio_write_start (data v : string) :
  RW.sio_write data {| RW.getvalue := v; RW.tell := 0 |}
  = {| RW.getvalue :=
         (data ++ substring (String.length data)
                    (String.length v - String.length data) v)%string;
       RW.tell := String.length data |}.
Proof.
  unfold RW.sio_write. cbn [RW.tell RW.getvalue Nat.add].
  replace (substring 0 0 v) with "" by (now destruct v). reflexivity.
Qed.

(** X12: [append=True] does not append.  The first [write(data)] on a
    fresh object opened with [append=True] fetches the whole file and then
    writes at position 0: the data replaces the head of the file instead
    of following it, and [close] writes back that value.  Opened without
    [append], the write fetches nothing and the buffer is the data. *)
Theorem rw_append_overwrites (request : Remote.RequestObj)
  (path wb_method wb_path schema : string) (bufsize : Z) (m : string)
  (kw kwargs : list (string * string)) (data : string) :
  let call := {| Remote.http_attr := "get"; Remote.http_path := path;
                 Remote.http_kwargs := kw |} in
  let b := Remote.body request call in
  let value :=
    (data ++ substring (String.length data)
               (String.length b - String.length data) b)%string in
  (Remote.has_attr request "get" = true ->
   exists st,
     RW.write request data
       (RW.__init__ path true wb_method wb_path schema bufsize m kw, [])
     = (Ok tt, st) /\
     snd st = [call] /\
     RW._sio (fst st)
     = Some {| RW.getvalue := value; RW.tell := String.length data |} /\
     (Remote.has_attr request (lower wb_method) = true ->
      RW.has_key "data" kwargs = false ->
      exists sent,
        RW.close request kwargs st = (RW.Returned, (fst st, [call; sent])) /\
        Remote.http_path sent = path /\
        Remote.http_attr sent = lower wb_method /\
        hd ("", "") (Remote.http_kwargs sent) = ("data", value))) /\
  (exists st,
     RW.write request data
       (RW.__init__ path false wb_method wb_path schema bufsize m kw, [])
     = (Ok tt, st) /\
     snd st = [] /\
     RW._sio (fst st)
     = Some {| RW.getvalue := data; RW.tell := String.length data |}).
Proof.
  cbv zeta. split.
  - intros Hget.
    unfold RW.write, RW.__getattr__. unfold mbind at 1 2, gets at 1.
    cbn [fst RW.__init__ RW._sio String.eqb Ascii.eqb Bool.eqb negb andb].
    unfold mbind at 1.
    change (negb ("write" =? "write")%string) with false.
    pose proof (init_sio_reads request path true wb_method wb_path schema
                  bufsize m kw (-1) Hget) as Hinit.
    unfold RW._init_sio in *. cbn [orb] in *.
    unfold mbind at 1, gets at 1 in Hinit. unfold mbind at 1, gets at 1.
    cbn [fst RW.__init__ RW.append orb] in *.
    rewrite Hinit. clear Hinit.
    unfold Remote.fobj_read. simpl Z.ltb. cbn [fst snd].
    eexists. split; [reflexivity|]. split; [reflexivity|].
    unfold RW.set_sio. cbn [fst snd RW._sio]. rewrite sio_write_start.
    split.
    + reflexivity.
    + intros Hwb Hdata. eexists. split.
      * match goal with
        | |- RW.close _ _ ?S = _ =>
            rewrite (close_writes_back request kwargs S _ Hwb Hdata eq_refl)
        end.
        reflexivity.
      * repeat split.
  - unfold RW.write, RW.__getattr__, RW._init_sio, mbind, gets, modify, ret.
    cbn [fst snd RW.__init__ RW._sio RW.append orb].
    change (negb ("write" =? "write")%string) with false. cbn [orb].
    unfold RW.set_sio. cbn [fst snd RW._sio].
    rewrite sio_fresh, sio_write_start.
    eexists. split; [reflexivity|]. split; [reflexivity|]. cbn [fst RW._sio].
    simpl. destruct (String.length data); now rewrite app_empty_r.
Qed.

Lemma rw_append_overwrites_witness :
  exists st sent,
    RW.write Cases.server "HEY"
      (RW.__init__ "/source/p/x/f" true "PUT" "" "" 8192 "GET" [], [])
    = (Ok tt, st) /\
    RW.close Cases.server [] st
    = (RW.Returned,
       (fst st,
        [{| Remote.http_attr := "get"; Remote.http_path := "/source/p/x/f";
            Remote.http_kwargs := [] |}; sent])) /\
    hd ("", "") (Remote.http_kwargs sent) = ("data", "HEYlo world").
Proof.
  destruct (rw_append_overwrites Cases.server "/source/p/x/f" "PUT" "" ""
              8192 "GET" [] [] "HEY") as [Happ _].
  destruct (Happ eq_refl) as (st & Hw & _ & _ & Hclose).
  destruct (Hclose eq_refl eq_refl) as (sent & Hc & _ & _ & Hd).
  exists st, sent. split; [exact Hw|]. split; [exact Hc | exact Hd].
Defined.

(** X13: what [close] does.  It raises ValueError when the request object
    lacks the write back method; on an object that was never read or
    written it raises AttributeError and sends nothing; and after a read,
    though nothing was written, it sends the buffer (the part that was
    read) with the write back method to [path], whatever [wb_path] is; a
    [data] keyword makes it raise TypeError.  The object is the same
    afterwards: nothing is closed. *)
Theorem rw_close_writes_back (request : Remote.RequestObj)
  (path : string) (append : bool) (wb_method wb_path schema : string)
  (bufsize : Z) (m : string) (kw kwargs : list (string * string))
  (size : Z) :
  let fresh :=
    (RW.__init__ path append wb_method wb_path schema bufsize m kw, []) in
  let call := {| Remote.http_attr := "get"; Remote.http_path := path;
                 Remote.http_kwargs := kw |} in
  let first := fst (Remote.fobj_read size (Remote.body request call)) in
  (Remote.has_attr request (lower wb_method) = false ->
   exists msg, RW.close request kwargs fresh = (RW.Raised (ValueError msg), fresh))
  /\
  (Remote.has_attr request (lower wb_method) = true ->
   RW.close request kwargs fresh
   = (RW.Raised (AttributeError
                   "'NoneType' object has no attribute 'getvalue'"), fresh))
  /\
  (Remote.has_attr request "get" = true ->
   Remote.has_attr request (lower wb_method) = true ->
   exists st,
     RW.read request size fresh = (Ok first, st) /\
     (RW.has_key "data" kwargs = false ->
      exists sent,
        RW.close request kwargs st = (RW.Returned, (fst st, [call; sent])) /\
        Remote.http_path sent = path /\
        Remote.http_attr sent = lower wb_method /\
        hd ("", "") (Remote.http_kwargs sent) = ("data", first)) /\
     (RW.has_key "data" kwargs = true ->
      exists msg, RW.close request kwargs st = (RW.TypeError msg, st))).
Proof.
  cbv zeta. split; [|split].
  - intros Hwb. eexists. unfold RW.close, Remote._get_http_method.
    cbv zeta. cbn [fst RW.__init__ RW.wb_method]. rewrite Hwb. reflexivity.
  - intros Hwb. unfold RW.close, Remote._get_http_method.
    cbv zeta. cbn [fst RW.__init__ RW.wb_method]. rewrite Hwb. reflexivity.
  - intros Hget Hwb. eexists. split; [|split].
    + rewrite (rw_read_fresh request path append wb_method wb_path schema
                 bufsize m kw size Hget).
      rewrite fobj_read_twice. reflexivity.
    + intros Hdata. eexists. split.
      * match goal with
        | |- RW.close _ _ ?S = _ =>
            rewrite (close_writes_back request kwargs S _ Hwb Hdata eq_refl)
        end.
        reflexivity.
      * repeat split.
    + intros Hdata. eexists. unfold RW.close, Remote._get_http_method.
      cbv zeta. cbn [fst RW.wb_method RW._sio]. rewrite Hwb.
      destruct (RW.has_key "schema" kwargs).
      * rewrite Hdata. reflexivity.
      * rewrite has_key_app, Hdata. reflexivity.
Qed.

Lemma rw_close_writes_back_witness :
  exists st sent,
    RW.read Cases.server 5
      (RW.__init__ "/source/p/x/f" false "PUT" "/elsewhere" "" 8192 "GET" [],
       [])
    = (Ok "hello", st) /\
    RW.close Cases.server [] st
    = (RW.Returned,
       (fst st,
        [{| Remote.http_attr := "get"; Remote.http_path := "/source/p/x/f";
            Remote.http_kwargs := [] |}; sent])) /\
    Remote.http_path sent = "/source/p/x/f" /\
    hd ("", "") (Remote.http_kwargs sent) = ("data", "hello").
Proof.
  destruct (rw_close_writes_back Cases.server "/source/p/x/f" false "PUT"
              "/elsewhere" "" 8192 "GET" [] [] 5) as (_ & _ & H).
  destruct (H eq_refl eq_refl) as (st & Hr & Hclose & _).
  destruct (Hclose eq_refl) as (sent & Hc & Hp & _ & Hd).
  exists st, sent. auto.
Defined.

(* ===================================================================== *)
(** ** The drivers of update and commit                                   *)
(* ===================================================================== *)

Lemma processed_of_app (a b : list Engine.event) :
  Engine.processed_of (a ++ b)
  = Engine.processed_of a ++ Engine.processed_of b.
Proof.
  induction a as [|e a IH]; simpl; [reflexivity|].
  destruct e; simpl; now rewrite ?IH.
Qed.

Lemma inits_of_app (a b : list Engine.event) :
  Engine.inits_of (a ++ b) = Engine.inits_of a ++ Engine.inits_of b.
Proof.
  induction a as [|e a IH]; simpl; [reflexivity|].
  destruct e; simpl; now rewrite ?IH.
Qed.

Lemma commits_of_app (a b : list Engine.event) :
  Engine.commits_of (a ++ b) = Engine.commits_of a ++ Engine.commits_of b.
Proof.
  induction a as [|e a IH]; simpl; [reflexivity|].
  destruct e; simpl; now rewrite ?IH.
Qed.

Lemma prefix_nil {A} (l : list A) : Engine.prefix [] l.
Proof. exists l. reflexivity. Qed.

Lemma prefix_refl {A} (l : list A) : Engine.prefix l l.
Proof. exists []. now rewrite app_nil_r. Qed.

Lemma prefix_app {A} (a l whole : list A) :
  Engine.prefix l whole -> Engine.prefix (a ++ l) (a ++ whole).
Proof. intros [rest ->]. exists rest. now rewrite app_assoc. Qed.

Lemma prefix_more {A} (l whole more : list A) :
  Engine.prefix l whole -> Engine.prefix l (whole ++ more).
Proof. intros [rest ->]. exists (rest ++ more). now rewrite app_assoc. Qed.

(* --------------------------------------------------------------------- *)
(** *** Which packages a computation marks as processed                   *)
(* --------------------------------------------------------------------- *)

Section Steps.
Variable env : Engine.Env.

Lemma steps_eq {A} (c : Engine.D A) (e e' : list (string * option string)) :
  Engine.steps c e -> e = e' -> Engine.steps c e'.
Proof. now intros H <-. Qed.

Lemma steps_ret {A} (a : A) : Engine.steps (Engine.dret a) [].
Proof.
  intros r out r' H. injection H as <- <-. exists [].
  now rewrite app_nil_r.
Qed.

Lemma steps_fail {A} (f : Engine.failure)
  (e : list (string * option string)) :
  Engine.steps (@Engine.dfail A f) e.
Proof.
  intros r out r' H. injection H as <- <-. exists [].
  rewrite app_nil_r. split; [reflexivity|apply prefix_nil].
Qed.

Lemma steps_bind {A B} (c : Engine.D A) (k : A -> Engine.D B)
  (e1 e2 : list (string * option string)) :
  Engine.steps c e1 -> (forall a, Engine.steps (k a) e2) ->
  Engine.steps (Engine.dbind c k) (e1 ++ e2).
Proof.
  intros H1 H2 r out r' H. unfold Engine.dbind in H.
  destruct (c r) as [[a|f] r1] eqn:Hc.
  - destruct (H1 _ _ _ Hc) as (n1 & T1 & P1).
    destruct (H2 a _ _ _ H) as (n2 & T2 & P2).
    exists (n1 ++ n2). split; [now rewrite T2, T1, app_assoc|].
    rewrite processed_of_app, P1.
    destruct out; [now rewrite P2 | now apply prefix_app].
  - injection H as <- <-. destruct (H1 _ _ _ Hc) as (n1 & T1 & P1).
    exists n1. split; [exact T1 | now apply prefix_more].
Qed.

Lemma steps_call (e : Engine.event) :
  Engine.steps (Engine.call env e) (Engine.processed_of [e]).
Proof.
  intros r out r' H. unfold Engine.call in H.
  destruct (Engine.fails env (Engine.trace r) e); injection H as <- <-.
  - exists []. rewrite app_nil_r. split; [reflexivity|apply prefix_nil].
  - exists [e]. split; reflexivity.
Qed.

Lemma steps_call_processed (p : string) (s : option string) :
  Engine.steps (Engine.call env (Engine.Processed p s)) [(p, s)].
Proof. exact (steps_call (Engine.Processed p s)). Qed.

Lemma steps_call_quiet (e : Engine.event) :
  Engine.processed_of [e] = [] -> Engine.steps (Engine.call env e) [].
Proof. intros <-. apply steps_call. Qed.

Lemma steps_ask {A} (q : list Engine.event -> A) :
  Engine.steps (Engine.ask q) [].
Proof.
  intros r out r' H. injection H as <- <-. exists [].
  now rewrite app_nil_r.
Qed.

Lemma steps_get_state : Engine.steps Engine.get_state [].
Proof.
  intros r out r' H. injection H as <- <-. exists [].
  now rewrite app_nil_r.
Qed.

Lemma steps_set_state (p : Transaction.phase) :
  Engine.steps (Engine.set_state p) [].
Proof.
  intros r out r' H. injection H as <- <-. exists [].
  now rewrite app_nil_r.
Qed.

Lemma steps_for_each_quiet {A} (l : list A) (body : A -> Engine.D unit) :
  (forall x, Engine.steps (body x) []) ->
  Engine.steps (Engine.for_each l body) [].
Proof.
  intros Hbody. induction l as [|x l IH]; cbn [Engine.for_each].
  - apply steps_ret.
  - apply (steps_bind (body x) (fun _ => Engine.for_each l body) [] []);
      [apply Hbody | intros _; exact IH].
Qed.

Lemma steps_for_each (l : list string) (body : string -> Engine.D unit)
  (s : option string) :
  (forall p, Engine.steps (body p) [(p, s)]) ->
  Engine.steps (Engine.for_each l body) (map (fun p => (p, s)) l).
Proof.
  intros Hbody. induction l as [|x l IH]; cbn [Engine.for_each map].
  - apply steps_ret.
  - apply (steps_bind (body x) (fun _ => Engine.for_each l body)
             [(x, s)] (map (fun p => (p, s)) l));
      [apply Hbody | intros _; exact IH].
Qed.

End Steps.

(** Splits a driver along its binds, calls and questions. *)
Ltac steps_rule env :=
  first
    [ apply steps_ret
    | apply steps_fail
    | apply (steps_call_processed env)
    | apply (steps_call_quiet env); reflexivity
    | apply steps_ask
    | apply steps_get_state
    | apply steps_set_state
    | eapply steps_bind; [|intros ?]
    | apply steps_for_each_quiet; intros ? ].

Ltac steps_step env :=
  match goal with
  | |- _ = _ => reflexivity
  | |- Engine.steps (if ?b then _ else _) _ => destruct b
  | |- Engine.steps (match ?x with _ => _ end) _ => destruct x
  | |- Engine.steps _ ?e =>
      first [ is_evar e; steps_rule env
            | eapply steps_eq; [steps_rule env|] ]
  end.

Ltac steps_auto env :=
  unfold Engine.update_processed, Engine.commit_processed,
    Engine.package_commit, Engine.RemotePackage_getattr;
  cbv zeta;
  repeat steps_step env.

(* --------------------------------------------------------------------- *)
(** *** Which calls a computation makes                                   *)
(* --------------------------------------------------------------------- *)

Section Emits.
Variable env : Engine.Env.
Variable ok : Engine.event -> Prop.

Lemma emits_ret {A} (a : A) : Engine.emits ok (Engine.dret a).
Proof.
  intros r out r' H. injection H as <- <-. exists [].
  now rewrite app_nil_r.
Qed.

Lemma emits_fail {A} (f : Engine.failure) :
  Engine.emits ok (@Engine.dfail A f).
Proof.
  intros r out r' H. injection H as <- <-. exists [].
  now rewrite app_nil_r.
Qed.

Lemma emits_bind {A B} (c : Engine.D A) (k : A -> Engine.D B) :
  Engine.emits ok c -> (forall a, Engine.emits ok (k a)) ->
  Engine.emits ok (Engine.dbind c k).
Proof.
  intros H1 H2 r out r' H. unfold Engine.dbind in H.
  destruct (c r) as [[a|f] r1] eqn:Hc.
  - destruct (H1 _ _ _ Hc) as (n1 & T1 & P1).
    destruct (H2 a _ _ _ H) as (n2 & T2 & P2).
    exists (n1 ++ n2). split; [now rewrite T2, T1, app_assoc|].
    apply Forall_app. now split.
  - injection H as <- <-. exact (H1 _ _ _ Hc).
Qed.

Lemma emits_call (e : Engine.event) :
  ok e -> Engine.emits ok (Engine.call env e).
Proof.
  intros He r out r' H. unfold Engine.call in H.
  destruct (Engine.fails env (Engine.trace r) e); injection H as <- <-.
  - exists []. now rewrite app_nil_r.
  - exists [e]. split; [reflexivity|]. now constructor.
Qed.

Lemma emits_ask {A} (q : list Engine.event -> A) :
  Engine.emits ok (Engine.ask q).
Proof.
  intros r out r' H. injection H as <- <-. exists [].
  now rewrite app_nil_r.
Qed.

Lemma emits_get_state : Engine.emits ok Engine.get_state.
Proof.
  intros r out r' H. injection H as <- <-. exists [].
  now rewrite app_nil_r.
Qed.

Lemma emits_set_state (p : Transaction.phase) :
  Engine.emits ok (Engine.set_state p).
Proof.
  intros r out r' H. injection H as <- <-. exists [].
  now rewrite app_nil_r.
Qed.

Lemma emits_for_each {A} (l : list A) (body : A -> Engine.D unit) :
  (forall x, Engine.emits ok (body x)) ->
  Engine.emits ok (Engine.for_each l body).
Proof.
  intros Hbody. induction l as [|x l IH]; cbn [Engine.for_each].
  - apply emits_ret.
  - apply emits_bind; [apply Hbody | intros _; exact IH].
Qed.

End Emits.

Ltac emits_auto env :=
  unfold Engine._update, Engine._perform_adds, Engine._perform_deletes,
    Engine._perform_candidates, Engine._remove_wc_dir, Engine._commit,
    Engine._commit_adds, Engine._commit_deletes, Engine._commit_modified,
    Engine.update_processed, Engine.commit_processed,
    Engine.package_commit, Engine.RemotePackage_getattr;
  cbv zeta;
  repeat first
    [ apply emits_ret
    | apply emits_fail
    | apply (emits_call env)
    | apply emits_ask
    | apply emits_get_state
    | apply emits_set_state
    | apply emits_bind; [|intros ?]
    | apply emits_for_each; intros ?
    | match goal with
      | |- Engine.emits _ (if ?b then _ else _) => destruct b
      | |- Engine.emits _ (match ?x with _ => _ end) => destruct x
      end ].

(* --------------------------------------------------------------------- *)
(** *** Which computations return when no call raises                     *)
(* --------------------------------------------------------------------- *)

Section Returns.
Variable env : Engine.Env.

Lemma returns_ret {A} (a : A) : Engine.returns env (Engine.dret a).
Proof. intros _ r. now exists a, r. Qed.

Lemma returns_bind {A B} (c : Engine.D A) (k : A -> Engine.D B) :
  Engine.returns env c -> (forall a, Engine.returns env (k a)) ->
  Engine.returns env (Engine.dbind c k).
Proof.
  intros H1 H2 Hnf r. destruct (H1 Hnf r) as (a & r1 & Hc).
  destruct (H2 a Hnf r1) as (b & r2 & Hk).
  exists b, r2. unfold Engine.dbind. now rewrite Hc.
Qed.

Lemma returns_call (e : Engine.event) :
  Engine.returns env (Engine.call env e).
Proof.
  intros Hnf r. unfold Engine.call. rewrite Hnf. now eexists _, _.
Qed.

Lemma returns_ask {A} (q : list Engine.event -> A) :
  Engine.returns env (Engine.ask q).
Proof. intros _ r. now eexists _, _. Qed.

Lemma returns_get_state : Engine.returns env Engine.get_state.
Proof. intros _ r. now eexists _, _. Qed.

Lemma returns_set_state (p : Transaction.phase) :
  Engine.returns env (Engine.set_state p).
Proof. intros _ r. now eexists _, _. Qed.

Lemma returns_for_each {A} (l : list A) (body : A -> Engine.D unit) :
  (forall x, In x l -> Engine.returns env (body x)) ->
  Engine.returns env (Engine.for_each l body).
Proof.
  induction l as [|x l IH]; intros Hbody; cbn [Engine.for_each].
  - apply returns_ret.
  - apply returns_bind; [apply Hbody; now left|].
    intros _. apply IH. intros y Hy. apply Hbody. now right.
Qed.

End Returns.

Ltac returns_auto :=
  unfold Engine.update_processed, Engine.commit_processed,
    Engine.package_commit;
  cbv zeta;
  repeat first
    [ apply returns_ret
    | apply returns_call
    | apply returns_ask
    | apply returns_get_state
    | apply returns_set_state
    | apply returns_bind; [|intros ?]
    | apply returns_for_each; intros ? ?
    | match goal with
      | |- Engine.returns _ (if ?b then _ else _) => destruct b
      | |- Engine.returns _ (match ?x with _ :: _ => _ | _ => _ end) =>
          destruct x
      end ].

(** Runs a driver body apart: every call returns or raises, every
    question has one of its answers. *)
Ltac run_step :=
  first
    [ progress (unfold Engine.update_processed, Engine.commit_processed,
                  Engine.package_commit, Engine.RemotePackage_getattr,
                  Engine.dbind, Engine.call, Engine.ask, Engine.get_state,
                  Engine.set_state, Engine.dret, Engine.dfail;
                cbn [Engine.state Engine.trace])
    | match goal with
      | |- context [Engine.fails ?env ?t ?e] =>
          destruct (Engine.fails env t e) eqn:?;
          cbn [Engine.state Engine.trace]
      | |- context [if ?b then _ else _] =>
          match type of b with
          | bool => destruct b eqn:?; cbn [Engine.state Engine.trace]
          end
      | |- context [match WC.package ?s ?f ?p with _ => _ end] =>
          destruct (WC.package s f p) eqn:?;
          cbn [Engine.state Engine.trace]
      end ].

Ltac run_body := repeat run_step.

Ltac extends :=
  first [ symmetry; apply app_nil_r
        | rewrite <- ?app_assoc; reflexivity ].

(* --------------------------------------------------------------------- *)
(** *** The loops of update                                               *)
(* --------------------------------------------------------------------- *)

Section DriverFacts.
Variable env : Engine.Env.
Variable self : WC.Project.

Lemma remove_wc_dir_steps (package : string) (notify : bool) :
  Engine.steps (Engine._remove_wc_dir env self package notify) [].
Proof.
  unfold Engine._remove_wc_dir. steps_auto env.
Qed.

Lemma remove_wc_dir_returns (package : string) (notify : bool) :
  Engine.returns env (Engine._remove_wc_dir env self package notify).
Proof.
  unfold Engine._remove_wc_dir. returns_auto.
  match goal with
  | |- Engine.returns _ (match ?x with _ => _ end) => destruct x
  end; returns_auto.
Qed.

Lemma perform_adds_steps (location : string) (added : list string) :
  Engine.steps (Engine._perform_adds env self location added)
    (map (fun p => (p, Some " ")) added).
Proof.
  unfold Engine._perform_adds. apply steps_for_each. intros p.
  steps_auto env.
Qed.

Lemma perform_deletes_steps (deleted : list string) :
  Engine.steps (Engine._perform_deletes env self deleted)
    (map (fun p => (p, None)) deleted).
Proof.
  unfold Engine._perform_deletes. apply steps_for_each. intros p.
  eapply steps_eq;
    [ eapply steps_bind; [apply steps_set_state|]; intros _;
      eapply steps_bind; [apply (steps_call env)|]; intros _;
      eapply steps_bind; [apply remove_wc_dir_steps|]; intros _;
      steps_auto env
    | reflexivity ].
Qed.

Lemma perform_candidates_steps (candidates : list string) :
  Engine.steps (Engine._perform_candidates env self candidates)
    (map (fun p => (p, Some " ")) candidates).
Proof.
  unfold Engine._perform_candidates. apply steps_for_each. intros p.
  steps_auto env.
Qed.

Lemma update_phases_no_merge (location : string)
  (added deleted candidates : list string) :
  Engine.emits (fun e => e <> Engine.Merge)
    (Engine._perform_adds env self location added) /\
  Engine.emits (fun e => e <> Engine.Merge)
    (Engine._perform_deletes env self deleted) /\
  Engine.emits (fun e => e <> Engine.Merge)
    (Engine._perform_candidates env self candidates).
Proof.
  split; [|split]; emits_auto env; discriminate.
Qed.

Lemma phase_run {A} (c : Engine.D A) (e : list (string * option string)) :
  Engine.steps c e ->
  Engine.emits (fun ev => ev <> Engine.Merge) c ->
  forall r out r',
    c r = (out, r') ->
    exists new,
      Engine.trace r' = Engine.trace r ++ new /\
      ~ In Engine.Merge new /\
      match out with
      | Engine.Done _ => Engine.processed_of new = e
      | Engine.Failed _ => Engine.prefix (Engine.processed_of new) e
      end.
Proof.
  intros Hs He r out r' H.
  destruct (Hs _ _ _ H) as (n & T & P).
  destruct (He _ _ _ H) as (n' & T' & F).
  assert (n' = n) by (rewrite T in T'; now apply app_inv_head in T').
  subst n'. exists n. split; [exact T|]. split; [|exact P].
  intros Hin. rewrite Forall_forall in F. now apply (F _ Hin).
Qed.

Lemma update_run (location : string) (added deleted candidates : list string)
  (r : Engine.Run) (out : Engine.outcome unit) (r' : Engine.Run) :
  Engine._update env self location added deleted candidates r = (out, r') ->
  exists new,
    Engine.trace r' = Engine.trace r ++ new /\
    match out with
    | Engine.Done _ =>
        exists before,
          new = before ++ [Engine.Merge] /\
          ~ In Engine.Merge before /\
          Engine.processed_of before
          = map (fun p => (p, Some " ")) added
            ++ map (fun p => (p, None)) deleted
            ++ map (fun p => (p, Some " ")) candidates
    | Engine.Failed _ =>
        ~ In Engine.Merge new /\
        Engine.prefix (Engine.processed_of new)
          (map (fun p => (p, Some " ")) added
           ++ map (fun p => (p, None)) deleted
           ++ map (fun p => (p, Some " ")) candidates)
    end.
Proof.
  intros H. unfold Engine._update in H.
  destruct (update_phases_no_merge location added deleted candidates)
    as (E1 & E2 & E3).
  unfold Engine.dbind at 1 in H.
  destruct (Engine._perform_adds env self location added r)
    as [o1 r1] eqn:H1.
  destruct (phase_run _ _ (perform_adds_steps location added) E1 _ _ _ H1)
    as (n1 & T1 & M1 & P1).
  destruct o1 as [[]|f1];
    [|injection H as <- <-; exists n1; split; [exact T1|];
      split; [exact M1 | now apply prefix_more]].
  unfold Engine.dbind at 1 in H.
  destruct (Engine._perform_deletes env self deleted r1) as [o2 r2] eqn:H2.
  destruct (phase_run _ _ (perform_deletes_steps deleted) E2 _ _ _ H2)
    as (n2 & T2 & M2 & P2).
  assert (M12 : ~ In Engine.Merge (n1 ++ n2))
    by (rewrite in_app_iff; tauto).
  destruct o2 as [[]|f2];
    [|injection H as <- <-; exists (n1 ++ n2);
      split; [now rewrite T2, T1, app_assoc|];
      split; [exact M12|];
      rewrite processed_of_app, P1; apply prefix_app;
      now apply prefix_more].
  unfold Engine.dbind at 1 in H.
  destruct (Engine._perform_candidates env self candidates r2)
    as [o3 r3] eqn:H3.
  destruct (phase_run _ _ (perform_candidates_steps candidates) E3 _ _ _ H3)
    as (n3 & T3 & M3 & P3).
  assert (M123 : ~ In Engine.Merge (n1 ++ n2 ++ n3))
    by (rewrite !in_app_iff; tauto).
  assert (T123 : Engine.trace r3 = Engine.trace r ++ n1 ++ n2 ++ n3)
    by (now rewrite T3, T2, T1, <- !app_assoc).
  destruct o3 as [[]|f3];
    [|injection H as <- <-; exists (n1 ++ n2 ++ n3);
      split; [exact T123|]; split; [exact M123|];
      rewrite !processed_of_app, P1, P2; now do 2 apply prefix_app].
  unfold Engine.call in H.
  destruct (Engine.fails env (Engine.trace r3) Engine.Merge);
    injection H as <- <-; cbn [Engine.trace].
  - exists (n1 ++ n2 ++ n3). split; [exact T123|]. split; [exact M123|].
    rewrite !processed_of_app, P1, P2, P3. apply prefix_refl.
  - exists ((n1 ++ n2 ++ n3) ++ [Engine.Merge]).
    split; [now rewrite T123, <- !app_assoc|].
    exists (n1 ++ n2 ++ n3). split; [reflexivity|]. split; [exact M123|].
    now rewrite !processed_of_app, P1, P2, P3.
Qed.

(* --------------------------------------------------------------------- *)
(** *** One round of a loop                                               *)
(* --------------------------------------------------------------------- *)

Lemma dbind_done {A B} (c : Engine.D A) (k : A -> Engine.D B)
  (r : Engine.Run) (b : B) (r' : Engine.Run) :
  Engine.dbind c k r = (Engine.Done b, r') ->
  exists a r1, c r = (Engine.Done a, r1) /\ k a r1 = (Engine.Done b, r').
Proof.
  unfold Engine.dbind. destruct (c r) as [[a|f] r1]; [eauto|discriminate].
Qed.

Lemma for_each_cons (body : string -> Engine.D unit) (p : string)
  (l : list string) (r : Engine.Run) :
  Engine.for_each (p :: l) body r
  = match Engine.for_each [p] body r with
    | (Engine.Done _, r1) => Engine.for_each l body r1
    | (Engine.Failed f, r1) => (Engine.Failed f, r1)
    end.
Proof.
  cbn [Engine.for_each]. unfold Engine.dbind, Engine.dret.
  destruct (body p r) as [[[]|f] r1]; reflexivity.
Qed.

Lemma package_path (fs : WC.FS) (p : string) (h : WC.Package) :
  WC.package self fs p = Some h ->
  WC.pkg_path h = os_path_join (WC.path self) p.
Proof.
  unfold WC.package. cbv zeta.
  destruct (orb _ _); [discriminate|]. now intros [= <-].
Qed.

Lemma perform_adds_round (location : string) (p : string) (r : Engine.Run)
  (out : Engine.outcome unit) (r' : Engine.Run) :
  Engine._perform_adds env self location [p] r = (out, r') ->
  exists new,
    Engine.trace r' = Engine.trace r ++ new /\
    match out with
    | Engine.Done _ =>
        Engine.state r' = Transaction.STATE_PREPARE /\
        Engine.inits_of new
        = (if Transaction.phase_eqb (Engine.state r) Transaction.STATE_PREPARE
           then [Engine.init_call self location p] else [])
    | Engine.Failed _ =>
        Engine.prefix (Engine.inits_of new)
          (if Transaction.phase_eqb (Engine.state r) Transaction.STATE_PREPARE
           then [Engine.init_call self location p] else [])
    end.
Proof.
  unfold Engine._perform_adds. cbn [Engine.for_each]. cbv zeta.
  run_body; intros H; inversion H; subst; clear H;
    cbn [Engine.state Engine.trace];
    eexists; (split; [extends|]);
    rewrite ?inits_of_app; cbn [Engine.inits_of app];
    first [ apply prefix_nil | apply prefix_refl | split; reflexivity ].
Qed.

Lemma commit_adds_round (p : string) (r : Engine.Run)
  (r' : Engine.Run) :
  Engine._commit_adds env self [p] r = (Engine.Done tt, r') ->
  Engine.state r <> Transaction.STATE_TRANSFER /\
  Engine.state r' = Transaction.STATE_TRANSFER.
Proof.
  unfold Engine._commit_adds. cbn [Engine.for_each]. cbv zeta.
  run_body; intros H; inversion H; subst; clear H;
    cbn [Engine.state Engine.trace];
    (split; [|reflexivity]); intros Hs;
    apply phase_eqb_eq in Hs; congruence.
Qed.

Lemma commit_processed_done (p : string) (s : option string)
  (r r' : Engine.Run) :
  Engine.commit_processed env p s r = (Engine.Done tt, r') ->
  Engine.state r' = Transaction.STATE_TRANSFER.
Proof.
  run_body; intros H; inversion H; reflexivity.
Qed.

Lemma commit_deletes_round (p : string) (r : Engine.Run)
  (r' : Engine.Run) :
  Engine._commit_deletes env self [p] r = (Engine.Done tt, r') ->
  Engine.state r <> Transaction.STATE_TRANSFER /\
  Engine.state r' = Transaction.STATE_TRANSFER.
Proof.
  unfold Engine._commit_deletes. cbn [Engine.for_each]. intros H.
  apply dbind_done in H as ([] & r1 & H & Hret).
  injection Hret as <-.
  apply dbind_done in H as (st & r0 & Hget & H).
  injection Hget as <- <-.
  apply dbind_done in H as ([] & r2 & Hif & H).
  apply dbind_done in H as ([] & r3 & _ & H).
  split; [|exact (commit_processed_done _ _ _ _ H)].
  intros Hs. apply phase_eqb_eq in Hs. rewrite Hs in Hif.
  discriminate Hif.
Qed.

Lemma commit_modified_round (p : string) (r : Engine.Run)
  (out : Engine.outcome unit) (r' : Engine.Run) :
  Engine._commit_modified env self [p] r = (out, r') ->
  exists new,
    Engine.trace r' = Engine.trace r ++ new /\
    match out with
    | Engine.Done _ =>
        Engine.state r' = Transaction.STATE_TRANSFER /\
        Engine.commits_of new
        = (if Transaction.phase_eqb (Engine.state r)
                Transaction.STATE_TRANSFER
           then [os_path_join (WC.path self) p] else [])
    | Engine.Failed _ =>
        Engine.prefix (Engine.commits_of new)
          (if Transaction.phase_eqb (Engine.state r)
                Transaction.STATE_TRANSFER
           then [os_path_join (WC.path self) p] else [])
    end.
Proof.
  unfold Engine._commit_modified. cbn [Engine.for_each]. cbv zeta.
  run_body; intros H; inversion H; subst; clear H;
    cbn [Engine.state Engine.trace];
    try match goal with
        | Hk : WC.package _ _ _ = Some _ |- _ =>
            apply package_path in Hk; rewrite ?Hk
        end;
    eexists; (split; [extends|]);
    rewrite ?commits_of_app; cbn [Engine.commits_of app];
    first [ apply prefix_nil | apply prefix_refl | split; reflexivity ].
Qed.

(* --------------------------------------------------------------------- *)
(** *** Whole loops                                                       *)
(* --------------------------------------------------------------------- *)

Lemma perform_adds_inits (location : string) (added : list string) :
  forall r out r',
    Engine._perform_adds env self location added r = (out, r') ->
    exists new,
      Engine.trace r' = Engine.trace r ++ new /\
      Engine.prefix (Engine.inits_of new)
        (map (Engine.init_call self location)
           (if Transaction.phase_eqb (Engine.state r)
                Transaction.STATE_PREPARE
            then added else tl added)) /\
      (out = Engine.Done tt ->
       Engine.inits_of new
       = map (Engine.init_call self location)
           (if Transaction.phase_eqb (Engine.state r)
                Transaction.STATE_PREPARE
            then added else tl added) /\
       (added <> [] -> Engine.state r' = Transaction.STATE_PREPARE)).
Proof.
  induction added as [|p l IH]; intros r out r' H.
  - injection H as <- <-. exists []. rewrite app_nil_r.
    split; [reflexivity|].
    destruct (Transaction.phase_eqb _ _); cbn [tl map Engine.inits_of];
      (split; [apply prefix_nil|]); intros _;
      (split; [reflexivity|]); intros C; now contradiction C.
  - unfold Engine._perform_adds in H. rewrite for_each_cons in H.
    fold (Engine._perform_adds env self location [p]) in H.
    fold (Engine._perform_adds env self location l) in H.
    destruct (Engine._perform_adds env self location [p] r)
      as [o1 r1] eqn:Hb.
    destruct (perform_adds_round _ _ _ _ _ Hb) as (n1 & T1 & R1).
    destruct o1 as [[]|f].
    + destruct R1 as [S1 I1].
      destruct (IH _ _ _ H) as (n & T & P & D).
      rewrite S1 in P, D. cbn [Transaction.phase_eqb] in P, D.
      exists (n1 ++ n). split; [now rewrite T, T1, app_assoc|].
      rewrite inits_of_app, I1.
      destruct (Transaction.phase_eqb (Engine.state r)
                  Transaction.STATE_PREPARE); cbn [tl map app].
      * split; [exact (prefix_app [_] _ _ P)|]. intros Ho.
        destruct (D Ho) as [D1 D2]. rewrite D1. split; [reflexivity|].
        intros _. destruct l as [|q l]; [|apply D2; discriminate].
        injection H as _ <-. exact S1.
      * split; [exact P|]. intros Ho.
        destruct (D Ho) as [D1 D2]. split; [exact D1|].
        intros _. destruct l as [|q l]; [|apply D2; discriminate].
        injection H as _ <-. exact S1.
    + injection H as <- <-. exists n1. split; [exact T1|].
      split; [|discriminate].
      destruct (Transaction.phase_eqb (Engine.state r)
                  Transaction.STATE_PREPARE); cbn [tl map].
      * exact (prefix_more _ [_] _ R1).
      * exact (prefix_more _ [] _ R1).
Qed.

Lemma commit_modified_commits (modified : list string) :
  forall r out r',
    Engine._commit_modified env self modified r = (out, r') ->
    exists new,
      Engine.trace r' = Engine.trace r ++ new /\
      Engine.prefix (Engine.commits_of new)
        (map (os_path_join (WC.path self))
           (if Transaction.phase_eqb (Engine.state r)
                Transaction.STATE_TRANSFER
            then modified else tl modified)) /\
      (out = Engine.Done tt ->
       Engine.commits_of new
       = map (os_path_join (WC.path self))
           (if Transaction.phase_eqb (Engine.state r)
                Transaction.STATE_TRANSFER
            then modified else tl modified)).
Proof.
  induction modified as [|p l IH]; intros r out r' H.
  - injection H as <- <-. exists []. rewrite app_nil_r.
    split; [reflexivity|].
    destruct (Transaction.phase_eqb _ _); cbn [tl map Engine.commits_of];
      (split; [apply prefix_nil|]); reflexivity.
  - unfold Engine._commit_modified in H. rewrite for_each_cons in H.
    fold (Engine._commit_modified env self [p]) in H.
    fold (Engine._commit_modified env self l) in H.
    destruct (Engine._commit_modified env self [p] r) as [o1 r1] eqn:Hb.
    destruct (commit_modified_round _ _ _ _ Hb) as (n1 & T1 & R1).
    destruct o1 as [[]|f].
    + destruct R1 as [S1 I1].
      destruct (IH _ _ _ H) as (n & T & P & D).
      rewrite S1 in P, D. cbn [Transaction.phase_eqb] in P, D.
      exists (n1 ++ n). split; [now rewrite T, T1, app_assoc|].
      rewrite commits_of_app, I1.
      destruct (Transaction.phase_eqb (Engine.state r)
                  Transaction.STATE_TRANSFER); cbn [tl map app].
      * split; [exact (prefix_app [_] _ _ P)|]. intros Ho.
        now rewrite (D Ho).
      * split; [exact P|exact D].
    + injection H as <- <-. exists n1. split; [exact T1|].
      split; [|discriminate].
      destruct (Transaction.phase_eqb (Engine.state r)
                  Transaction.STATE_TRANSFER); cbn [tl map].
      * exact (prefix_more _ [_] _ R1).
      * exact (prefix_more _ [] _ R1).
Qed.

Lemma commit_modified_steps (modified : list string) :
  Engine.steps (Engine._commit_modified env self modified)
    (map (fun p => (p, Some " ")) modified).
Proof.
  unfold Engine._commit_modified. apply steps_for_each. intros p.
  steps_auto env.
Qed.

Lemma commit_adds_transfer (p : string) (l : list string)
  (r : Engine.Run) :
  Engine.state r = Transaction.STATE_TRANSFER ->
  Engine._commit_adds env self (p :: l) r
  = (Engine.Failed
       (Engine.Known
          (AttributeError
             "type object 'RemotePackage' has no attribute 'exists'")), r).
Proof.
  intros Hs. unfold Engine._commit_adds. cbn [Engine.for_each].
  unfold Engine.dbind, Engine.get_state, Engine.RemotePackage_getattr,
    Engine.dfail.
  rewrite Hs. reflexivity.
Qed.

Lemma commit_deletes_transfer (p : string) (l : list string)
  (r : Engine.Run) :
  Engine.state r = Transaction.STATE_TRANSFER ->
  Engine._commit_deletes env self (p :: l) r
  = (Engine.Failed
       (Engine.Known
          (AttributeError
             "type object 'RemotePackage' has no attribute 'delete'")), r).
Proof.
  intros Hs. unfold Engine._commit_deletes. cbn [Engine.for_each].
  unfold Engine.dbind, Engine.get_state, Engine.RemotePackage_getattr,
    Engine.dfail.
  rewrite Hs. reflexivity.
Qed.

Lemma commit_adds_done (added : list string) (r r' : Engine.Run) :
  Engine._commit_adds env self added r = (Engine.Done tt, r') ->
  (added = [] /\ r' = r) \/
  ((exists p, added = [p]) /\
   Engine.state r <> Transaction.STATE_TRANSFER /\
   Engine.state r' = Transaction.STATE_TRANSFER).
Proof.
  destruct added as [|p l]; intros H.
  - left. injection H as <-. now split.
  - right. unfold Engine._commit_adds in H. rewrite for_each_cons in H.
    fold (Engine._commit_adds env self [p]) in H.
    fold (Engine._commit_adds env self l) in H.
    destruct (Engine._commit_adds env self [p] r) as [[[]|f] r1] eqn:Hb;
      [|discriminate].
    destruct (commit_adds_round _ _ _ Hb) as [Hn Hs].
    destruct l as [|q l].
    + injection H as <-. split; [now exists p|]. now split.
    + rewrite (commit_adds_transfer q l r1 Hs) in H. discriminate.
Qed.

Lemma commit_deletes_done (deleted : list string) (r r' : Engine.Run) :
  Engine._commit_deletes env self deleted r = (Engine.Done tt, r') ->
  (deleted = [] /\ r' = r) \/
  ((exists p, deleted = [p]) /\
   Engine.state r <> Transaction.STATE_TRANSFER /\
   Engine.state r' = Transaction.STATE_TRANSFER).
Proof.
  destruct deleted as [|p l]; intros H.
  - left. injection H as <-. now split.
  - right. unfold Engine._commit_deletes in H. rewrite for_each_cons in H.
    fold (Engine._commit_deletes env self [p]) in H.
    fold (Engine._commit_deletes env self l) in H.
    destruct (Engine._commit_deletes env self [p] r) as [[[]|f] r1] eqn:Hb;
      [|discriminate].
    destruct (commit_deletes_round _ _ _ Hb) as [Hn Hs].
    destruct l as [|q l].
    + injection H as <-. split; [now exists p|]. now split.
    + rewrite (commit_deletes_transfer q l r1 Hs) in H. discriminate.
Qed.

(* --------------------------------------------------------------------- *)
(** *** When nothing raises                                               *)
(* --------------------------------------------------------------------- *)

Lemma perform_adds_returns (location : string) (added : list string) :
  Engine.returns env (Engine._perform_adds env self location added).
Proof.
  unfold Engine._perform_adds. apply returns_for_each. intros p _.
  returns_auto.
Qed.

Lemma perform_deletes_returns (deleted : list string) :
  Engine.returns env (Engine._perform_deletes env self deleted).
Proof.
  unfold Engine._perform_deletes. apply returns_for_each. intros p _.
  apply returns_bind; [apply returns_set_state|intros _].
  apply returns_bind; [apply returns_call|intros _].
  apply returns_bind; [apply remove_wc_dir_returns|intros _].
  returns_auto.
Qed.

Lemma perform_candidates_returns (candidates : list string) :
  (forall t p, In p candidates ->
     WC.package self (Engine.fs_after env t) p <> None) ->
  Engine.returns env (Engine._perform_candidates env self candidates).
Proof.
  intros Hvalid. unfold Engine._perform_candidates.
  apply returns_for_each. intros p Hin Hnf r.
  unfold Engine.dbind at 1, Engine.ask.
  specialize (Hvalid (Engine.trace r) p Hin).
  destruct (WC.package self (Engine.fs_after env (Engine.trace r)) p)
    as [h|]; [|contradiction].
  assert (Hr : Engine.returns env
                 (Engine.dbind
                    (Engine.call env (Engine.PkgUpdate (WC.pkg_path h)))
                    (fun _ => Engine.update_processed env p (Some " "))))
    by returns_auto.
  exact (Hr Hnf r).
Qed.

Lemma for_each_app (body : string -> Engine.D unit) (l1 l2 : list string) :
  forall r,
    Engine.for_each (l1 ++ l2) body r
    = match Engine.for_each l1 body r with
      | (Engine.Done _, r1) => Engine.for_each l2 body r1
      | (Engine.Failed f, r1) => (Engine.Failed f, r1)
      end.
Proof.
  induction l1 as [|p l1 IH]; intros r; [reflexivity|].
  cbn [app Engine.for_each]. unfold Engine.dbind.
  destruct (body p r) as [[[]|f] r1]; [apply IH|reflexivity].
Qed.

End DriverFacts.

(** X14: [_update] marks packages as processed in the order of the added,
    the deleted and the candidate packages, never one before its
    predecessors.  A call of merge returns only as the last call of a run
    that returns, after all of them have been processed; in a run that
    raises no call of merge has returned: either merge was not reached,
    or merge itself raised after every package had been processed (a call
    that raises leaves no mark in the trace). *)
Theorem update_processes_in_order (env : Engine.Env) (self : WC.Project)
  (location : string) (added deleted candidates : list string)
  (r : Engine.Run) (out : Engine.outcome unit) (r' : Engine.Run) :
  Engine._update env self location added deleted candidates r = (out, r') ->
  exists new,
    Engine.trace r' = Engine.trace r ++ new /\
    match out with
    | Engine.Done _ =>
        exists before,
          new = before ++ [Engine.Merge] /\
          ~ In Engine.Merge before /\
          Engine.processed_of before
          = map (fun p => (p, Some " ")) added
            ++ map (fun p => (p, None)) deleted
            ++ map (fun p => (p, Some " ")) candidates
    | Engine.Failed _ =>
        ~ In Engine.Merge new /\
        Engine.prefix (Engine.processed_of new)
          (map (fun p => (p, Some " ")) added
           ++ map (fun p => (p, None)) deleted
           ++ map (fun p => (p, Some " ")) candidates)
    end.
Proof. apply update_run. Qed.

Lemma update_processes_in_order_witness :
  exists r' new,
    Engine._update Runs.offline Scenario.prj2 "/tmp/upd" [] ["del"] ["foo"]
      (Runs.fresh Transaction.STATE_PREPARE)
    = (Engine.Failed (Engine.Foreign "URLError"), r') /\
    Engine.trace r' = new /\
    ~ In Engine.Merge new /\
    Engine.prefix (Engine.processed_of new)
      [("del", None); ("foo", Some " ")].
Proof.
  eexists. 
  destruct (update_processes_in_order Runs.offline Scenario.prj2 "/tmp/upd"
              [] ["del"] ["foo"] (Runs.fresh Transaction.STATE_PREPARE)
              (Engine.Failed (Engine.Foreign "URLError"))
              (snd (Engine._update Runs.offline Scenario.prj2 "/tmp/upd"
                      [] ["del"] ["foo"]
                      (Runs.fresh Transaction.STATE_PREPARE))))
    as (new & T & M & P); [reflexivity|].
  exists new. split; [reflexivity|]. split; [exact T|]. split; assumption.
Defined.

(** X15: every [Package.init] that [_perform_adds] calls gets the name of
    the project as project, the added package as name, the api url of the
    project, the package directory below the location of the transaction
    and the data directory of the package as store.  When the loop returns
    it has made one such call per entry of the added packages, in order,
    except for the first entry when the transaction was not in
    STATE_PREPARE at the start, and the state is STATE_PREPARE again. *)
Theorem perform_adds_initialises (env : Engine.Env) (self : WC.Project)
  (location : string) (added : list string)
  (r : Engine.Run) (out : Engine.outcome unit) (r' : Engine.Run) :
  Engine._perform_adds env self location added r = (out, r') ->
  exists new,
    Engine.trace r' = Engine.trace r ++ new /\
    (forall c, In c (Engine.inits_of new) ->
       WC.init_project c = WC.name self /\
       WC.init_api_url c = WC.apiurl self /\
       WC.init_path c = os_path_join location (WC.init_name c) /\
       WC.init_external_store c
       = WC.wc_pkg_data_filename (WC.path self) (WC.init_name c) /\
       In (WC.init_name c) added) /\
    (out = Engine.Done tt ->
     map WC.init_name (Engine.inits_of new)
     = (if Transaction.phase_eqb (Engine.state r) Transaction.STATE_PREPARE
        then added else tl added) /\
     (added <> [] -> Engine.state r' = Transaction.STATE_PREPARE)).
Proof.
  intros H.
  destruct (perform_adds_inits env self location added r out r' H)
    as (new & T & [rest P] & D).
  exists new. split; [exact T|]. split.
  - intros c Hc.
    assert (Hin : In c (map (Engine.init_call self location)
                          (if Transaction.phase_eqb (Engine.state r)
                                Transaction.STATE_PREPARE
                           then added else tl added)))
      by (rewrite P; apply in_or_app; now left).
    apply in_map_iff in Hin. destruct Hin as (p & <- & Hp).
    cbn [Engine.init_call WC.init_project WC.init_api_url WC.init_path
         WC.init_external_store WC.init_name].
    repeat (split; [reflexivity|]).
    destruct (Transaction.phase_eqb _ _); [exact Hp|].
    destruct added as [|q l]; [contradiction|now right].
  - intros Ho. destruct (D Ho) as [D1 D2]. split; [|exact D2].
    rewrite D1, map_map. apply map_id.
Qed.

Lemma perform_adds_initialises_witness :
  exists r' new,
    Engine._perform_adds Runs.calm Scenario.prj2 "/tmp/upd" ["osc"; "new"]
      (Runs.fresh Transaction.STATE_UPDATING)
    = (Engine.Done tt, r') /\
    Engine.trace r' = new /\
    map WC.init_name (Engine.inits_of new) = ["new"] /\
    Engine.state r' = Transaction.STATE_PREPARE.
Proof.
  eexists.
  destruct (perform_adds_initialises Runs.calm Scenario.prj2 "/tmp/upd"
              ["osc"; "new"] (Runs.fresh Transaction.STATE_UPDATING)
              (Engine.Done tt)
              (snd (Engine._perform_adds Runs.calm Scenario.prj2 "/tmp/upd"
                      ["osc"; "new"]
                      (Runs.fresh Transaction.STATE_UPDATING))))
    as (new & T & _ & D); [reflexivity|].
  destruct (D eq_refl) as [D1 D2].
  exists new. split; [reflexivity|]. split; [exact T|].
  split; [exact D1|]. apply D2. discriminate.
Defined.

(** X16: when no call raises, [_perform_candidates] processes the
    candidates that have a package working copy up to the first one that
    has none, and raises ValueError for that one; what was processed stays
    processed and the later candidates are not touched. *)
Theorem invalid_candidate_stops (env : Engine.Env) (self : WC.Project)
  (pre : list string) (p : string) (post : list string) (r : Engine.Run) :
  Engine.never_fails env ->
  (forall t q, In q pre ->
     WC.package self (Engine.fs_after env t) q <> None) ->
  (forall t, WC.package self (Engine.fs_after env t) p = None) ->
  exists r' new,
    Engine._perform_candidates env self (pre ++ p :: post) r
    = (Engine.Failed
         (Engine.Known
            (ValueError ("package " ++ dq ++ p ++ dq
                         ++ " is an invalid candidate."))), r') /\
    Engine.trace r' = Engine.trace r ++ new /\
    Engine.processed_of new = map (fun q => (q, Some " ")) pre.
Proof.
  intros Hnf Hpre Hp.
  destruct (perform_candidates_returns env self pre Hpre Hnf r)
    as ([] & r1 & Hrun).
  destruct (perform_candidates_steps env self pre r _ _ Hrun)
    as (new & T & P).
  exists r1, new. split; [|now split].
  unfold Engine._perform_candidates in *.
  rewrite for_each_app, Hrun. cbn [Engine.for_each].
  unfold Engine.dbind, Engine.ask, Engine.dfail. now rewrite Hp.
Qed.

Lemma invalid_candidate_stops_witness :
  exists r' new,
    Engine._perform_candidates Runs.calm Scenario.prj2 ["foo"; "xxx"; "abc"]
      (Runs.fresh Transaction.STATE_PREPARE)
    = (Engine.Failed
         (Engine.Known
            (ValueError ("package " ++ dq ++ "xxx" ++ dq
                         ++ " is an invalid candidate."))), r') /\
    Engine.trace r' = new /\
    Engine.processed_of new = [("foo", Some " ")].
Proof.
  apply (invalid_candidate_stops Runs.calm Scenario.prj2 ["foo"] "xxx"
           ["abc"] (Runs.fresh Transaction.STATE_PREPARE)).
  - intros t e. reflexivity.
  - intros t q [<-|[]]. vm_compute. discriminate.
  - intros t. reflexivity.
Defined.

(** X17: [_commit] cannot add or delete a package on the server:
    [RemotePackage.exists] and [RemotePackage.delete] are not defined, so
    in STATE_TRANSFER the first added package, or else the first deleted
    one, raises AttributeError before any call is made.  A run of
    [_commit] that returns had at most one added or deleted package and
    did not start in STATE_TRANSFER. *)
Theorem commit_cannot_add_or_delete (env : Engine.Env) (self : WC.Project)
  (added deleted modified : list string) (r : Engine.Run) :
  (Engine.state r = Transaction.STATE_TRANSFER -> added <> [] ->
   Engine._commit env self added deleted modified r
   = (Engine.Failed
        (Engine.Known
           (AttributeError
              "type object 'RemotePackage' has no attribute 'exists'")),
      r)) /\
  (Engine.state r = Transaction.STATE_TRANSFER -> added = [] ->
   deleted <> [] ->
   Engine._commit env self added deleted modified r
   = (Engine.Failed
        (Engine.Known
           (AttributeError
              "type object 'RemotePackage' has no attribute 'delete'")),
      r)) /\
  (forall r',
     Engine._commit env self added deleted modified r
     = (Engine.Done tt, r') ->
     length (added ++ deleted) <= 1 /\
     (added ++ deleted <> [] ->
      Engine.state r <> Transaction.STATE_TRANSFER)).
Proof.
  split; [|split].
  - intros Hs Ha. destruct added as [|p l]; [contradiction|].
    unfold Engine._commit, Engine.dbind at 1.
    now rewrite (commit_adds_transfer env self p l r Hs).
  - intros Hs -> Hd. destruct deleted as [|p l]; [contradiction|].
    unfold Engine._commit. cbn [Engine._commit_adds Engine.for_each].
    unfold Engine.dbind at 1, Engine.dret. unfold Engine.dbind at 1.
    now rewrite (commit_deletes_transfer env self p l r Hs).
  - intros r' H. unfold Engine._commit in H.
    apply dbind_done in H as ([] & r1 & Ha & H).
    apply dbind_done in H as ([] & r2 & Hd & _).
    apply commit_adds_done in Ha. apply commit_deletes_done in Hd.
    destruct Ha as [[-> ->]|([p ->] & Hn & Hs)];
      destruct Hd as [[-> _]|([q ->] & Hn' & _)]; cbn [app length].
    + split; [lia|]. intros C. now contradiction C.
    + split; [lia|]. intros _. exact Hn'.
    + split; [lia|]. intros _. exact Hn.
    + contradiction.
Qed.

Lemma commit_cannot_add_or_delete_witness :
  Engine._commit Runs.calm Scenario.prj2 ["bar"] ["abc"] ["foo"]
    (Runs.fresh Transaction.STATE_TRANSFER)
  = (Engine.Failed
       (Engine.Known
          (AttributeError
             "type object 'RemotePackage' has no attribute 'exists'")),
     Runs.fresh Transaction.STATE_TRANSFER) /\
  Engine._commit Runs.calm Scenario.prj2 [] ["abc"] ["foo"]
    (Runs.fresh Transaction.STATE_TRANSFER)
  = (Engine.Failed
       (Engine.Known
          (AttributeError
             "type object 'RemotePackage' has no attribute 'delete'")),
     Runs.fresh Transaction.STATE_TRANSFER).
Proof.
  split.
  - apply (commit_cannot_add_or_delete Runs.calm Scenario.prj2 ["bar"]
             ["abc"] ["foo"] (Runs.fresh Transaction.STATE_TRANSFER));
      [reflexivity|discriminate].
  - apply (commit_cannot_add_or_delete Runs.calm Scenario.prj2 []
             ["abc"] ["foo"] (Runs.fresh Transaction.STATE_TRANSFER));
      [reflexivity|reflexivity|discriminate].
Defined.

(** X18: [_commit_modified] commits the working copies of the modified
    packages in list order, one commit per entry, and skips the commit of
    the first one when the transaction was not in STATE_TRANSFER at the
    start; what it has committed when it raises is a beginning of that
    sequence, and when it returns it has committed all of it and marked
    every modified package as processed. *)
Theorem commit_modified_resumes (env : Engine.Env) (self : WC.Project)
  (modified : list string)
  (r : Engine.Run) (out : Engine.outcome unit) (r' : Engine.Run) :
  Engine._commit_modified env self modified r = (out, r') ->
  exists new,
    Engine.trace r' = Engine.trace r ++ new /\
    Engine.prefix (Engine.commits_of new)
      (map (os_path_join (WC.path self))
         (if Transaction.phase_eqb (Engine.state r)
              Transaction.STATE_TRANSFER
          then modified else tl modified)) /\
    (out = Engine.Done tt ->
     Engine.commits_of new
     = map (os_path_join (WC.path self))
         (if Transaction.phase_eqb (Engine.state r)
              Transaction.STATE_TRANSFER
          then modified else tl modified) /\
     Engine.processed_of new = map (fun p => (p, Some " ")) modified).
Proof.
  intros H.
  destruct (commit_modified_commits env self modified r out r' H)
    as (new & T & P & D).
  exists new. split; [exact T|]. split; [exact P|].
  intros ->. split; [now apply D|].
  destruct (commit_modified_steps env self modified r _ _ H)
    as (new' & T' & P').
  rewrite T in T'. apply app_inv_head in T'. now subst new'.
Qed.

Lemma commit_modified_resumes_witness :
  exists r' new,
    Engine._commit_modified Runs.calm Scenario.prj2 ["foo"; "bar"]
      (Runs.fresh Transaction.STATE_COMMITTING)
    = (Engine.Done tt, r') /\
    Engine.trace r' = new /\
    Engine.commits_of new = [os_path_join (WC.path Scenario.prj2) "bar"] /\
    Engine.processed_of new = [("foo", Some " "); ("bar", Some " ")].
Proof.
  eexists.
  destruct (commit_modified_resumes Runs.calm Scenario.prj2 ["foo"; "bar"]
              (Runs.fresh Transaction.STATE_COMMITTING) (Engine.Done tt)
              (snd (Engine._commit_modified Runs.calm Scenario.prj2
                      ["foo"; "bar"]
                      (Runs.fresh Transaction.STATE_COMMITTING))))
    as (new & T & _ & D); [reflexivity|].
  destruct (D eq_refl) as [D1 D2].
  exists new. split; [reflexivity|]. split; [exact T|]. now split.
Defined.

(** X19: when no call to the outside raises and every candidate has a
    package working copy, [_update] returns: every added, deleted and
    candidate package is processed, a deleted one also when it has no
    working copy or directory left, and merge is the last call. *)
Theorem update_completes (env : Engine.Env) (self : WC.Project)
  (location : string) (added deleted candidates : list string)
  (r : Engine.Run) :
  Engine.never_fails env ->
  (forall t p, In p candidates ->
     WC.package self (Engine.fs_after env t) p <> None) ->
  exists r' before,
    Engine._update env self location added deleted candidates r
    = (Engine.Done tt, r') /\
    Engine.trace r' = Engine.trace r ++ before ++ [Engine.Merge] /\
    Engine.processed_of before
    = map (fun p => (p, Some " ")) added
      ++ map (fun p => (p, None)) deleted
      ++ map (fun p => (p, Some " ")) candidates.
Proof.
  intros Hnf Hvalid.
  assert (Hret : Engine.returns env
                   (Engine._update env self location added deleted
                      candidates)).
  { unfold Engine._update.
    apply returns_bind; [apply perform_adds_returns|intros _].
    apply returns_bind; [apply perform_deletes_returns|intros _].
    apply returns_bind;
      [now apply perform_candidates_returns|intros _].
    apply returns_call. }
  destruct (Hret Hnf r) as ([] & r' & Hrun).
  destruct (update_run env self _ _ _ _ _ _ _ Hrun)
    as (new & T & before & -> & _ & P).
  now exists r', before.
Qed.

Lemma update_completes_witness :
  exists r' before,
    Engine._update Runs.calm Scenario.prj2 "/tmp/upd" ["osc"] ["del"]
      ["foo"] (Runs.fresh Transaction.STATE_PREPARE)
    = (Engine.Done tt, r') /\
    Engine.trace r' = [] ++ before ++ [Engine.Merge] /\
    Engine.processed_of before
    = [("osc", Some " "); ("del", None); ("foo", Some " ")].
Proof.
  apply (update_completes Runs.calm Scenario.prj2 "/tmp/upd" ["osc"]
           ["del"] ["foo"] (Runs.fresh Transaction.STATE_PREPARE)).
  - intros t e. reflexivity.
  - intros t p [<-|[]]. vm_compute. discriminate.
Defined.

(* ===================================================================== *)
(** ** Resuming, and the build results                                    *)
(* ===================================================================== *)

Lemma clear_uinfo_entry (info : WC.PackageUpdateInfo) :
  Resume._clear_uinfo info
  = Ok (hd "" (WC.candidates info ++ WC.added info ++ WC.deleted info
               ++ WC.conflicted info)).
Proof.
  unfold Resume._clear_uinfo. cbn.
  destruct (WC.candidates info); [|reflexivity].
  destruct (WC.added info); [|reflexivity].
  destruct (WC.deleted info); [|reflexivity].
  destruct (WC.conflicted info); reflexivity.
Qed.

Lemma clear_cinfo_entry (info : WC.PackageCommitInfo) :
  Resume._clear_cinfo info
  = Ok (hd "" (WC.c_unchanged info ++ WC.c_added info ++ WC.c_deleted info
               ++ WC.c_modified info ++ WC.c_conflicted info)).
Proof.
  unfold Resume._clear_cinfo. cbn.
  destruct (WC.c_unchanged info); [|reflexivity].
  destruct (WC.c_added info); [|reflexivity].
  destruct (WC.c_deleted info); [|reflexivity].
  destruct (WC.c_modified info); [|reflexivity].
  destruct (WC.c_conflicted info); reflexivity.
Qed.

(** X20: on resume [_clear_uinfo] passes to [clear_info] the first
    package of the first non-empty list in the order candidates, added,
    deleted, conflicted ([_clear_cinfo]: unchanged, added, deleted,
    modified, conflicted; the empty string when all are empty), whereas
    the first package that [_update] processes, driven with the same
    lists, is the first one of added, deleted, candidates in this order.
    With an added package and a candidate, the entry passed on is the
    candidate and the package driven first is the added one. *)
Theorem resume_entry_and_first_package (env : Engine.Env)
  (self : WC.Project) (location : string) (info : WC.PackageUpdateInfo)
  (cinfo : WC.PackageCommitInfo)
  (r : Engine.Run) (out : Engine.outcome unit) (r' : Engine.Run)
  (first : string * option string) (rest : list (string * option string)) :
  Engine._update env self location (WC.added info) (WC.deleted info)
    (WC.candidates info) r = (out, r') ->
  (forall new, Engine.trace r' = Engine.trace r ++ new ->
     Engine.processed_of new = first :: rest) ->
  Resume._clear_uinfo info
  = Ok (hd "" (WC.candidates info ++ WC.added info ++ WC.deleted info
               ++ WC.conflicted info)) /\
  Resume._clear_cinfo cinfo
  = Ok (hd "" (WC.c_unchanged cinfo ++ WC.c_added cinfo
               ++ WC.c_deleted cinfo ++ WC.c_modified cinfo
               ++ WC.c_conflicted cinfo)) /\
  fst first
  = hd "" (WC.added info ++ WC.deleted info ++ WC.candidates info).
Proof.
  intros Hrun Hfirst.
  split; [apply clear_uinfo_entry|]. split; [apply clear_cinfo_entry|].
  destruct (update_run env self _ _ _ _ _ _ _ Hrun) as (new & T & R).
  assert (Hex : exists more,
             map (fun p => (p, Some " ")) (WC.added info)
             ++ map (fun p => (p, @None string)) (WC.deleted info)
             ++ map (fun p => (p, Some " ")) (WC.candidates info)
             = first :: more).
  { destruct out.
    - destruct R as (before & -> & _ & P).
      specialize (Hfirst _ T). rewrite processed_of_app in Hfirst.
      cbn in Hfirst. rewrite app_nil_r, P in Hfirst. now exists rest.
    - destruct R as (_ & more & P). rewrite (Hfirst _ T) in P.
      now exists (rest ++ more). }
  destruct Hex as (more & Hex).
  apply (f_equal (map fst)) in Hex.
  rewrite !map_app, !map_map in Hex. cbn [fst] in Hex.
  rewrite !map_id in Hex. now rewrite Hex.
Qed.

Lemma resume_entry_and_first_package_witness :
  Resume._clear_uinfo
    {| WC.candidates := ["foo"]; WC.added := ["osc"]; WC.deleted := [];
       WC.conflicted := [] |} = Ok "foo" /\
  fst ("osc", Some " ") = "osc".
Proof.
  destruct (resume_entry_and_first_package Runs.calm Scenario.prj2
              "/tmp/upd"
              {| WC.candidates := ["foo"]; WC.added := ["osc"];
                 WC.deleted := []; WC.conflicted := [] |}
              {| WC.c_unchanged := []; WC.c_added := []; WC.c_deleted := [];
                 WC.c_modified := []; WC.c_conflicted := [] |}
              (Runs.fresh Transaction.STATE_UPDATING) (Engine.Done tt)
              (snd (Engine._update Runs.calm Scenario.prj2 "/tmp/upd"
                      ["osc"] [] ["foo"]
                      (Runs.fresh Transaction.STATE_UPDATING)))
              ("osc", Some " ") [("foo", Some " ")])
    as (H1 & _ & H3).
  - reflexivity.
  - intros new T. cbn in T. now subst new.
  - split; [exact H1|exact H3].
Defined.

(* --------------------------------------------------------------------- *)
(** *** osc/build.py                                                      *)
(* --------------------------------------------------------------------- *)










Lemma build_has_key_app {V} (k : string) (a b : list (string * V)) :
  Build.has_key k (a ++ b) = orb (Build.has_key k a) (Build.has_key k b).
Proof.
  induction a as [|[k' v] a IH]; cbn; [reflexivity|].
  now destruct (String.eqb k k').
Qed.

Section PrepareFacts.
Variable value : Type.
Variable truth : value -> bool.
Variable attr : string -> option value.

Lemma prepare_kwargs_ok (required : list string) :
  forall kwargs,
    fst (Build._prepare_kwargs value truth attr kwargs required) = Ok tt <->
    NoDup required /\
    forall i, In i required ->
      Build.has_key i kwargs = false /\
      Build.attr_true value truth attr i = true.
Proof.
  induction required as [|i rest IH]; intros kwargs; cbn [Build._prepare_kwargs].
  - split; [intros _|intros _; reflexivity].
    split; [constructor|]. intros i [].
  - destruct (Build.has_key i kwargs) eqn:Hk; cbn [negb andb].
    + split; [discriminate|]. intros [_ H].
      destruct (H i (or_introl eq_refl)) as [C _]. congruence.
    + destruct (Build.attr_true value truth attr i) eqn:Ht.
      * unfold Build.attr_true in Ht.
        destruct (attr i) as [v|] eqn:Ha; [|discriminate].
        rewrite IH. split.
        -- intros [Hnd H]. split.
           ++ constructor; [|exact Hnd]. intros Hin.
              destruct (H i Hin) as [C _].
              rewrite build_has_key_app in C. cbn in C.
              rewrite String.eqb_refl, orb_true_r in C. discriminate.
           ++ intros j [<-|Hj].
              ** split; [exact Hk|]. unfold Build.attr_true.
                 now rewrite Ha.
              ** destruct (H j Hj) as [C1 C2]. split; [|exact C2].
                 rewrite build_has_key_app in C1.
                 now apply orb_false_elim in C1.
        -- intros [Hnd H]. inversion Hnd as [|x l Hni Hnd']; subst.
           split; [exact Hnd'|]. intros j Hj.
           destruct (H j (or_intror Hj)) as [C1 C2]. split; [|exact C2].
           rewrite build_has_key_app, C1. cbn.
           destruct (String.eqb j i) eqn:E; [|reflexivity].
           apply String.eqb_eq in E. subst j. contradiction.
      * split; [discriminate|]. intros [_ H].
        destruct (H i (or_introl eq_refl)) as [_ C]. congruence.
Qed.

Lemma prepare_kwargs_raises (required : list string) :
  forall kwargs,
    fst (Build._prepare_kwargs value truth attr kwargs required) = Ok tt \/
    exists j,
      In j required /\
      fst (Build._prepare_kwargs value truth attr kwargs required)
      = Raise (ValueError ("missing parameter: " ++ j)).
Proof.
  induction required as [|i rest IH]; intros kwargs; cbn [Build._prepare_kwargs].
  - now left.
  - destruct (andb _ _) eqn:Hc.
    + apply andb_true_iff in Hc. destruct Hc as [_ Ht].
      unfold Build.attr_true in Ht.
      destruct (attr i) as [v|]; [|discriminate].
      destruct (IH (kwargs ++ [(i, v)])) as [H|(j & Hj & H)];
        [now left|].
      right. exists j. split; [now right|exact H].
    + right. exists i. split; [now left|reflexivity].
Qed.

Lemma prepare_kwargs_extends (required : list string) :
  forall kwargs,
    exists more,
      snd (Build._prepare_kwargs value truth attr kwargs required)
      = kwargs ++ more /\
      forall k v, In (k, v) more -> In k required /\ attr k = Some v.
Proof.
  induction required as [|i rest IH]; intros kwargs; cbn [Build._prepare_kwargs].
  - exists []. split; [now rewrite app_nil_r|]. intros k v [].
  - destruct (andb _ _) eqn:Hc.
    + destruct (attr i) as [v|] eqn:Ha.
      * destruct (IH (kwargs ++ [(i, v)])) as (more & Hs & Hm).
        exists ((i, v) :: more). split.
        -- rewrite Hs, <- app_assoc. reflexivity.
        -- intros k w [[= <- <-]|Hin]; [split; [now left|exact Ha]|].
           destruct (Hm k w Hin) as [H1 H2]. split; [now right|exact H2].
      * exists []. split; [now rewrite app_nil_r|]. intros k v [].
    + exists []. split; [now rewrite app_nil_r|]. intros k v [].
Qed.

End PrepareFacts.

(** X23: [BuildResult._prepare_kwargs] returns exactly when the required
    names are distinct, none of them is a key of [kwargs] and the object
    has a true attribute for each; otherwise it raises ValueError
    'missing parameter: <name>' for one of them, so a required parameter
    that the caller passes is rejected as missing.  In both cases
    [kwargs] keeps its items and has only gained attributes of the object
    under required names. *)
Theorem prepare_kwargs_rejects_given (value : Type) (truth : value -> bool)
  (attr : string -> option value) (kwargs : list (string * value))
  (required : list string) :
  let run := Build._prepare_kwargs value truth attr kwargs required in
  (fst run = Ok tt <->
   NoDup required /\
   forall i, In i required ->
     Build.has_key i kwargs = false /\
     Build.attr_true value truth attr i = true) /\
  (fst run = Ok tt \/
   exists j, In j required /\
     fst run = Raise (ValueError ("missing parameter: " ++ j))) /\
  (exists more,
     snd run = kwargs ++ more /\
     forall k v, In (k, v) more -> In k required /\ attr k = Some v).
Proof.
  cbv zeta. split; [apply prepare_kwargs_ok|].
  split; [apply prepare_kwargs_raises|apply prepare_kwargs_extends].
Qed.

(* --------------------------------------------------------------------- *)
(** *** Storing a remote model                                            *)
(* --------------------------------------------------------------------- *)




(* --------------------------------------------------------------------- *)
(** *** Writing to a file name                                            *)
(* --------------------------------------------------------------------- *)

(** X25: [RemoteFile.write_to] with a file name never returns and never
    renames anything to the destination.  It raises ValueError when the
    destination exists and is not writable, or when its directory does
    not exist or is not writable (these two messages name the builtin
    [dir], not the directory), and nothing has happened then.  Otherwise,
    once the temporary file is made, it raises TypeError: [tmp_filename]
    holds the file object of the temporary file, which neither
    [os.rename] nor the [os.path.isfile] of the finally clause accepts,
    also when fetching the data has raised something else before. *)
Theorem write_to_name_never_renames (os : WriteTo.OS)
  (request : Remote.RequestObj) (dest : string) (size : Z)
  (s : Remote.St) :
  let run := WriteTo.write_to os request dest size (WriteTo.start s) in
  let dir := WriteTo.dirname os dest in
  (forall u, fst run <> inl u) /\
  (forall a b, ~ In (WriteTo.Renamed a b) (WriteTo.actions (snd run))) /\
  (WriteTo.exists_ os dest = true -> WriteTo.writable os dest = false ->
   run = (inr (WriteTo.Python
                 (ValueError ("invalid dest filename: " ++ dest
                              ++ " is not writable"))),
          WriteTo.start s)) /\
  (andb (WriteTo.exists_ os dest) (negb (WriteTo.writable os dest)) = false ->
   (WriteTo.exists_ os dir = false ->
    run = (inr (WriteTo.Python
                  (ValueError
                     "invalid dest filename: dir <built-in function dir> does not exist")),
           WriteTo.start s)) /\
   (WriteTo.exists_ os dir = true -> WriteTo.writable os dir = false ->
    run = (inr (WriteTo.Python
                  (ValueError
                     "invalid dest filename: dir <built-in function dir> is not writable")),
           WriteTo.start s)) /\
   (WriteTo.exists_ os dir = true -> WriteTo.writable os dir = true ->
    forall tmp, WriteTo.mktemp os dir = Some tmp ->
      fst run = inr (WriteTo.TypeError WriteTo.file_found) /\
      exists rest,
        WriteTo.actions (snd run) = WriteTo.Created tmp :: rest)).
Proof.
  cbv zeta. unfold WriteTo.write_to. cbv zeta.
  destruct (andb (WriteTo.exists_ os dest)
              (negb (WriteTo.writable os dest))) eqn:H1.
  { apply andb_true_iff in H1. destruct H1 as [He Hw].
    apply negb_true_iff in Hw.
    split; [discriminate|]. split; [intros a b []|].
    split; [reflexivity|]. discriminate. }
  destruct (WriteTo.exists_ os (WriteTo.dirname os dest)) eqn:H2;
    cbn [negb].
  2:{ split; [discriminate|]. split; [intros a b []|].
      split; [intros He Hw; rewrite He, Hw in H1; discriminate|].
      intros _. split; [reflexivity|]. split; discriminate. }
  destruct (WriteTo.writable os (WriteTo.dirname os dest)) eqn:H3;
    cbn [negb].
  2:{ split; [discriminate|]. split; [intros a b []|].
      split; [intros He Hw; rewrite He, Hw in H1; discriminate|].
      intros _. split; [discriminate|]. split; [reflexivity|].
      discriminate. }
  unfold WriteTo.wbind, WriteTo.set_tmp, WriteTo.try_finally,
    WriteTo.NamedTemporaryFile, WriteTo.start.
  cbn [WriteTo.obj WriteTo.actions WriteTo.tmp_filename].
  destruct (WriteTo.mktemp os (WriteTo.dirname os dest)) as [tmp|] eqn:H4.
  - unfold WriteTo.wbind, WriteTo.act, WriteTo.wret, WriteTo._write_to_tmp,
      WriteTo.get_tmp.
    cbn [WriteTo.obj WriteTo.actions WriteTo.tmp_filename app].
    destruct (RemoteIter._write_to request "" size s) as [[w|e] s'];
      cbn [WriteTo.obj WriteTo.actions WriteTo.tmp_filename app
           WriteTo.os_rename WriteTo.wraise WriteTo.truth
           WriteTo.os_path_isfile fst snd];
      (split; [discriminate|]);
      (split; [intros a b Hin; cbn in Hin;
               repeat (destruct Hin as [Hin|Hin]; [discriminate|]);
               exact Hin|]);
      (split; [intros He Hw; rewrite He, Hw in H1; discriminate|]);
      intros _; (split; [discriminate|]); (split; [discriminate|]);
      intros _ _ tmp' [= <-]; (split; [reflexivity|]); eexists; reflexivity.
  - unfold WriteTo.wraise, WriteTo.wbind, WriteTo.get_tmp, WriteTo.wret.
    cbn [WriteTo.obj WriteTo.actions WriteTo.tmp_filename WriteTo.truth
         Build.nonempty String.eqb negb fst snd].
    split; [discriminate|]. split; [intros a b []|].
    split; [intros He Hw; rewrite He, Hw in H1; discriminate|].
    intros _. split; [discriminate|]. split; [discriminate|].
    intros _ _ tmp'. discriminate.
Qed.

Lemma write_to_name_never_renames_witness :
  exists rest,
    fst (WriteTo.write_to WriteCases.friendly Cases.server "/tmp/out" (-1)
           (WriteTo.start (Remote.__init__ "/source/p/x/f" 8192 "GET" [], [])))
    = inr (WriteTo.TypeError WriteTo.file_found) /\
    WriteTo.actions
      (snd (WriteTo.write_to WriteCases.friendly Cases.server "/tmp/out" (-1)
              (WriteTo.start
                 (Remote.__init__ "/source/p/x/f" 8192 "GET" [], []))))
    = WriteTo.Created "/tmp/tmpx" :: rest.
Proof.
  destruct (write_to_name_never_renames WriteCases.friendly Cases.server
              "/tmp/out" (-1)
              (Remote.__init__ "/source/p/x/f" 8192 "GET" [], []))
    as (_ & _ & _ & H).
  destruct (H eq_refl) as (_ & _ & H').
  destruct (H' eq_refl eq_refl "/tmp/tmpx" eq_refl) as (Hout & rest & Hact).
  exists rest. split; [exact Hout|exact Hact].
Defined.

(* ===================================================================== *)
(** ** The lists of the classifiers, and add followed by remove           *)
(* ===================================================================== *)

Lemma NoDup_app_disjoint {A} (l1 l2 : list A) :
  NoDup l1 -> NoDup l2 -> (forall x, In x l1 -> ~ In x l2) ->
  NoDup (l1 ++ l2).
Proof.
  induction l1 as [|a l1 IH]; intros H1 H2 Hd; [exact H2|].
  inversion H1 as [|x l Hnotin H1']; subst. simpl. constructor.
  - rewrite in_app_iff. intros [Hin|Hin]; [contradiction|].
    exact (Hd a (or_introl eq_refl) Hin).
  - apply IH; [assumption | assumption |].
    intros x Hx. apply Hd. now right.
Qed.

Lemma count_three (A B C : list string) (x : string) :
  NoDup A -> NoDup B -> NoDup C ->
  (forall y, In y C -> ~ In y A /\ ~ In y B) ->
  count_occ string_dec ((A ++ B) ++ C) x <= 2.
Proof.
  intros HA HB HC Hd. rewrite !count_occ_app.
  rewrite (NoDup_count_occ string_dec) in HA, HB, HC.
  specialize (HA x). specialize (HB x). specialize (HC x).
  destruct (in_dec string_dec x C) as [Hin|Hout].
  - destruct (Hd x Hin) as [H1 H2].
    apply (count_occ_not_In string_dec) in H1, H2. lia.
  - apply (count_occ_not_In string_dec) in Hout. lia.
Qed.

Lemma update_lists_disjoint (self : WC.Project) (fs : WC.FS)
  (pkgs : WC.Answers) (remote selection : list string)
  (info : WC.PackageUpdateInfo) :
  WC._calculate_updateinfo self fs pkgs remote selection = Ok info ->
  Spec.pairwise_disjoint (Spec.update_lists info).
Proof.
  intros H.
  destruct (updateinfo_sound _ _ _ _ _ _ H) as (Hc & Ha & Hd & Hcf).
  assert (D1 : Spec.disjoint (WC.candidates info) (WC.added info)).
  { intros x H1 H2. apply Hc in H1. apply Ha in H2. tauto. }
  assert (D2 : Spec.disjoint (WC.candidates info) (WC.deleted info)).
  { intros x H1 H2. apply Hc in H1. apply Hd in H2. tauto. }
  assert (D3 : Spec.disjoint (WC.candidates info) (WC.conflicted info)).
  { intros x H1 H2. apply Hc in H1 as (_ & Hl & Hok). apply Hcf in H2.
    pose proof (candidate_ok_updateable _ _ _ _ Hok) as Hnu.
    destruct H2 as [[_ H2]|[(_ & _ & H2)|(_ & H2 & _)]];
      [congruence | congruence | tauto]. }
  assert (D4 : Spec.disjoint (WC.added info) (WC.deleted info)).
  { intros x H1 H2. apply Ha in H1. apply Hd in H2. tauto. }
  assert (D5 : Spec.disjoint (WC.added info) (WC.conflicted info)).
  { intros x H1 H2. apply Ha in H1 as (_ & Hl & Hok). apply Hcf in H2.
    destruct H2 as [[H2 _]|[(_ & H2 & _)|(_ & _ & H2)]];
      [tauto | tauto | congruence]. }
  assert (D6 : Spec.disjoint (WC.deleted info) (WC.conflicted info)).
  { intros x H1 H2. apply Hd in H1 as (Hl & Hr & _ & Hnu). apply Hcf in H2.
    destruct H2 as [[_ H2]|[(H2 & _)|(_ & H2 & _)]];
      [congruence | tauto | tauto]. }
  unfold Spec.update_lists. simpl. repeat (split || constructor); assumption.
Qed.

Lemma commit_lists_disjoint (self : WC.Project) (fs : WC.FS)
  (pkgs : WC.Answers) (selection : list string) :
  Spec.pairwise_disjoint
    (Spec.commit_lists (WC._calculate_commitinfo self fs pkgs selection)).
Proof.
  unfold Spec.commit_lists. simpl.
  repeat (split || constructor).
  all: first
    [ apply (commit_buckets_disjoint self fs pkgs selection
               Spec.Unchanged Spec.Added); discriminate
    | apply (commit_buckets_disjoint self fs pkgs selection
               Spec.Unchanged Spec.Deleted); discriminate
    | apply (commit_buckets_disjoint self fs pkgs selection
               Spec.Unchanged Spec.Modified); discriminate
    | apply (commit_buckets_disjoint self fs pkgs selection
               Spec.Unchanged Spec.Conflicted); discriminate
    | apply (commit_buckets_disjoint self fs pkgs selection
               Spec.Added Spec.Deleted); discriminate
    | apply (commit_buckets_disjoint self fs pkgs selection
               Spec.Added Spec.Modified); discriminate
    | apply (commit_buckets_disjoint self fs pkgs selection
               Spec.Added Spec.Conflicted); discriminate
    | apply (commit_buckets_disjoint self fs pkgs selection
               Spec.Deleted Spec.Modified); discriminate
    | apply (commit_buckets_disjoint self fs pkgs selection
               Spec.Deleted Spec.Conflicted); discriminate
    | apply (commit_buckets_disjoint self fs pkgs selection
               Spec.Modified Spec.Conflicted); discriminate ].
Qed.

(** What the restriction to a selection keeps of a list. *)
Lemma restrict_facts (selection : list string) :
  let restrict l :=
    match selection with
    | [] => l
    | _ :: _ => WC.only_selected selection l
    end in
  (forall l, NoDup l -> NoDup (restrict l)) /\
  (forall l x, In x (restrict l) -> In x l) /\
  (forall l1 l2, restrict (l1 ++ l2) = restrict l1 ++ restrict l2).
Proof.
  cbv zeta. destruct selection as [|s selection].
  - repeat split; auto.
  - unfold WC.only_selected. split; [|split].
    + intros l. apply NoDup_filter.
    + intros l x Hx. now apply filter_In in Hx.
    + intros l1 l2. apply filter_app.
Qed.

Lemma update_lists_unique (self : WC.Project) (fs : WC.FS)
  (pkgs : WC.Answers) (remote selection : list string)
  (info : WC.PackageUpdateInfo) :
  WC._calculate_updateinfo self fs pkgs remote selection = Ok info ->
  NoDup remote -> NoDup (WC.packages self) ->
  NoDup (WC.candidates info ++ WC.added info ++ WC.deleted info) /\
  forall x, count_occ string_dec (WC.conflicted info) x <= 2.
Proof.
  intros H Hr Hl.
  pose proof (update_lists_disjoint _ _ _ _ _ _ H) as Hd.
  destruct (updateinfo_lists self fs pkgs remote selection info H)
    as (Ec & Ea & Ed & Ecf).
  destruct (restrict_facts selection) as (Rnd & Rin & Rapp).
  cbv zeta in Rnd, Rin, Rapp.
  assert (Nc : NoDup (WC.candidates info))
    by (rewrite Ec; apply Rnd; now do 2 apply NoDup_filter).
  assert (Na : NoDup (WC.added info))
    by (rewrite Ea; apply Rnd; now do 2 apply NoDup_filter).
  assert (Nd : NoDup (WC.deleted info))
    by (rewrite Ed; apply Rnd; now apply NoDup_filter).
  unfold Spec.update_lists in Hd. simpl in Hd.
  destruct Hd as (D1 & D2 & _).
  inversion D1 as [|? ? Dca D1']; subst.
  inversion D1' as [|? ? Dcd _]; subst.
  inversion D2 as [|? ? Dad _]; subst.
  split.
  - apply NoDup_app_disjoint; [exact Nc | |].
    + apply NoDup_app_disjoint; assumption.
    + intros x Hx. rewrite in_app_iff.
      intros [Hin|Hin]; [exact (Dca x Hx Hin)|exact (Dcd x Hx Hin)].
  - intros x. rewrite Ecf, !Rapp.
    apply count_three.
    + apply Rnd. now apply NoDup_filter.
    + apply Rnd. now do 2 apply NoDup_filter.
    + apply Rnd. now do 2 apply NoDup_filter.
    + intros y Hy. apply Rin in Hy. apply filter_In in Hy as [Hy _].
      apply filter_In in Hy as [_ Hy]. apply negb_true_iff in Hy.
      apply contains_not_In in Hy. split; intros Hin; apply Rin in Hin.
      * apply filter_In in Hin as [Hin _]. contradiction.
      * apply filter_In in Hin as [Hin _].
        apply filter_In in Hin as [_ Hin]. apply contains_In in Hin.
        contradiction.
Qed.

Lemma commit_lists_unique (self : WC.Project) (fs : WC.FS)
  (pkgs : WC.Answers) (selection : list string) :
  NoDup (Vocabulary.chosen self selection) ->
  NoDup (concat (Spec.commit_lists
                   (WC._calculate_commitinfo self fs pkgs selection))).
Proof.
  intros Hnd.
  assert (Hlists : forall b,
     Spec.bucket_list b (WC._calculate_commitinfo self fs pkgs selection)
     = filter (fun p =>
                 Vocabulary.bucket_eqb (Spec.commit_bucket self fs pkgs p) b)
         (Vocabulary.chosen self selection)).
  { intros b. unfold WC._calculate_commitinfo.
    fold (Vocabulary.chosen self selection).
    rewrite commitinfo_lists. now destruct b. }
  refine (Permutation_NoDup _ Hnd). symmetry.
  unfold Spec.commit_lists.
  pose proof (Hlists Spec.Unchanged) as H1.
  pose proof (Hlists Spec.Added) as H2.
  pose proof (Hlists Spec.Deleted) as H3.
  pose proof (Hlists Spec.Modified) as H4.
  pose proof (Hlists Spec.Conflicted) as H5.
  simpl in H1, H2, H3, H4, H5. rewrite H1, H2, H3, H4, H5.
  exact (buckets_partition self fs pkgs (Vocabulary.chosen self selection)).
Qed.

(** C4: whenever the update classification returns, no name is in two of
    its four lists, and no name is in two of the five lists of the commit
    classification.  When the remote listing and the manifest repeat no
    name, a name has at most one position in the candidates, added and
    deleted lists together and at most two in the conflicted list; when
    the names that the commit classification is given repeat no name, a
    name has at most one position in its five lists together.  The update
    classification returns whenever every remote package marked ['D']
    locally holds a package working copy. *)
Theorem classifier_lists_pairwise_disjoint (self : WC.Project) (fs : WC.FS)
  (pkgs : WC.Answers) :
  (forall remote selection info,
     WC._calculate_updateinfo self fs pkgs remote selection = Ok info ->
     Spec.pairwise_disjoint (Spec.update_lists info) /\
     (NoDup remote -> NoDup (WC.packages self) ->
      NoDup (WC.candidates info ++ WC.added info ++ WC.deleted info) /\
      forall x, count_occ string_dec (WC.conflicted info) x <= 2)) /\
  (forall selection,
     Spec.pairwise_disjoint
       (Spec.commit_lists (WC._calculate_commitinfo self fs pkgs selection))
     /\
     (NoDup (Vocabulary.chosen self selection) ->
      NoDup (concat (Spec.commit_lists
                       (WC._calculate_commitinfo self fs pkgs selection)))))
  /\
  (forall remote selection,
     Manifest.well_formed (WC._packages self) = true ->
     (forall p, In p remote -> WC._status self fs p = "D" ->
                WC.wc_is_package fs (os_path_join (WC.path self) p) = true) ->
     exists info,
       WC._calculate_updateinfo self fs pkgs remote selection = Ok info).
Proof.
  split; [|split].
  - intros remote selection info H.
    split; [exact (update_lists_disjoint _ _ _ _ _ _ H)|].
    intros Hr Hl. exact (update_lists_unique _ _ _ _ _ _ H Hr Hl).
  - intros selection.
    split; [apply commit_lists_disjoint|apply commit_lists_unique].
  - intros remote selection. apply updateinfo_returns.
Qed.

Lemma classifier_lists_pairwise_disjoint_witness :
  exists info,
    WC._calculate_updateinfo Scenario.prj2 Scenario.prj2_fs Scenario.clean
      ["foo"; "abc"; "osc"] [] = Ok info /\
    Spec.pairwise_disjoint (Spec.update_lists info) /\
    NoDup (WC.candidates info ++ WC.added info ++ WC.deleted info) /\
    NoDup (concat (Spec.commit_lists
                     (WC._calculate_commitinfo Scenario.prj2
                        Scenario.prj2_fs Scenario.clean ["foo"; "bar"]))).
Proof.
  destruct (classifier_lists_pairwise_disjoint Scenario.prj2 Scenario.prj2_fs
              Scenario.clean) as (Hupdate & Hcommit & Hreturns).
  destruct (Hreturns ["foo"; "abc"; "osc"] [] eq_refl) as [info Hinfo].
  - intros p [<-|[<-|[<-|[]]]]; intros H; try discriminate H; reflexivity.
  - exists info. split; [exact Hinfo|].
    destruct (Hupdate _ _ _ Hinfo) as [Hd Hu].
    split; [exact Hd|]. split.
    + apply Hu.
      * repeat constructor; simpl; intuition discriminate.
      * repeat constructor; simpl; intuition discriminate.
    + apply (proj2 (Hcommit ["foo"; "bar"])).
      repeat constructor; simpl; intuition discriminate.
Defined.

(* --------------------------------------------------------------------- *)
(** *** add followed by remove                                            *)
(* --------------------------------------------------------------------- *)

Lemma find_set_other (q q' s : string) (m : Manifest.t) :
  q' <> q -> Manifest.find q' (Manifest.set q s m) = Manifest.find q' m.
Proof.
  intros Hne. induction m as [|e m IH]; simpl; [reflexivity|].
  destruct (String.eqb_spec (Manifest.entry_name e) q) as [E|E]; simpl.
  - destruct (String.eqb_spec q q') as [E'|_]; [congruence|].
    destruct (String.eqb_spec (Manifest.entry_name e) q') as [E'|_];
      [congruence|reflexivity].
  - now rewrite IH.
Qed.

Lemma find_remove_other (q q' : string) (m : Manifest.t) :
  q' <> q -> Manifest.find q' (Manifest.remove q m) = Manifest.find q' m.
Proof.
  intros Hne. induction m as [|e m IH]; simpl; [reflexivity|].
  destruct (String.eqb_spec (Manifest.entry_name e) q) as [E|E]; simpl.
  - destruct (String.eqb_spec (Manifest.entry_name e) q') as [E'|_];
      [congruence|reflexivity].
  - now rewrite IH.
Qed.

(** C8: [add(p)] of an untracked [p] followed at once by [remove(p)]
    leaves [p] out of the manifest, in memory and on disk, and the
    manifest as it was.  What [remove] does depends on the status, not on
    the manifest state: with status ['A'] it drops the entry of [p] (the
    first one of that name) and leaves the other entries as they are;
    with any other status of a tracked package, also ['!'] of a package
    whose manifest state is ['A'] and whose directory is gone, it sets
    the state to ['D'] and leaves the other entries as they are; and
    [remove] of an untracked name raises ValueError and changes
    nothing. *)
Theorem add_then_remove_roundtrip (w : WC.World) :
  (forall p,
     Manifest.find p (WC._packages (WC.w_self w)) = None ->
     WC.isdir (WC.w_fs w) (os_path_join (WC.path (WC.w_self w)) p) = true ->
     WC.wc_is_project (WC.w_fs w) (os_path_join (WC.path (WC.w_self w)) p)
     = false ->
     WC.wc_is_package (WC.w_fs w) (os_path_join (WC.path (WC.w_self w)) p)
     = false ->
     exists w1 w2,
       WC.add p w = (Ok tt, w1) /\
       WC._status (WC.w_self w1) (WC.w_fs w1) p = "A" /\
       WC.remove p w1 = (Ok tt, w2) /\
       WC._packages (WC.w_self w2) = WC._packages (WC.w_self w) /\
       WC.w_stored_packages w2 = WC._packages (WC.w_self w) /\
       ~ In p (WC.packages (WC.w_self w2)) /\
       WC._status (WC.w_self w2) (WC.w_fs w2) p = "?") /\
  (forall p,
     WC._status (WC.w_self w) (WC.w_fs w) p = "A" ->
     exists w',
       WC.remove p w = (Ok tt, w') /\
       WC._packages (WC.w_self w')
       = Manifest.remove p (WC._packages (WC.w_self w)) /\
       WC.w_stored_packages w' = WC._packages (WC.w_self w') /\
       (forall q, q <> p ->
          Manifest.find q (WC._packages (WC.w_self w'))
          = Manifest.find q (WC._packages (WC.w_self w))) /\
       (NoDup (WC.packages (WC.w_self w)) ->
        ~ In p (WC.packages (WC.w_self w')) /\
        WC._status (WC.w_self w') (WC.w_fs w') p = "?")) /\
  (forall q e,
     Manifest.well_formed (WC._packages (WC.w_self w)) = true ->
     Manifest.find q (WC._packages (WC.w_self w)) = Some e ->
     WC._status (WC.w_self w) (WC.w_fs w) q <> "A" ->
     exists w',
       WC.remove q w = (Ok tt, w') /\
       Manifest.find q (WC._packages (WC.w_self w'))
       = Some (Manifest.Entry q "D") /\
       WC.w_stored_packages w' = WC._packages (WC.w_self w') /\
       WC.packages (WC.w_self w') = WC.packages (WC.w_self w) /\
       (forall q', q' <> q ->
          Manifest.find q' (WC._packages (WC.w_self w'))
          = Manifest.find q' (WC._packages (WC.w_self w)))) /\
  (forall q e,
     Manifest.find q (WC._packages (WC.w_self w)) = Some e ->
     Manifest.entry_state e = "A" ->
     WC.exists_ (WC.w_fs w) (os_path_join (WC.path (WC.w_self w)) q)
     = false ->
     WC._status (WC.w_self w) (WC.w_fs w) q = "!" /\
     exists w',
       WC.remove q w = (Ok tt, w') /\
       Manifest.find q (WC._packages (WC.w_self w'))
       = Some (Manifest.Entry q "D") /\
       In q (WC.packages (WC.w_self w'))) /\
  (forall q,
     Manifest.find q (WC._packages (WC.w_self w)) = None ->
     exists msg, WC.remove q w = (Raise (ValueError msg), w)).
Proof.
  split; [|split; [|split; [|split]]].
  - intros p Hnone Hdir Hprj Hpkg.
    destruct (add_runs w p (status_untracked _ _ _ Hnone) Hdir Hprj Hpkg)
      as (w1 & Hadd & Hm & Hs & Hpath & Hex & _).
    destruct (find_add_fresh p "A" _ Hnone) as [Hfind Hrem].
    unfold Manifest.add in Hfind, Hrem. rewrite <- Hm in Hfind, Hrem.
    assert (HstA : WC._status (WC.w_self w1) (WC.w_fs w1) p = "A").
    { unfold WC._status. rewrite Hfind, Hpath, Hex. reflexivity. }
    exists w1. eexists. split; [exact Hadd|]. split; [exact HstA|].
    unfold WC.remove, mbind, gets. rewrite HstA. simpl.
    split; [reflexivity|]. simpl. rewrite Hrem.
    repeat split.
    + unfold WC.packages. simpl. now apply find_None_names.
    + now apply status_untracked.
  - intros p HstA. eexists.
    unfold WC.remove, mbind, gets. rewrite HstA. simpl.
    split; [reflexivity|]. simpl.
    split; [reflexivity|]. split; [reflexivity|]. split.
    + intros q Hq. now apply find_remove_other.
    + intros Hnd. destruct (remove_names p _ Hnd) as (_ & Hnone & _).
      split.
      * unfold WC.packages. simpl. now apply find_None_names.
      * now apply status_untracked.
  - intros q e Hwf Hfind HnotA.
    pose proof (well_formed_find _ _ _ Hwf Hfind) as Hv.
    apply valid_state_cases in Hv.
    destruct (find_set q "D" _ _ Hfind) as [Hfind' Hnames].
    assert (Hst : WC._status (WC.w_self w) (WC.w_fs w) q = "!" \/
                  WC._status (WC.w_self w) (WC.w_fs w) q = " " \/
                  WC._status (WC.w_self w) (WC.w_fs w) q = "D").
    { revert HnotA. unfold WC._status. rewrite Hfind.
      destruct Hv as [-> | [-> | ->]];
        destruct (WC.exists_ _ _); simpl; auto.
      intros C. now contradiction C. }
    eexists. unfold WC.remove, mbind, gets.
    split.
    + destruct Hst as [-> | [-> | ->]]; reflexivity.
    + simpl. split; [exact Hfind'|]. split; [reflexivity|].
      split; [exact Hnames|]. intros q' Hq'. now apply find_set_other.
  - intros q e Hfind Hstate Hmissing.
    assert (Hst : WC._status (WC.w_self w) (WC.w_fs w) q = "!").
    { unfold WC._status. now rewrite Hfind, Hmissing, Hstate. }
    split; [exact Hst|].
    destruct (find_set q "D" _ _ Hfind) as [Hfind' Hnames].
    eexists. unfold WC.remove, mbind, gets. rewrite Hst. simpl.
    split; [reflexivity|]. simpl. split; [exact Hfind'|].
    unfold WC.packages. simpl. rewrite Hnames.
    exact (find_tracked _ _ _ Hfind).
  - intros q Hnone. eexists.
    unfold WC.remove, mbind, gets.
    rewrite (status_untracked _ _ _ Hnone). reflexivity.
Qed.

Lemma add_then_remove_roundtrip_witness :
  exists w1 w2,
    WC.add "asdf" (Scenario.prj2_world Scenario.no_transaction) = (Ok tt, w1) /\
    WC.remove "asdf" w1 = (Ok tt, w2) /\
    WC.packages (WC.w_self w2) = ["foo"; "bar"; "abc"; "xxx"; "del"] /\
    (exists w',
       WC.remove "foo" (Scenario.prj2_world Scenario.no_transaction)
       = (Ok tt, w') /\
       Manifest.find "foo" (WC._packages (WC.w_self w'))
       = Some (Manifest.Entry "foo" "D")) /\
    (exists w',
       WC.remove "bar" (Scenario.prj2_world Scenario.no_transaction)
       = (Ok tt, w') /\
       Manifest.find "bar" (WC._packages (WC.w_self w')) = None) /\
    (exists msg,
       WC.remove "osc" (Scenario.prj2_world Scenario.no_transaction)
       = (Raise (ValueError msg),
          Scenario.prj2_world Scenario.no_transaction)).
Proof.
  destruct (add_then_remove_roundtrip
              (Scenario.prj2_world Scenario.no_transaction))
    as (Hround & Hdrop & Hset & _ & Hraise).
  destruct (Hround "asdf" eq_refl eq_refl eq_refl eq_refl)
    as (w1 & w2 & Hadd & _ & Hrem & Hm & _).
  exists w1, w2. split; [exact Hadd|]. split; [exact Hrem|].
  split; [unfold WC.packages; rewrite Hm; reflexivity|].
  split; [|split].
  - destruct (Hset "foo" (Manifest.Entry "foo" " ") eq_refl eq_refl)
      as (w' & Hr & Hf & _); [discriminate|].
    exists w'. auto.
  - destruct (Hdrop "bar" eq_refl) as (w' & Hr & Hm' & _).
    exists w'. split; [exact Hr|]. rewrite Hm'. reflexivity.
  - exact (Hraise "osc" eq_refl).
Defined.

(** C8, as stated: [asdf] is added, its directory vanishes, and [remove]
    finds the manifest state still ['A'] but the status ['!']: it does not
    drop the entry, it marks it ['D'], and [packages()] still lists the
    name. *)
Lemma add_then_remove_roundtrip_counterexample :
  exists w1 w2,
    WC.add "asdf" (Scenario.prj2_world Scenario.no_transaction) = (Ok tt, w1) /\
    Manifest.find "asdf" (WC._packages (WC.w_self w1))
    = Some (Manifest.Entry "asdf" "A") /\
    WC.exists_ Scenario.prj1_fs (os_path_join (WC.path (WC.w_self w1)) "asdf")
    = false /\
    WC.remove "asdf" (WC.set_fs Scenario.prj1_fs w1) = (Ok tt, w2) /\
    Manifest.find "asdf" (WC._packages (WC.w_self w2))
    = Some (Manifest.Entry "asdf" "D") /\
    In "asdf" (WC.packages (WC.w_self w2)).
Proof.
  exists (snd (WC.add "asdf" (Scenario.prj2_world Scenario.no_transaction))).
  exists (snd (WC.remove "asdf"
                 (WC.set_fs Scenario.prj1_fs
                    (snd (WC.add "asdf"
                            (Scenario.prj2_world Scenario.no_transaction)))))).
  split; [reflexivity|]. split; [reflexivity|].
  split; [reflexivity|]. split; [reflexivity|]. split; [reflexivity|].
  vm_compute. tauto.
Qed.
